(** * The move service of the draughts back-end

    A shallow embedding of [src/services/moveService.ts]: the position
    conversions, the AI move selector [chooseAIMove], the turn sequence
    [executeMove] and the finalisation [handleGameOver], run against an
    explicit database of players, games and move records.

    The rule engine and its computers come from the [rapid-draughts]
    package, and the balances and scores are JavaScript numbers: both are
    taken as parameters, gathered in the class [Runtime]. *)

From Stdlib Require Import ZArith List String Ascii Bool Lia QArith.
From Stdlib Require Import DecimalString Sorted Permutation.
Import ListNotations.

Local Open Scope string_scope.
Local Open Scope Z_scope.

(** ** Positions *)

(** [position.charCodeAt(0)]; [None] stands for [NaN] (empty string). *)
Definition charCodeAt0 (position : string) : option Z :=
  match position with
  | EmptyString => None
  | String c _ => Some (Z.of_N (N_of_ascii c))
  end.

(** [parseInt(c)] for a one-character string [c]: a decimal digit or [NaN]. *)
Definition parseInt_char (c : ascii) : option Z :=
  let n := Z.of_N (N_of_ascii c) in
  if (48 <=? n) && (n <=? 57) then Some (n - 48) else None.

(** [parseInt(position[1])]; [position[1]] is [undefined] on a string shorter
    than two characters, and [parseInt(undefined)] is [NaN]. *)
Definition parseInt_at1 (position : string) : option Z :=
  match position with
  | String _ (String d _) => parseInt_char d
  | _ => None
  end.

(** [convertPosition], lines 66-70.  The result is a JavaScript number:
    [None] is [NaN], which every arithmetic operation propagates. *)
Definition convertPosition (position : string) : option Z :=
  match charCodeAt0 position, parseInt_at1 position with
  | Some code, Some digit =>
      let file := code - 65 in
      let rank := 8 - digit in
      Some (rank * 8 + file)
  | _, _ => None
  end.

(** The decimal rendering of an integer inside a template literal. *)
Definition decimal (z : Z) : string := NilZero.string_of_int (Z.to_int z).

(** [convertPositionBack], lines 79-83, on an integer index: [%] is the
    remainder that takes the sign of the dividend, [Math.floor(index / 8)]
    the floor quotient. *)
Definition convertPositionBack (index : Z) : string :=
  let file := ascii_of_N (Z.to_N (65 + Z.rem index 8)) in
  let rank := 8 - index / 8 in
  String file (decimal rank).

(** An algebraic position: a file letter A-H followed by a rank digit 1-8. *)
Definition isAlgebraic (position : string) : bool :=
  match position with
  | String f (String r EmptyString) =>
      let cf := Z.of_N (N_of_ascii f) in
      let cr := Z.of_N (N_of_ascii r) in
      (65 <=? cf) && (cf <=? 72) && (49 <=? cr) && (cr <=? 56)
  | _ => false
  end.



(** ** Data of the rule engine

    The type declarations [moveService.ts] imports from [rapid-draughts]. *)

Inductive DraughtsPlayer := LIGHT | DARK.

Inductive DraughtsStatus := PLAYING | DRAW | LIGHT_WON | DARK_WON.

Record DraughtsPiece := { king : bool; player : DraughtsPlayer }.

Record DraughtsSquare1D :=
  { piece : option DraughtsPiece; square_position : option Z; dark : bool }.

Record DraughtsMove1D := { origin : Z; destination : Z; captures : list Z }.

(** A slot of a stored board is a JSON value: [null], a string (the initial
    board holds ["B"] and ["W"]), a square written by the engine, or a nested
    row of the 8x8 layout. *)
#[warnings="-register-all"]
Inductive Cell :=
| CNull
| CText (s : string)
| CSquare (sq : DraughtsSquare1D)
| CRow (row : list Cell).

(** [savedBoard.flat()]: one level of nesting is removed. *)
Definition flat (cells : list Cell) : list Cell :=
  flat_map (fun c => match c with CRow row => row | _ => [c] end) cells.

(** The object stored under a game's or a record's [board]: its [board]
    property, [None] when it is absent, falsy or not an array. *)
Record SavedData := { saved_board : option (list Cell) }.

(** The [board] column of a game: a JSON text or an already decoded value. *)
Inductive BoardColumn :=
| BoardText (text : string)
| BoardValue (data : SavedData).

(** ** Enumerations of the models and of the error factories *)

Inductive GameStatus := ONGOING | COMPLETED | ABANDONED | TIMED_OUT.

Inductive GameType := PVP | PVE.

Inductive AIDifficulty := ABSENT | EASY | HARD.

Inductive moveErrorType :=
| GAME_NOT_FOUND | FAILED_PARSING | NOT_VALID_ARRAY | NOT_VALID_MOVE
| NO_MOVES | MISSING_PARAMS.

Inductive gameErrorType := GAME_NOT_IN_PROGRESS.

Inductive authErrorType := UNAUTHORIZED.

(** What a call can throw: a plain [Error] or an error of one of the three
    factories. *)
Inductive Failure :=
| JsError (message : string)
| MoveError (t : moveErrorType)
| GameError (t : gameErrorType)
| AuthError (t : authErrorType).

(** ** The collaborators taken as parameters

    - the numbers of balances and scores, with the three literals of the
      source ([MOVE_COST = 0.02], the timeout penalty [0.5], the point [1]);
    - the engine object: [Draughts.setup()], the assignment
      [draughts.board[index] = square], and the members [board], [moves],
      [move] and [status];
    - the computers of [EnglishDraughtsComputerFactory]: the random one draws
      on a random source, the alpha-beta one takes its [maxDepth];
    - [JSON.parse], [None] when it throws. *)
Class Runtime := {
  num : Type;
  num_sub : num -> num -> num;
  num_add : num -> num -> num;
  MOVE_COST : num;
  half_point : num;
  one_point : num;
  Draughts : Type;
  Draughts_setup : Draughts;
  draughts_board_set : Draughts -> nat -> Cell -> Draughts;
  draughts_board : Draughts -> list Cell;
  draughts_moves : Draughts -> list DraughtsMove1D;
  draughts_move : Draughts -> DraughtsMove1D -> Draughts;
  draughts_status : Draughts -> DraughtsStatus;
  Rand : Type;
  randomComputer : Rand -> Draughts -> option DraughtsMove1D;
  alphaBetaComputer : Z -> Draughts -> option DraughtsMove1D;
  JSON_parse : string -> option SavedData
}.

Definition TIMEOUT_MINUTES : Z := 1.

(** [winner_id] of a game the AI has won. *)
Definition AI_SENTINEL : Z := -1.

(** ** The rows of the three tables *)

Module Player.
Record t {R : Runtime} := mk
  { player_id : Z; tokens : num; score : num }.
Definition set_tokens {R : Runtime} (p : t) (v : num) : t :=
  mk R (player_id p) v (score p).
Definition set_score {R : Runtime} (p : t) (v : num) : t :=
  mk R (player_id p) (tokens p) v.
End Player.

Module Game.
Record t := mk
  { game_id : Z;
    player_id : Z;
    opponent_id : option Z;
    winner_id : option Z;
    status : GameStatus;
    ended_at : option Z;
    type : GameType;
    ai_difficulty : AIDifficulty;
    board : BoardColumn;
    total_moves : Z }.
(** The player's half-move, lines 223-224. *)
Definition set_board_moves (g : t) (b : BoardColumn) (n : Z) : t :=
  mk (game_id g) (player_id g) (opponent_id g) (winner_id g) (status g)
     (ended_at g) (type g) (ai_difficulty g) b n.
(** The end of a session, lines 186-195 and 367-369. *)
Definition set_outcome (g : t) (s : GameStatus) (ended : Z) (w : option Z) : t :=
  mk (game_id g) (player_id g) (opponent_id g) w s
     (Some ended) (type g) (ai_difficulty g) (board g) (total_moves g).
End Game.

Module Move.
Record t := mk
  { move_number : Z;
    board : SavedData;
    from_position : string;
    to_position : string;
    piece_type : string;
    game_id : Z;
    user_id : option Z;
    createdAt : Z }.
End Move.

(** ** The database *)

Record DB {R : Runtime} := mkDB
  { players : list Player.t; games : list Game.t; moves_table : list Move.t }.

(** How a call ends: it returns a value or throws. *)
Inductive Outcome (A : Type) :=
| Return (a : A)
| Throw (e : Failure).

Arguments Return {A} a.
Arguments Throw {A} e.

Section Service.

Context {R : Runtime}.

(** [Model.findByPk]: the row with the given primary key. *)
Definition lookupPlayer (db : DB) (id : Z) : option Player.t :=
  find (fun p => Player.player_id p =? id) (players db).

Definition lookupGame (db : DB) (id : Z) : option Game.t :=
  find (fun g => Game.game_id g =? id) (games db).

(** [instance.save()]: the row of the instance's key takes the instance's
    fields.  Every instance below is saved by the call that loaded it, so
    writing the whole row and writing the changed fields coincide. *)
Definition storePlayer (db : DB) (p : Player.t) : DB :=
  mkDB R
    (map (fun r => if Player.player_id r =? Player.player_id p then p else r)
         (players db))
    (games db) (moves_table db).

Definition storeGame (db : DB) (g : Game.t) : DB :=
  mkDB R (players db)
    (map (fun r => if Game.game_id r =? Game.game_id g then g else r)
         (games db))
    (moves_table db).

(** [Move.create]: the record is appended to the table. *)
Definition insertMove (db : DB) (m : Move.t) : DB :=
  mkDB R (players db) (games db) (moves_table db ++ [m])%list.

Definition option_Z_eqb (a b : option Z) : bool :=
  match a, b with
  | Some x, Some y => x =? y
  | None, None => true
  | _, _ => false
  end.

(** The [where] clause of the two [Move.findOne] queries. *)
Definition moveMatches (gameId : Z) (userId : option Z) (m : Move.t) : bool :=
  (Move.game_id m =? gameId) && option_Z_eqb (Move.user_id m) userId.

(** [Move.findOne] with [order: createdAt DESC]: the matching record with the
    greatest [createdAt]; among equal stamps, the one inserted last, which
    is one of the answers the query may give there. *)
Definition latestMove (db : DB) (gameId : Z) (userId : option Z)
  : option Move.t :=
  fold_left
    (fun best m =>
       if moveMatches gameId userId m then
         match best with
         | Some b => if Move.createdAt b <=? Move.createdAt m
                     then Some m else Some b
         | None => Some m
         end
       else best)
    (moves_table db) None.

(** *** A state and exception monad over the database

    A thrown error keeps what was saved before it: the source opens no
    transaction. *)

Definition M (A : Type) : Type := DB -> DB * Outcome A.

Definition ret {A : Type} (a : A) : M A := fun db => (db, Return a).

Definition throw {A : Type} (e : Failure) : M A := fun db => (db, Throw e).

Definition bind {A B : Type} (c : M A) (k : A -> M B) : M B :=
  fun db =>
    match c db with
    | (db', Return a) => k a db'
    | (db', Throw e) => (db', Throw e)
    end.

Notation "x <- c ;; k" := (bind c (fun x => k))
  (at level 61, c at next level, right associativity).
Notation "c ;;; k" := (bind c (fun _ => k))
  (at level 61, right associativity).

Definition Player_findByPk (id : Z) : M (option Player.t) :=
  fun db => (db, Return (lookupPlayer db id)).

Definition Game_findByPk (id : Z) : M (option Game.t) :=
  fun db => (db, Return (lookupGame db id)).

Definition Player_save (p : Player.t) : M unit :=
  fun db => (storePlayer db p, Return tt).

Definition Game_save (g : Game.t) : M unit :=
  fun db => (storeGame db g, Return tt).

Definition Move_create (m : Move.t) : M unit :=
  fun db => (insertMove db m, Return tt).

Definition Move_findOne (gameId : Z) (userId : option Z) : M (option Move.t) :=
  fun db => (db, Return (latestMove db gameId userId)).

(** ** The AI move selector *)

(** [chooseAIMove], lines 39-56. *)
Definition chooseAIMove (rand : Rand) (draughts : Draughts)
    (difficulty : AIDifficulty) : option DraughtsMove1D :=
  match draughts_moves draughts with
  | [] => None
  | _ :: _ =>
      match difficulty with
      | EASY => randomComputer rand draughts
      | HARD => alphaBetaComputer 5 draughts
      | ABSENT => None
      end
  end.

(** ** The turn sequence *)

(** What [executeMove] resolves to: the timeout notice (lines 206-210), the
    end of the game (lines 244-249 and 308-313) or the acknowledgement of
    the move (lines 317-323 and 328-333). *)
Inductive MoveResult :=
| TimeoutResult (message : string) (game_id : Z) (status : GameStatus)
| GameOverResult (message : string) (game_id : Z) (board : list Cell)
    (moveDescription : string)
| MoveExecuted (message : string) (game_id : Z) (moveDescription : string).

(** The object [handleGameOver] returns. *)
Record GameOver := { over_message : string; over_board : list Cell }.

(** [x === y] where [y] may be [NaN]. *)
Definition strictEq (x : Z) (y : option Z) : bool :=
  match y with
  | Some v => x =? v
  | None => false
  end.

(** A string is truthy when it is not empty. *)
Definition truthy (s : string) : bool :=
  match s with
  | EmptyString => false
  | String _ _ => true
  end.

(** [savedBoard[index]?.piece?.king ? 'king' : 'single']: the index is taken
    in the stored array as it is, before flattening. *)
Definition pieceKind (savedBoard : list Cell) (index : option Z) : string :=
  match index with
  | Some i =>
      if i <? 0 then "single"
      else match nth_error savedBoard (Z.to_nat i) with
           | Some (CSquare sq) =>
               match piece sq with
               | Some p => if king p then "king" else "single"
               | None => "single"
               end
           | _ => "single"
           end
  | None => "single"
  end.

(** Lines 132-137: [typeof game.board === 'string' ? JSON.parse(game.board)
    : game.board]; [None] when the parse throws. *)
Definition loadSavedData (column : BoardColumn) : option SavedData :=
  match column with
  | BoardText text => JSON_parse text
  | BoardValue data => Some data
  end.

(** Lines 148-151: a fresh engine whose board slots are assigned one by one. *)
Definition setupBoard (flattenedBoard : list Cell) : Draughts :=
  fold_left (fun draughts entry => draughts_board_set draughts (fst entry) (snd entry))
    (combine (seq 0 (List.length flattenedBoard)) flattenedBoard)
    Draughts_setup.

(** Lines 164-165: [validMoves.find(...)]. *)
Definition findMove (draughts : Draughts) (origin' destination' : option Z)
  : option DraughtsMove1D :=
  find (fun m => strictEq (origin m) origin' && strictEq (destination m) destination')
    (draughts_moves draughts).

(** Line 182-184: the difference in minutes exceeds [TIMEOUT_MINUTES].  Both
    stamps are integer milliseconds, and the quotient by [1000 * 60] exceeds
    [1] exactly when the difference exceeds [60000]. *)
Definition timedOut (now : Z) (lastMove : Move.t) : bool :=
  TIMEOUT_MINUTES * (1000 * 60) <? now - Move.createdAt lastMove.

(** Lines 189-195: who wins a session that times out. *)
Definition timeoutWinner (game : Game.t) (playerId : Z) : option Z :=
  match Game.opponent_id game with
  | None => Some AI_SENTINEL
  | Some opponent =>
      if Game.player_id game =? playerId then Some opponent
      else Some (Game.player_id game)
  end.

(** Lines 184-211: the session ends on a timeout. *)
Definition timeoutBranch (now : Z) (game : Game.t) (gameId playerId : Z)
  : M MoveResult :=
  let game := Game.set_outcome game TIMED_OUT now (timeoutWinner game playerId) in
  Game_save game ;;;
  player <- Player_findByPk playerId ;;
  match player with
  | Some player =>
      Player_save (Player.set_score player (num_sub (Player.score player) half_point))
  | None => ret tt
  end ;;;
  ret (TimeoutResult
         ("The game has ended due to a timeout after " ++ decimal TIMEOUT_MINUTES
            ++ " minutes.")
         gameId (Game.status game)).

(** Line 214: the submission repeats the caller's last record. *)
Definition sameAsLast (lastMove : option Move.t) (from to : string) : bool :=
  match lastMove with
  | Some last =>
      String.eqb (Move.from_position last) from
      && String.eqb (Move.to_position last) to
  | None => false
  end.

(** Lines 242 and 306. *)
Definition isOver (s : DraughtsStatus) : bool :=
  match s with
  | LIGHT_WON | DARK_WON | DRAW => true
  | PLAYING => false
  end.

(** Lines 348-364: the winner and the message. *)
Definition resolveWinner (s : DraughtsStatus) (game : Game.t)
  : option Z * string :=
  match s with
  | LIGHT_WON => (Some (Game.player_id game), "You have won!")
  | DARK_WON =>
      match Game.type game with
      | PVE => (Some AI_SENTINEL, "The AI has won!")
      | PVP => (Game.opponent_id game, "Your opponent has won!")
      end
  | _ => (None, "The game ended in a draw!")
  end.

(** [handleGameOver], lines 346-385. *)
Definition handleGameOver (now : Z) (draughts : Draughts) (game : Game.t)
  : M GameOver :=
  let winnerId := fst (resolveWinner (draughts_status draughts) game) in
  let result := snd (resolveWinner (draughts_status draughts) game) in
  Game_save (Game.set_outcome game COMPLETED now winnerId) ;;;
  match winnerId with
  | Some id =>
      winner <- Player_findByPk id ;;
      match winner with
      | Some winner =>
          Player_save (Player.set_score winner (num_add (Player.score winner) one_point))
      | None => ret tt
      end
  | None => ret tt
  end ;;;
  ret {| over_message := result; over_board := draughts_board draughts |}.

(** Lines 244-249 and 308-313. *)
Definition gameOverResult (gameId : Z) (over : GameOver) : MoveResult :=
  GameOverResult (over_message over) gameId (over_board over)
    ("The game has ended: " ++ over_message over).

(** Lines 272-274: the legal moves that differ from [aiMove] in their origin
    or in their destination. *)
Definition otherMoves (draughts : Draughts) (aiMove : DraughtsMove1D)
  : list DraughtsMove1D :=
  filter (fun m => negb (origin m =? origin aiMove)
                   || negb (destination m =? destination aiMove))
         (draughts_moves draughts).

(** Lines 266-278: when the chosen move is the move of the AI's last record,
    the first of the other legal moves replaces it, or nothing when there is
    no other. *)
Definition avoidRepetition (draughts : Draughts) (lastAIMove : option Move.t)
    (aiMove : option DraughtsMove1D) : option DraughtsMove1D :=
  match lastAIMove, aiMove with
  | Some last, Some ai =>
      if truthy (Move.from_position last) && truthy (Move.to_position last)
         && strictEq (origin ai) (convertPosition (Move.from_position last))
         && strictEq (destination ai) (convertPosition (Move.to_position last))
      then
        match otherMoves draughts ai with
        | first :: _ => Some first
        | [] => None
        end
      else aiMove
  | _, _ => aiMove
  end.

Definition youMoved (savedBoard : list Cell) (origin' : option Z)
    (from to : string) : string :=
  "You moved a " ++ pieceKind savedBoard origin' ++ " from " ++ from
    ++ " to " ++ to ++ ".".

(** Lines 328-333. *)
Definition playerAck (gameId : Z) (savedBoard : list Cell) (origin' : option Z)
    (from to : string) : MoveResult :=
  MoveExecuted "Move successfully executed" gameId
    (youMoved savedBoard origin' from to).

(** [player.tokens -= MOVE_COST], lines 125 and 287. *)
Definition debit (player : Player.t) : Player.t :=
  Player.set_tokens player (num_sub (Player.tokens player) MOVE_COST).

(** Lines 280-324: the AI's half-move. *)
Definition aiHalfMove (now : Z) (game : Game.t) (player : Player.t)
    (gameId : Z) (savedBoard : list Cell) (origin' : option Z)
    (from to : string) (moveNumber : Z) (draughts : Draughts)
    (aiMove : DraughtsMove1D) : M MoveResult :=
  let draughts := draughts_move draughts aiMove in
  let game :=
    Game.set_board_moves game
      (BoardValue {| saved_board := Some (draughts_board draughts) |})
      (Game.total_moves game + 1) in
  Game_save game ;;;
  let player := debit player in
  Player_save player ;;;
  let fromPositionAI := convertPositionBack (origin aiMove) in
  let toPositionAI := convertPositionBack (destination aiMove) in
  Move_create
    {| Move.move_number := moveNumber + 1;
       Move.board := {| saved_board := Some (draughts_board draughts) |};
       Move.from_position := fromPositionAI;
       Move.to_position := toPositionAI;
       Move.piece_type := pieceKind savedBoard (Some (origin aiMove));
       Move.game_id := gameId;
       Move.user_id := None;
       Move.createdAt := now |} ;;;
  if isOver (draughts_status draughts) then
    over <- handleGameOver now draughts game ;;
    ret (gameOverResult gameId over)
  else
    ret (MoveExecuted "Move successfully executed" gameId
           (youMoved savedBoard origin' from to ++ " AI moved a "
              ++ pieceKind savedBoard (Some (origin aiMove)) ++ " from "
              ++ fromPositionAI ++ " to " ++ toPositionAI ++ ".")).

(** Lines 218-333: the player's move is played and recorded, then the game
    ends, or the AI answers, or the move is acknowledged. *)
Definition playMove (now : Z) (rand : Rand) (game : Game.t) (player : Player.t)
    (gameId : Z) (from to : string) (playerId : Z) (savedBoard : list Cell)
    (origin' : option Z) (draughts : Draughts) (moveToMake : DraughtsMove1D)
  : M MoveResult :=
  let draughts := draughts_move draughts moveToMake in
  let game :=
    Game.set_board_moves game
      (BoardValue {| saved_board := Some (draughts_board draughts) |})
      (Game.total_moves game + 1) in
  Game_save game ;;;
  let moveNumber := Game.total_moves game in
  Move_create
    {| Move.move_number := moveNumber;
       Move.board := {| saved_board := Some (draughts_board draughts) |};
       Move.from_position := from;
       Move.to_position := to;
       Move.piece_type := pieceKind savedBoard origin';
       Move.game_id := gameId;
       Move.user_id := Some playerId;
       Move.createdAt := now |} ;;;
  if isOver (draughts_status draughts) then
    over <- handleGameOver now draughts game ;;
    ret (gameOverResult gameId over)
  else
    match Game.type game with
    | PVE =>
        lastAIMove <- Move_findOne gameId None ;;
        match avoidRepetition draughts lastAIMove
                (chooseAIMove rand draughts (Game.ai_difficulty game)) with
        | Some aiMove =>
            aiHalfMove now game player gameId savedBoard origin' from to
              moveNumber draughts aiMove
        | None => ret (playerAck gameId savedBoard origin' from to)
        end
    | PVP => ret (playerAck gameId savedBoard origin' from to)
    end.

(** Lines 128-216: the stored board is loaded, the move is looked up among
    the legal ones, and the caller's last record is checked for a timeout and
    for a repetition. *)
Definition validateMove (now : Z) (rand : Rand) (game : Game.t)
    (player : Player.t) (gameId : Z) (from to : string) (playerId : Z)
  : M MoveResult :=
  match loadSavedData (Game.board game) with
  | None => throw (MoveError FAILED_PARSING)
  | Some savedData =>
      match saved_board savedData with
      | None => throw (MoveError NOT_VALID_ARRAY)
      | Some savedBoard =>
          let draughts := setupBoard (flat savedBoard) in
          let origin' := convertPosition from in
          let destination' := convertPosition to in
          match findMove draughts origin' destination' with
          | None => throw (MoveError NOT_VALID_MOVE)
          | Some moveToMake =>
              lastMove <- Move_findOne gameId (Some playerId) ;;
              if match lastMove with
                 | Some last => timedOut now last
                 | None => false
                 end
              then timeoutBranch now game gameId playerId
              else if sameAsLast lastMove from to
              then throw (MoveError NOT_VALID_MOVE)
              else playMove now rand game player gameId from to playerId
                     savedBoard origin' draughts moveToMake
          end
      end
  end.

(** Line 121: the caller is one of the two participants. *)
Definition isParticipant (game : Game.t) (playerId : Z) : bool :=
  (Game.player_id game =? playerId)
  || option_Z_eqb (Game.opponent_id game) (Some playerId).

Definition isOngoing (s : GameStatus) : bool :=
  match s with
  | ONGOING => true
  | _ => false
  end.

(** [executeMove], lines 101-334.  [now] is the clock of the call and [rand]
    the random source of the easy computer. *)
Definition executeMove (now : Z) (rand : Rand) (gameId : Z) (from to : string)
    (playerId : Z) : M MoveResult :=
  player <- Player_findByPk playerId ;;
  match player with
  | None => throw (JsError "Player not found.")
  | Some player =>
      game <- Game_findByPk gameId ;;
      match game with
      | None => throw (MoveError GAME_NOT_FOUND)
      | Some game =>
          if negb (isOngoing (Game.status game))
          then throw (GameError GAME_NOT_IN_PROGRESS)
          else if negb (isParticipant game playerId)
          then throw (AuthError UNAUTHORIZED)
          else
            let player := debit player in
            Player_save player ;;;
            validateMove now rand game player gameId from to playerId
      end
  end.

(** ** The stages of a call, as conditions on the database *)

(** The checks of lines 104-123 pass: the caller and the game exist, the
    game is in progress and the caller is one of its participants. *)
Definition Cleared (db : DB) (gameId playerId : Z) (player : Player.t)
    (game : Game.t) : Prop :=
  lookupPlayer db playerId = Some player
  /\ lookupGame db gameId = Some game
  /\ Game.status game = ONGOING
  /\ isParticipant game playerId = true.

(** The stored board of the game loads as an array (lines 128-143). *)
Definition Loaded (game : Game.t) (savedBoard : list Cell) : Prop :=
  exists savedData,
    loadSavedData (Game.board game) = Some savedData
    /\ saved_board savedData = Some savedBoard.

(** The legal move the submitted pair designates, if any (lines 145-165). *)
Definition submitted (savedBoard : list Cell) (from to : string)
  : option DraughtsMove1D :=
  findMove (setupBoard (flat savedBoard)) (convertPosition from)
    (convertPosition to).

(** The caller's last record in the game is older than the threshold. *)
Definition stale (now : Z) (db : DB) (gameId playerId : Z) : bool :=
  match latestMove db gameId (Some playerId) with
  | Some last => timedOut now last
  | None => false
  end.

(** The submitted pair is the pair of the caller's last record. *)
Definition repeated (db : DB) (gameId playerId : Z) (from to : string) : bool :=
  sameAsLast (latestMove db gameId (Some playerId)) from to.

(** The call reaches line 219 with the legal move [moveToMake]. *)
Definition Accepted (now : Z) (db : DB) (gameId : Z) (from to : string)
    (playerId : Z) (player : Player.t) (game : Game.t)
    (savedBoard : list Cell) (moveToMake : DraughtsMove1D) : Prop :=
  Cleared db gameId playerId player game
  /\ Loaded game savedBoard
  /\ submitted savedBoard from to = Some moveToMake
  /\ stale now db gameId playerId = false
  /\ repeated db gameId playerId from to = false.

(** The position after the player's move. *)
Definition afterMove (savedBoard : list Cell) (moveToMake : DraughtsMove1D)
  : Draughts :=
  draughts_move (setupBoard (flat savedBoard)) moveToMake.

(** The move the AI ends up with in a PvE game, after the guard of lines
    266-278. *)
Definition aiReply (rand : Rand) (db : DB) (gameId : Z) (game : Game.t)
    (draughts : Draughts) : option DraughtsMove1D :=
  avoidRepetition draughts (latestMove db gameId None)
    (chooseAIMove rand draughts (Game.ai_difficulty game)).

(** The records a call has appended. *)
Definition appended (db db' : DB) : list Move.t :=
  skipn (List.length (moves_table db)) (moves_table db').

(** The sequence numbers of the records of a game, in insertion order. *)
Definition numbers (db : DB) (gameId : Z) : list Z :=
  map Move.move_number
      (filter (fun m => Move.game_id m =? gameId) (moves_table db)).

Definition upto (n : Z) : list Z := map Z.of_nat (seq 1 (Z.to_nat n)).

(** Every game counts its records: the records of a game carry the numbers
    1, 2, ..., [total_moves] in this order. *)
Definition Sequenced (db : DB) : Prop :=
  forall gameId game,
    lookupGame db gameId = Some game ->
    0 <= Game.total_moves game
    /\ numbers db gameId = upto (Game.total_moves game).

(** The balance and the score of a player, if the player exists. *)
Definition tokensOf (db : DB) (playerId : Z) : option num :=
  option_map Player.tokens (lookupPlayer db playerId).

Definition scoreOf (db : DB) (playerId : Z) : option num :=
  option_map Player.score (lookupPlayer db playerId).

(** What a call on the game [gameId] does to the games and to the records:
    the records [new] are appended, they belong to the game and carry the
    numbers that follow its counter, the counter of the game grows by their
    number, and the other games are as before. *)
Definition Commits (gameId : Z) (db db' : DB) (new : list Move.t) : Prop :=
  moves_table db' = (moves_table db ++ new)%list
  /\ Forall (fun m => Move.game_id m = gameId) new
  /\ (forall id, id <> gameId -> lookupGame db' id = lookupGame db id)
  /\ (lookupGame db gameId = None -> lookupGame db' gameId = None /\ new = [])
  /\ (forall game,
        lookupGame db gameId = Some game ->
        exists game',
          lookupGame db' gameId = Some game'
          /\ Game.total_moves game'
             = Game.total_moves game + Z.of_nat (List.length new)
          /\ map Move.move_number new
             = map (fun i => Game.total_moves game + Z.of_nat i)
                   (seq 1 (List.length new))).

(** ** The states a call leaves *)

(** The state a timeout leaves (lines 186-204). *)
Definition timeoutState (now : Z) (game : Game.t) (playerId : Z) (db : DB) : DB :=
  let db1 :=
    storeGame db (Game.set_outcome game TIMED_OUT now (timeoutWinner game playerId)) in
  match lookupPlayer db1 playerId with
  | Some p =>
      storePlayer db1 (Player.set_score p (num_sub (Player.score p) half_point))
  | None => db1
  end.

Definition timeoutNotice (gameId : Z) : MoveResult :=
  TimeoutResult "The game has ended due to a timeout after 1 minutes." gameId
    TIMED_OUT.

(** The state [handleGameOver] leaves (lines 366-379). *)
Definition finalState (now : Z) (draughts : Draughts) (game : Game.t) (db : DB)
  : DB :=
  let winnerId := fst (resolveWinner (draughts_status draughts) game) in
  let db1 := storeGame db (Game.set_outcome game COMPLETED now winnerId) in
  match winnerId with
  | Some id =>
      match lookupPlayer db1 id with
      | Some w =>
          storePlayer db1 (Player.set_score w (num_add (Player.score w) one_point))
      | None => db1
      end
  | None => db1
  end.

Definition finalNotice (draughts : Draughts) (game : Game.t) : GameOver :=
  {| over_message := snd (resolveWinner (draughts_status draughts) game);
     over_board := draughts_board draughts |}.

(** The game and the record a half-move writes. *)
Definition gameAfter (game : Game.t) (draughts : Draughts) : Game.t :=
  Game.set_board_moves game
    (BoardValue {| saved_board := Some (draughts_board draughts) |})
    (Game.total_moves game + 1).

Definition recordOf (now number gameId : Z) (user : option Z)
    (from to kind : string) (draughts : Draughts) : Move.t :=
  {| Move.move_number := number;
     Move.board := {| saved_board := Some (draughts_board draughts) |};
     Move.from_position := from;
     Move.to_position := to;
     Move.piece_type := kind;
     Move.game_id := gameId;
     Move.user_id := user;
     Move.createdAt := now |}.

(** The state after the player's half-move (lines 219-239). *)
Definition playerState now (game : Game.t) gameId from to playerId savedBoard
    origin' (draughts : Draughts) (db : DB) : DB :=
  insertMove (storeGame db (gameAfter game draughts))
    (recordOf now (Game.total_moves game + 1) gameId (Some playerId) from to
       (pieceKind savedBoard origin') draughts).

(** The state after the AI's half-move (lines 281-303). *)
Definition aiState now (game : Game.t) (player : Player.t) gameId savedBoard
    (draughts : Draughts) (aiMove : DraughtsMove1D) (db : DB) : DB :=
  insertMove (storePlayer (storeGame db (gameAfter game draughts)) (debit player))
    (recordOf now (Game.total_moves game + 1) gameId None
       (convertPositionBack (origin aiMove))
       (convertPositionBack (destination aiMove))
       (pieceKind savedBoard (Some (origin aiMove))) draughts).

End Service.

(** ** The ways through [executeMove]

    One constructor for each [throw] and each [return] of lines 101-334,
    with the conditions that lead to it and the state it leaves. *)

Section Branches.

Context {R : Runtime}.

Variables (now : Z) (rand : Rand) (gameId : Z) (from to : string)
  (playerId : Z) (db : DB).

Inductive Branch : DB * Outcome MoveResult -> Prop :=
| NoPlayer :
    lookupPlayer db playerId = None ->
    Branch (db, Throw (JsError "Player not found."))
| NoGame player :
    lookupPlayer db playerId = Some player ->
    lookupGame db gameId = None ->
    Branch (db, Throw (MoveError GAME_NOT_FOUND))
| NotInProgress player game :
    lookupPlayer db playerId = Some player ->
    lookupGame db gameId = Some game ->
    isOngoing (Game.status game) = false ->
    Branch (db, Throw (GameError GAME_NOT_IN_PROGRESS))
| NotParticipant player game :
    lookupPlayer db playerId = Some player ->
    lookupGame db gameId = Some game ->
    isOngoing (Game.status game) = true ->
    isParticipant game playerId = false ->
    Branch (db, Throw (AuthError UNAUTHORIZED))
| ParseFailed player game :
    Cleared db gameId playerId player game ->
    loadSavedData (Game.board game) = None ->
    Branch (storePlayer db (debit player), Throw (MoveError FAILED_PARSING))
| NotAnArray player game savedData :
    Cleared db gameId playerId player game ->
    loadSavedData (Game.board game) = Some savedData ->
    saved_board savedData = None ->
    Branch (storePlayer db (debit player), Throw (MoveError NOT_VALID_ARRAY))
| NotLegal player game savedBoard :
    Cleared db gameId playerId player game ->
    Loaded game savedBoard ->
    submitted savedBoard from to = None ->
    Branch (storePlayer db (debit player), Throw (MoveError NOT_VALID_MOVE))
| TimedOut player game savedBoard moveToMake :
    Cleared db gameId playerId player game ->
    Loaded game savedBoard ->
    submitted savedBoard from to = Some moveToMake ->
    stale now db gameId playerId = true ->
    Branch (timeoutState now game playerId (storePlayer db (debit player)),
            Return (timeoutNotice gameId))
| Repeated player game savedBoard moveToMake :
    Cleared db gameId playerId player game ->
    Loaded game savedBoard ->
    submitted savedBoard from to = Some moveToMake ->
    stale now db gameId playerId = false ->
    repeated db gameId playerId from to = true ->
    Branch (storePlayer db (debit player), Throw (MoveError NOT_VALID_MOVE))
| PlayerEnds player game savedBoard moveToMake :
    Accepted now db gameId from to playerId player game savedBoard moveToMake ->
    isOver (draughts_status (afterMove savedBoard moveToMake)) = true ->
    let d1 := afterMove savedBoard moveToMake in
    let db1 := playerState now game gameId from to playerId savedBoard
                 (convertPosition from) d1 (storePlayer db (debit player)) in
    Branch (finalState now d1 (gameAfter game d1) db1,
            Return (gameOverResult gameId (finalNotice d1 (gameAfter game d1))))
| PlayerOnly player game savedBoard moveToMake :
    Accepted now db gameId from to playerId player game savedBoard moveToMake ->
    isOver (draughts_status (afterMove savedBoard moveToMake)) = false ->
    Game.type game = PVP
    \/ aiReply rand db gameId game (afterMove savedBoard moveToMake) = None ->
    let d1 := afterMove savedBoard moveToMake in
    Branch (playerState now game gameId from to playerId savedBoard
              (convertPosition from) d1 (storePlayer db (debit player)),
            Return (playerAck gameId savedBoard (convertPosition from) from to))
| AiEnds player game savedBoard moveToMake aiMove :
    Accepted now db gameId from to playerId player game savedBoard moveToMake ->
    isOver (draughts_status (afterMove savedBoard moveToMake)) = false ->
    Game.type game = PVE ->
    aiReply rand db gameId game (afterMove savedBoard moveToMake) = Some aiMove ->
    let d1 := afterMove savedBoard moveToMake in
    let d2 := draughts_move d1 aiMove in
    let db1 := playerState now game gameId from to playerId savedBoard
                 (convertPosition from) d1 (storePlayer db (debit player)) in
    let db2 := aiState now (gameAfter game d1) (debit player) gameId savedBoard
                 d2 aiMove db1 in
    isOver (draughts_status d2) = true ->
    Branch (finalState now d2 (gameAfter (gameAfter game d1) d2) db2,
            Return (gameOverResult gameId
                      (finalNotice d2 (gameAfter (gameAfter game d1) d2))))
| AiAnswers player game savedBoard moveToMake aiMove :
    Accepted now db gameId from to playerId player game savedBoard moveToMake ->
    isOver (draughts_status (afterMove savedBoard moveToMake)) = false ->
    Game.type game = PVE ->
    aiReply rand db gameId game (afterMove savedBoard moveToMake) = Some aiMove ->
    let d1 := afterMove savedBoard moveToMake in
    let d2 := draughts_move d1 aiMove in
    let db1 := playerState now game gameId from to playerId savedBoard
                 (convertPosition from) d1 (storePlayer db (debit player)) in
    let db2 := aiState now (gameAfter game d1) (debit player) gameId savedBoard
                 d2 aiMove db1 in
    isOver (draughts_status d2) = false ->
    Branch (db2,
            Return (MoveExecuted "Move successfully executed" gameId
                      (youMoved savedBoard (convertPosition from) from to
                         ++ " AI moved a "
                         ++ pieceKind savedBoard (Some (origin aiMove))
                         ++ " from " ++ convertPositionBack (origin aiMove)
                         ++ " to " ++ convertPositionBack (destination aiMove)
                         ++ "."))).

End Branches.

(** ** Sequences of calls *)

Section Calls.

Context {R : Runtime}.

(** The arguments of one call of [executeMove], with its clock and its
    random source. *)
Record Call := {
  call_now : Z;
  call_rand : Rand;
  call_gameId : Z;
  call_from : string;
  call_to : string;
  call_playerId : Z
}.

Definition runCall (c : Call) (db : DB) : DB :=
  fst (executeMove (call_now c) (call_rand c) (call_gameId c) (call_from c)
         (call_to c) (call_playerId c) db).

(** The calls are served one after the other. *)
Definition runCalls (calls : list Call) (db : DB) : DB :=
  fold_left (fun state c => runCall c state) calls db.

(** The records of a game, in insertion order. *)
Definition recordsOf (db : DB) (gameId : Z) : list Move.t :=
  filter (fun m => Move.game_id m =? gameId) (moves_table db).

(** What a game keeps for ever: its key, its participants, its type and the
    difficulty of its AI. *)
Definition sameSession (g g' : Game.t) : Prop :=
  Game.game_id g' = Game.game_id g
  /\ Game.player_id g' = Game.player_id g
  /\ Game.opponent_id g' = Game.opponent_id g
  /\ Game.type g' = Game.type g
  /\ Game.ai_difficulty g' = Game.ai_difficulty g.

End Calls.


(** ** The history of a game and the two controllers of the moves

    [exportMoveHistory] (lines 388-481 of [moveService.ts]) and the
    controller class [MoveController].  What they take from libraries is a
    parameter again: the [format] of [date-fns] with the pattern
    ['dd/MM/yyyy HH:mm:ss'], the buffer [pdfkit] renders for a game and its
    entries, and [String.prototype.toUpperCase]. *)

(** An entry of [movesWithUsernames]. *)
Module Entry.
Record t := mk
  { moveNumber : Z;
    fromPosition : string;
    toPosition : string;
    pieceType : string;
    timestamp : string;
    username : string }.
End Entry.

(** The attributes [player_id] and [username] of a row of the players, as
    [Player.findAll] selects them. *)
Module PlayerName.
Record t := mk { player_id : Z; username : string }.
End PlayerName.

(** The three libraries. *)
Class Libraries := {
  dateFormat : Z -> string;
  Buffer : Type;
  pdfDocument : Z -> list Entry.t -> Buffer;
  toUpperCase : string -> string
}.

Section History.

Context {R : Runtime} {L : Libraries}.

(** The double quote of the message below. *)
Definition quote : string := String (ascii_of_nat 34) EmptyString.

Definition unsupportedFormat : string :=
  "Unsupported format. Please choose " ++ quote ++ "json" ++ quote ++ " or "
    ++ quote ++ "pdf" ++ quote ++ ".".

(** [order: createdAt ASC]: the records by ascending stamp.  The query
    promises no order among records with the same stamp; here they stay in
    the order of their insertion, which is one of the answers it may give,
    and what is proved of the listing depends on the stamps only. *)
Fixpoint insertByDate (m : Move.t) (sorted : list Move.t) : list Move.t :=
  match sorted with
  | [] => [m]
  | x :: rest =>
      if Move.createdAt m <=? Move.createdAt x then m :: sorted
      else x :: insertByDate m rest
  end.

(** A record stamped strictly before another. *)
Definition before (a b : Move.t) : Prop :=
  Move.createdAt a < Move.createdAt b.

(** A record is not stamped after another. *)
Definition notAfter (a b : Move.t) : Prop :=
  Move.createdAt a <= Move.createdAt b.

Definition byDate (records : list Move.t) : list Move.t :=
  fold_right insertByDate [] records.

(** [Move.findAll] of lines 390-393. *)
Definition Move_findAll (db : DB) (gameId : Z) : list Move.t :=
  byDate (recordsOf db gameId).

(** The elements of a [Set] built from an array, in the order of their first
    occurrence. *)
Fixpoint distinct (ids : list Z) : list Z :=
  match ids with
  | [] => []
  | id :: rest => id :: filter (fun other => negb (other =? id)) (distinct rest)
  end.

(** Lines 400-403: the ids of the users among the records, [null] left out. *)
Definition userIdsOf (moves : list Move.t) : list Z :=
  distinct
    (flat_map (fun m => match Move.user_id m with
                        | Some id => [id]
                        | None => []
                        end) moves).

(** Lines 406-409: the rows whose [player_id] is among the ids. *)
Definition Player_findAll (names : list PlayerName.t) (ids : list Z)
  : list PlayerName.t :=
  filter (fun p => existsb (fun id => PlayerName.player_id p =? id) ids) names.

(** Lines 412-415 and the reading [userMap[id]]: the rows are written into
    the map one after the other, so the last row of an id is the one read. *)
Definition userMapGet (players : list PlayerName.t) (id : Z) : option string :=
  option_map PlayerName.username
    (find (fun p => PlayerName.player_id p =? id) (rev players)).

(** Line 424. *)
Definition usernameFor (players : list PlayerName.t) (m : Move.t) : string :=
  match Move.user_id m with
  | None => "Artificial Intelligence"
  | Some id =>
      match userMapGet players id with
      | Some name => if truthy name then name else "Unknown Player"
      | None => "Unknown Player"
      end
  end.

(** Lines 418-425. *)
Definition entryOf (players : list PlayerName.t) (m : Move.t) : Entry.t :=
  {| Entry.moveNumber := Move.move_number m;
     Entry.fromPosition := Move.from_position m;
     Entry.toPosition := Move.to_position m;
     Entry.pieceType := Move.piece_type m;
     Entry.timestamp := dateFormat (Move.createdAt m);
     Entry.username := usernameFor players m |}.

(** What [exportMoveHistory] resolves to. *)
Inductive HistoryExport :=
| JsonHistory (entries : list Entry.t)
| PdfHistory (buffer : Buffer).

Definition movesWithUsernames (db : DB) (names : list PlayerName.t)
    (gameId : Z) : list Entry.t :=
  let moves := Move_findAll db gameId in
  let players := Player_findAll names (userIdsOf moves) in
  map (entryOf players) moves.

(** [exportMoveHistory], lines 388-481.  [names] holds the attributes
    [player_id] and [username] of the players. *)
Definition exportMoveHistory (db : DB) (names : list PlayerName.t)
    (gameId : Z) (format : string) : Outcome HistoryExport :=
  match Move_findAll db gameId with
  | [] => Throw (MoveError NO_MOVES)
  | _ :: _ =>
      let entries := movesWithUsernames db names gameId in
      if String.eqb format "json" then Return (JsonHistory entries)
      else if String.eqb format "pdf"
      then Return (PdfHistory (pdfDocument gameId entries))
      else Throw (JsError unsupportedFormat)
  end.

(** *** [MoveController.getMoveHistory] *)

(** What the controller passes to [next]: the [GAME_NOT_FOUND] of the game
    factory or what the service has thrown. *)
Inductive HistoryFailure :=
| HistoryGameNotFound
| HistoryService (e : Failure).

(** What the controller answers: the PDF with its two headers, the entries
    as JSON with the status 200, or an error handed to [next]. *)
Inductive HistoryReply :=
| ReplyPdf (contentType contentDisposition : string) (buffer : Buffer)
| ReplyJson (status : Z) (body : HistoryExport)
| ReplyNext (err : HistoryFailure).

(** [req.query.format as string || 'json']. *)
Definition formatOf (query : option string) : string :=
  match query with
  | Some f => if truthy f then f else "json"
  | None => "json"
  end.

(** [getMoveHistory] once [req.params.gameId] is parsed. *)
Definition getMoveHistory (db : DB) (names : list PlayerName.t) (gameId : Z)
    (query : option string) : HistoryReply :=
  let format := formatOf query in
  match lookupGame db gameId with
  | None => ReplyNext HistoryGameNotFound
  | Some _ =>
      match exportMoveHistory db names gameId format with
      | Throw e => ReplyNext (HistoryService e)
      | Return result =>
          if String.eqb format "pdf" then
            match result with
            | PdfHistory buffer =>
                ReplyPdf "application/pdf"
                  ("attachment; filename=game_" ++ decimal gameId ++ "_moves.pdf")
                  buffer
            | JsonHistory _ => ReplyJson 200 result
            end
          else ReplyJson 200 result
      end
  end.

(** *** [MoveController.executeMove] *)

(** The request as the controller reads it: the three fields of the body,
    each absent or of the type the documentation gives it, and the player id
    of the authenticated user. *)
Record MoveRequest := {
  body_gameId : option Z;
  body_from : option string;
  body_to : option string;
  user_player_id : option Z
}.

(** What the controller passes to [next]: the [NEED_AUTHORIZATION] of the
    authentication factory or an error of the taxonomy of the service. *)
Inductive RequestFailure :=
| NeedAuthorization
| Refused (e : Failure).

Inductive MoveReply :=
| MoveJson (status : Z) (result : MoveResult)
| MoveNext (err : RequestFailure).

(** Lines 38-43 of the controller: a non-empty string is upper-cased. *)
Definition upperCased (field : option string) : option string :=
  match field with
  | Some s => if truthy s then Some (toUpperCase s) else Some s
  | None => None
  end.

(** [!x] for a number: absent or zero. *)
Definition truthyNumber (x : option Z) : option Z :=
  match x with
  | Some n => if n =? 0 then None else Some n
  | None => None
  end.

(** [!x] for a string: absent or empty. *)
Definition truthyString (x : option string) : option string :=
  match x with
  | Some s => if truthy s then Some s else None
  | None => None
  end.

(** [MoveController.executeMove]: the reply and the database it leaves. *)
Definition executeMoveRequest (now : Z) (rand : Rand) (req : MoveRequest)
    (db : DB) : DB * MoveReply :=
  let from := upperCased (body_from req) in
  let to := upperCased (body_to req) in
  match truthyNumber (user_player_id req) with
  | None => (db, MoveNext NeedAuthorization)
  | Some playerId =>
      match truthyNumber (body_gameId req), truthyString from, truthyString to with
      | Some gameId, Some from, Some to =>
          match executeMove now rand gameId from to playerId db with
          | (db', Return result) => (db', MoveJson 200 result)
          | (db', Throw e) => (db', MoveNext (Refused e))
          end
      | _, _, _ => (db, MoveNext (Refused (MoveError MISSING_PARAMS)))
      end
  end.

(** Upper-casing on the characters below 128: the letters a-z go to A-Z and
    the others stay. *)
Definition upperAscii (c : ascii) : ascii :=
  let n := N_of_ascii c in
  if ((97 <=? n) && (n <=? 122))%N then ascii_of_N (n - 32) else c.

Fixpoint upperString (s : string) : string :=
  match s with
  | EmptyString => EmptyString
  | String c rest => String (upperAscii c) (upperString rest)
  end.

Fixpoint below128 (s : string) : bool :=
  match s with
  | EmptyString => true
  | String c rest => (N_of_ascii c <? 128)%N && below128 rest
  end.

End History.

(** ** The creation of a game

    [gameController.createGame].  The game service and the values of the
    enumeration [AIDifficulty] are not part of the controller: the query
    [findActiveGameForPlayer] and the strings of the three difficulties are
    parameters, and the call of [gameService.createGame] is the result. *)

(** The attributes [player_id] and [email] of a row of the players. *)
Module PlayerEmail.
Record t := mk { player_id : Z; email : string }.
End PlayerEmail.

(** The game service and the model of the games. *)
Class GameModule {R : Runtime} := {
  difficultyValue : AIDifficulty -> string;
  findActiveGameForPlayer : DB -> Z -> option Z -> option Game.t
}.

Inductive gameCreationError :=
| MISSING_PLAYER_ID
| OPPONENT_NOT_FOUND
| PLAYER_ALREADY_IN_GAME
| OPPONENT_ALREADY_IN_GAME
| SELF_CHALLENGE_NOT_ALLOWED
| INVALID_GAME_PARAMETERS
| INVALID_DIFFICULTY
| MISSING_GAME_PARAMETERS.

(** The authenticated user of a request, as the authentication middleware
    fills it: the id and the address of the player. *)
Record RequestUser := { user_id : Z; user_email : string }.

(** The request: the two fields of the body, each absent or a string, and
    the user. *)
Record CreateRequest := {
  opponent_email : option string;
  ai_difficulty : option string;
  create_user : option RequestUser
}.

(** The arguments of [gameService.createGame]. *)
Record CreateCall := {
  arg_playerId : Z;
  arg_opponent_email : option string;
  arg_type : GameType;
  arg_ai_difficulty : option string;
  arg_initialBoard : list Cell;
  arg_total_moves : Z
}.

(** The controller hands an error to [next], or calls the service and
    answers 201 with the game the service returns. *)
Inductive CreateReply :=
| CreateNext (e : gameCreationError)
| CreateService (call : CreateCall).

(** The board of a new game, lines 72-83 of the controller. *)
Definition newGameBoard : list Cell :=
  [ CRow [CNull; CText "B"; CNull; CText "B"; CNull; CText "B"; CNull; CText "B"];
    CRow [CText "B"; CNull; CText "B"; CNull; CText "B"; CNull; CText "B"; CNull];
    CRow [CNull; CText "B"; CNull; CText "B"; CNull; CText "B"; CNull; CText "B"];
    CRow [CNull; CNull; CNull; CNull; CNull; CNull; CNull; CNull];
    CRow [CNull; CNull; CNull; CNull; CNull; CNull; CNull; CNull];
    CRow [CText "W"; CNull; CText "W"; CNull; CText "W"; CNull; CText "W"; CNull];
    CRow [CNull; CText "W"; CNull; CText "W"; CNull; CText "W"; CNull; CText "W"];
    CRow [CText "W"; CNull; CText "W"; CNull; CText "W"; CNull; CText "W"; CNull] ].

Section Creation.

Context {R : Runtime} {G : GameModule}.

(** [Player.findOne({where: {email}})]. *)
Definition findByEmail (emails : list PlayerEmail.t) (email : string)
  : option PlayerEmail.t :=
  find (fun p => String.eqb (PlayerEmail.email p) email) emails.

(** A game involves a player. *)
Definition involves (game : Game.t) (id : Z) : bool :=
  (Game.player_id game =? id) || option_Z_eqb (Game.opponent_id game) (Some id).

(** [Object.values(AIDifficulty).includes(x)]. *)
Definition isDifficulty (x : string) : bool :=
  existsb (fun d => String.eqb x (difficultyValue d)) [ABSENT; EASY; HARD].

(** Lines 41-49: the active game found for the player and the opponent. *)
Definition activeGameError (existingGame : option Game.t) (playerId : Z)
    (opponentId : option Z) : option gameCreationError :=
  match existingGame with
  | Some game =>
      if isOngoing (Game.status game) then
        if involves game playerId then Some PLAYER_ALREADY_IN_GAME
        else match opponentId with
             | Some opponent =>
                 if involves game opponent then Some OPPONENT_ALREADY_IN_GAME
                 else None
             | None => None
             end
      else None
  | None => None
  end.

(** Lines 50-69: the parameters of the game. *)
Definition gameParameters (req : CreateRequest) (user : RequestUser)
  : gameCreationError + GameType :=
  if match opponent_email req with
     | Some email => String.eqb (user_email user) email
     | None => false
     end
  then inl SELF_CHALLENGE_NOT_ALLOWED
  else
    match truthyString (opponent_email req), truthyString (ai_difficulty req) with
    | Some _, Some _ => inl INVALID_GAME_PARAMETERS
    | Some _, None => inr PVP
    | None, Some difficulty =>
        if String.eqb difficulty (difficultyValue ABSENT)
        then inl INVALID_DIFFICULTY
        else if negb (isDifficulty difficulty) then inl INVALID_DIFFICULTY
        else inr PVE
    | None, None => inl MISSING_GAME_PARAMETERS
    end.

(** [createGame], lines 26-88 of the controller. *)
Definition createGameRequest (db : DB) (emails : list PlayerEmail.t)
    (req : CreateRequest) : CreateReply :=
  match create_user req with
  | None => CreateNext MISSING_PLAYER_ID
  | Some user =>
      if user_id user =? 0 then CreateNext MISSING_PLAYER_ID
      else
        let playerId := user_id user in
        let opponent :=
          match truthyString (opponent_email req) with
          | Some email =>
              match findByEmail emails email with
              | Some row => inr (Some (PlayerEmail.player_id row))
              | None => inl OPPONENT_NOT_FOUND
              end
          | None => inr None
          end in
        match opponent with
        | inl e => CreateNext e
        | inr opponentId =>
            match activeGameError (findActiveGameForPlayer db playerId opponentId)
                    playerId opponentId with
            | Some e => CreateNext e
            | None =>
                match gameParameters req user with
                | inl e => CreateNext e
                | inr type =>
                    CreateService
                      {| arg_playerId := playerId;
                         arg_opponent_email := opponent_email req;
                         arg_type := type;
                         arg_ai_difficulty := ai_difficulty req;
                         arg_initialBoard := newGameBoard;
                         arg_total_moves := 0 |}
                end
            end
        end
  end.

End Creation.

(** ** A scripted engine and sample sessions

    To run the service on concrete sessions the parameters are instantiated
    by a scripted engine: a script gives, for a position, its status and its
    legal moves with the script each one leads to.  Balances and scores are
    rationals. *)

Module Scripted.

#[warnings="-register-all"]
Inductive Script :=
| Node (status : DraughtsStatus) (replies : list (DraughtsMove1D * Script)).

Definition status_of (s : Script) : DraughtsStatus :=
  match s with Node status _ => status end.

Definition replies_of (s : Script) : list (DraughtsMove1D * Script) :=
  match s with Node _ replies => replies end.

(** The engine object: the squares it shows and the script it follows. *)
Record Engine := { squares : list Cell; script : Script }.

Definition sameMove (a b : DraughtsMove1D) : bool :=
  (origin a =? origin b) && (destination a =? destination b).

(** [array[index] = value]: a slot past the end extends the array. *)
Fixpoint assign (cells : list Cell) (index : nat) (value : Cell) : list Cell :=
  match cells, index with
  | [], O => [value]
  | [], S n => CNull :: assign [] n value
  | _ :: rest, O => value :: rest
  | c :: rest, S n => c :: assign rest n value
  end.

Definition cellAt (cells : list Cell) (index : Z) : Cell :=
  if index <? 0 then CNull else nth (Z.to_nat index) cells CNull.

Definition board_set (e : Engine) (index : nat) (value : Cell) : Engine :=
  {| squares := assign (squares e) index value; script := script e |}.

Definition moves (e : Engine) : list DraughtsMove1D :=
  map fst (replies_of (script e)).

(** The piece goes from the origin to the destination and the script follows
    the move; a move that is not legal changes nothing. *)
Definition move (e : Engine) (m : DraughtsMove1D) : Engine :=
  match find (fun r => sameMove (fst r) m) (replies_of (script e)) with
  | Some (_, next) =>
      if (origin m <? 0) || (destination m <? 0) then
        {| squares := squares e; script := next |}
      else
        {| squares :=
             assign (assign (squares e) (Z.to_nat (destination m))
                       (cellAt (squares e) (origin m)))
                    (Z.to_nat (origin m)) CNull;
           script := next |}
  | None => e
  end.

(** The easy computer draws the move of rank [rand]; the hard one is played
    by the first legal move. *)
Definition random (rand : nat) (e : Engine) : option DraughtsMove1D :=
  nth_error (moves e) (Nat.modulo rand (List.length (moves e))).

Definition alphaBeta (maxDepth : Z) (e : Engine) : option DraughtsMove1D :=
  hd_error (moves e).

(** Only the text of the empty object is parsed. *)
Definition parse (text : string) : option SavedData :=
  if String.eqb text "{}" then Some {| saved_board := None |} else None.

Definition runtime (root : Script) : Runtime :=
  {| num := Q;
     num_sub := Qminus;
     num_add := Qplus;
     MOVE_COST := (1 # 50)%Q;
     half_point := (1 # 2)%Q;
     one_point := 1%Q;
     Draughts := Engine;
     Draughts_setup := {| squares := repeat CNull 64; script := root |};
     draughts_board_set := board_set;
     draughts_board := squares;
     draughts_moves := moves;
     draughts_move := move;
     draughts_status := fun e => status_of (script e);
     Rand := nat;
     randomComputer := random;
     alphaBetaComputer := alphaBeta;
     JSON_parse := parse |}.

End Scripted.

Module Sample.

Import Scripted.

Definition step (o d : Z) : DraughtsMove1D :=
  {| origin := o; destination := d; captures := [] |}.

Definition B : Cell := CText "B".
Definition W : Cell := CText "W".
Definition o : Cell := CNull.

(** The board a new game is created with. *)
Definition initialBoard : list Cell :=
  [ CRow [o; B; o; B; o; B; o; B];
    CRow [B; o; B; o; B; o; B; o];
    CRow [o; B; o; B; o; B; o; B];
    CRow [o; o; o; o; o; o; o; o];
    CRow [o; o; o; o; o; o; o; o];
    CRow [W; o; W; o; W; o; W; o];
    CRow [o; W; o; W; o; W; o; W];
    CRow [W; o; W; o; W; o; W; o] ].

(** The opening: the caller may play A3-B4, C3-D4 or E3-F4; to the first two
    the other side has the answers B6-A5 and B6-C5, to the third B6-A5
    only. *)
Definition opening : Script :=
  Node PLAYING
    [ (step 40 33,
       Node PLAYING [ (step 17 24, Node PLAYING []);
                      (step 17 26, Node PLAYING []) ]);
      (step 42 35,
       Node PLAYING [ (step 17 24, Node PLAYING []);
                      (step 17 26, Node PLAYING []) ]);
      (step 44 37,
       Node PLAYING [ (step 17 24, Node PLAYING []) ]) ].

Definition player (R : Runtime) (id : Z) (t s : @num R) : Player.t :=
  Player.mk R id t s.

Definition game (id creator : Z) (opponent : option Z) (s : GameStatus)
    (ty : GameType) (difficulty : AIDifficulty) (moved : Z) : Game.t :=
  {| Game.game_id := id;
     Game.player_id := creator;
     Game.opponent_id := opponent;
     Game.winner_id := None;
     Game.status := s;
     Game.ended_at := None;
     Game.type := ty;
     Game.ai_difficulty := difficulty;
     Game.board := BoardValue {| saved_board := Some initialBoard |};
     Game.total_moves := moved |}.

Definition record (number gameId : Z) (user : option Z) (from to : string)
    (stamp : Z) : Move.t :=
  {| Move.move_number := number;
     Move.board := {| saved_board := Some initialBoard |};
     Move.from_position := from;
     Move.to_position := to;
     Move.piece_type := "single";
     Move.game_id := gameId;
     Move.user_id := user;
     Move.createdAt := stamp |}.

(** Two players; game 1 is a fresh PvP session between them and game 2 a
    fresh PvE session of player 1 against the hard AI.  Player 2 has no
    tokens left. *)
Definition fresh (root : Script) : @DB (runtime root) :=
  mkDB (runtime root)
    [ player (runtime root) 1 (10 # 1)%Q 0%Q;
      player (runtime root) 2 0%Q 0%Q ]
    [ game 1 1 (Some 2) ONGOING PVP ABSENT 0;
      game 2 1 None ONGOING PVE HARD 0 ]
    [].

(** Both sessions after a first round played at time [1000]: in game 1
    each player has moved, in game 2 player 1 played A3-B4 and the AI
    answered B6-A5. *)
Definition played (root : Script) : @DB (runtime root) :=
  mkDB (runtime root)
    [ player (runtime root) 1 (10 # 1)%Q 0%Q;
      player (runtime root) 2 0%Q 0%Q ]
    [ game 1 1 (Some 2) ONGOING PVP ABSENT 2;
      game 2 1 None ONGOING PVE HARD 2 ]
    [ record 1 1 (Some 1) "A3" "B4" 1000;
      record 2 1 (Some 2) "C3" "D4" 1000;
      record 1 2 (Some 1) "A3" "B4" 1000;
      record 2 2 None "B6" "A5" 1000 ].

(** The runtime of the sessions that start from [opening], and their two
    players. *)
Definition rt : Runtime := runtime opening.

Definition alice : @Player.t rt := Player.mk rt 1 (10 # 1)%Q 0%Q.

Definition bob : @Player.t rt := Player.mk rt 2 0%Q 0%Q.

(** The opening position with the dark squares numbered from 0 to 31, row
    by row from the top: dark is to move and has the seven moves from the
    squares 8..11 to the squares 12..15, and light answers with one of the
    seven moves from the squares 20..23 to the squares 16..19.  The pair
    A7-E7 converts to the squares 8 and 12. *)
Definition lightOpening : list (DraughtsMove1D * Script) :=
  map (fun m => (m, Node PLAYING []))
    [ step 20 16; step 21 16; step 21 17; step 22 17; step 22 18;
      step 23 18; step 23 19 ].

Definition standard : Script :=
  Node PLAYING
    (map (fun m => (m, Node PLAYING lightOpening))
       [ step 8 12; step 8 13; step 9 13; step 9 14; step 10 14;
         step 10 15; step 11 15 ]).


(** A fresh PvE session of player 1, game 3, whose difficulty is Absent. *)
Definition unrated (root : Script) : @DB (runtime root) :=
  mkDB (runtime root)
    [ player (runtime root) 1 (10 # 1)%Q 0%Q ]
    [ game 3 1 None ONGOING PVE ABSENT 0 ]
    [].

End Sample.

(** The libraries of the sample sessions: stamps are printed as decimal
    numbers, the rendered document is the list of its entries, and
    upper-casing is the one of the characters below 128.  Player 1 is named
    alice and player 2 has an empty name. *)
Module Desk.

Definition libraries : Libraries :=
  {| dateFormat := decimal;
     Buffer := list Entry.t;
     pdfDocument := fun _ entries => entries;
     toUpperCase := upperString |}.

Definition names : list PlayerName.t :=
  [ PlayerName.mk 1 "alice"; PlayerName.mk 2 "" ].

(** Game 1 after two moves played half a second apart. *)
Definition spaced : @DB Sample.rt :=
  mkDB Sample.rt
    [ Sample.alice; Sample.bob ]
    [ Sample.game 1 1 (Some 2) ONGOING PVP ABSENT 2 ]
    [ Sample.record 1 1 (Some 1) "A3" "B4" 1000;
      Sample.record 2 1 (Some 2) "C3" "D4" 1500 ].

End Desk.

(** The game module of the sample sessions: the difficulties are spelled
    Absent, Easy and Hard, and the active game of a player or of an opponent
    is the first game in progress that involves one of them.  The players 1,
    2 and 3 have the addresses below. *)
Module Lobby.

Definition spelled (d : AIDifficulty) : string :=
  match d with
  | ABSENT => "Absent"
  | EASY => "Easy"
  | HARD => "Hard"
  end.

Definition activeGame (db : @DB Sample.rt) (playerId : Z) (opponentId : option Z)
  : option Game.t :=
  find (fun g => isOngoing (Game.status g)
                 && (involves g playerId
                     || match opponentId with
                        | Some opponent => involves g opponent
                        | None => false
                        end))
       (games db).

Definition gameModule : @GameModule Sample.rt :=
  {| difficultyValue := spelled; findActiveGameForPlayer := activeGame |}.

Definition emails : list PlayerEmail.t :=
  [ PlayerEmail.mk 1 "alice@example.org";
    PlayerEmail.mk 2 "bob@example.org";
    PlayerEmail.mk 3 "carol@example.org" ].

End Lobby.

(** ** Properties of the tables *)

Section Tables.

Context {R : Runtime}.

(** A lookup after a save, for any table keyed by an integer. *)
Lemma find_replace {A : Type} (key : A -> Z) (x : A) (id : Z) (rows : list A) :
  find (fun r => key r =? id)
       (map (fun r => if key r =? key x then x else r) rows)
  = if key x =? id
    then match find (fun r => key r =? id) rows with
         | Some _ => Some x
         | None => None
         end
    else find (fun r => key r =? id) rows.
Proof.
  induction rows as [|r rows IH]; simpl.
  - destruct (key x =? id); reflexivity.
  - rewrite IH.
    destruct (Z.eqb_spec (key r) (key x)) as [E|E];
      destruct (Z.eqb_spec (key x) id) as [E'|E'];
      destruct (Z.eqb_spec (key r) id) as [E''|E'']; try congruence;
      try reflexivity.
Qed.

Lemma lookupPlayer_key (db : DB) (id : Z) (p : Player.t) :
  lookupPlayer db id = Some p -> Player.player_id p = id.
Proof.
  unfold lookupPlayer. intros H. apply find_some in H.
  destruct H as [_ H]. now apply Z.eqb_eq.
Qed.

Lemma lookupGame_key (db : DB) (id : Z) (g : Game.t) :
  lookupGame db id = Some g -> Game.game_id g = id.
Proof.
  unfold lookupGame. intros H. apply find_some in H.
  destruct H as [_ H]. now apply Z.eqb_eq.
Qed.

Lemma lookupPlayer_storePlayer (db : DB) (p : Player.t) (id : Z) :
  lookupPlayer (storePlayer db p) id
  = if Player.player_id p =? id
    then match lookupPlayer db id with Some _ => Some p | None => None end
    else lookupPlayer db id.
Proof. unfold lookupPlayer, storePlayer. simpl. apply find_replace. Qed.

Lemma lookupGame_storeGame (db : DB) (g : Game.t) (id : Z) :
  lookupGame (storeGame db g) id
  = if Game.game_id g =? id
    then match lookupGame db id with Some _ => Some g | None => None end
    else lookupGame db id.
Proof. unfold lookupGame, storeGame. simpl. apply find_replace. Qed.

(** Saving a loaded player, then reading the row back. *)
Lemma lookupPlayer_saved (db : DB) (id : Z) (p q : Player.t) :
  lookupPlayer db id = Some p -> Player.player_id q = id ->
  lookupPlayer (storePlayer db q) id = Some q.
Proof.
  intros H E. rewrite lookupPlayer_storePlayer, E, Z.eqb_refl, H. reflexivity.
Qed.

Lemma lookupGame_saved (db : DB) (id : Z) (g h : Game.t) :
  lookupGame db id = Some g -> Game.game_id h = id ->
  lookupGame (storeGame db h) id = Some h.
Proof.
  intros H E. rewrite lookupGame_storeGame, E, Z.eqb_refl, H. reflexivity.
Qed.

(** A record of another user does not change the latest record of a user. *)
Lemma latestMove_insert_other (db : DB) (gameId : Z) (userId : option Z)
    (m : Move.t) :
  moveMatches gameId userId m = false ->
  latestMove (insertMove db m) gameId userId = latestMove db gameId userId.
Proof.
  intros H. unfold latestMove, insertMove. simpl.
  rewrite fold_left_app. simpl. rewrite H. reflexivity.
Qed.

End Tables.

(** ** The stages of [executeMove], one equation each *)

Section Stages.

Context {R : Runtime}.

Lemma lookupGame_storePlayer (db : DB) (p : Player.t) (id : Z) :
  lookupGame (storePlayer db p) id = lookupGame db id.
Proof. reflexivity. Qed.

Lemma lookupGame_insertMove (db : DB) (m : Move.t) (id : Z) :
  lookupGame (insertMove db m) id = lookupGame db id.
Proof. reflexivity. Qed.

Lemma lookupPlayer_storeGame (db : DB) (g : Game.t) (id : Z) :
  lookupPlayer (storeGame db g) id = lookupPlayer db id.
Proof. reflexivity. Qed.

Lemma lookupPlayer_insertMove (db : DB) (m : Move.t) (id : Z) :
  lookupPlayer (insertMove db m) id = lookupPlayer db id.
Proof. reflexivity. Qed.

Lemma moves_table_storePlayer (db : DB) (p : Player.t) :
  moves_table (storePlayer db p) = moves_table db.
Proof. reflexivity. Qed.

Lemma moves_table_storeGame (db : DB) (g : Game.t) :
  moves_table (storeGame db g) = moves_table db.
Proof. reflexivity. Qed.

Lemma moves_table_insertMove (db : DB) (m : Move.t) :
  moves_table (insertMove db m) = (moves_table db ++ [m])%list.
Proof. reflexivity. Qed.

Lemma latestMove_storePlayer (db : DB) (p : Player.t) g u :
  latestMove (storePlayer db p) g u = latestMove db g u.
Proof. reflexivity. Qed.

Lemma latestMove_storeGame (db : DB) (x : Game.t) g u :
  latestMove (storeGame db x) g u = latestMove db g u.
Proof. reflexivity. Qed.

Lemma timeoutBranch_run now game gameId playerId db :
  timeoutBranch now game gameId playerId db
  = (timeoutState now game playerId db, Return (timeoutNotice gameId)).
Proof.
  unfold timeoutBranch, timeoutState, bind, Game_save, Player_findByPk,
    Player_save, ret.
  simpl. rewrite !lookupPlayer_storeGame.
  destruct (lookupPlayer db playerId); reflexivity.
Qed.

Lemma handleGameOver_run now draughts game db :
  handleGameOver now draughts game db
  = (finalState now draughts game db, Return (finalNotice draughts game)).
Proof.
  unfold handleGameOver, finalState, finalNotice, bind, Game_save,
    Player_findByPk, Player_save, ret.
  destruct (fst (resolveWinner (draughts_status draughts) game)) as [id|];
    [|reflexivity].
  simpl. rewrite !lookupPlayer_storeGame.
  destruct (lookupPlayer db id); reflexivity.
Qed.

Lemma aiHalfMove_run now game player gameId savedBoard origin' from to
    draughts aiMove db :
  let d2 := draughts_move draughts aiMove in
  let db2 := aiState now game player gameId savedBoard d2 aiMove db in
  aiHalfMove now game player gameId savedBoard origin' from to
    (Game.total_moves game) draughts aiMove db
  = if isOver (draughts_status d2)
    then (finalState now d2 (gameAfter game d2) db2,
          Return (gameOverResult gameId (finalNotice d2 (gameAfter game d2))))
    else (db2,
          Return (MoveExecuted "Move successfully executed" gameId
                    (youMoved savedBoard origin' from to ++ " AI moved a "
                       ++ pieceKind savedBoard (Some (origin aiMove)) ++ " from "
                       ++ convertPositionBack (origin aiMove) ++ " to "
                       ++ convertPositionBack (destination aiMove) ++ "."))).
Proof.
  intros d2 db2. unfold aiHalfMove, bind, Game_save, Player_save, Move_create.
  fold d2. cbv zeta.
  destruct (isOver (draughts_status d2)) eqn:E.
  - rewrite handleGameOver_run. reflexivity.
  - reflexivity.
Qed.

Lemma playMove_run now rand game player gameId from to playerId savedBoard
    origin' draughts moveToMake db :
  let d1 := draughts_move draughts moveToMake in
  let g1 := gameAfter game d1 in
  let db1 := playerState now game gameId from to playerId savedBoard origin' d1 db in
  playMove now rand game player gameId from to playerId savedBoard origin'
    draughts moveToMake db
  = if isOver (draughts_status d1)
    then (finalState now d1 g1 db1,
          Return (gameOverResult gameId (finalNotice d1 g1)))
    else match Game.type game with
         | PVE =>
             match aiReply rand db gameId game d1 with
             | Some aiMove =>
                 aiHalfMove now g1 player gameId savedBoard origin' from to
                   (Game.total_moves g1) d1 aiMove db1
             | None => (db1, Return (playerAck gameId savedBoard origin' from to))
             end
         | PVP => (db1, Return (playerAck gameId savedBoard origin' from to))
         end.
Proof.
  cbv zeta. unfold playMove, bind, Game_save, Move_create, Move_findOne.
  destruct (isOver (draughts_status (draughts_move draughts moveToMake))) eqn:E.
  - rewrite handleGameOver_run. reflexivity.
  - cbn [Game.type Game.set_board_moves Game.ai_difficulty].
    destruct (Game.type game); [reflexivity|].
    unfold aiReply.
    rewrite latestMove_insert_other.
    + rewrite latestMove_storeGame.
      destruct (avoidRepetition _ _ _); reflexivity.
    + unfold moveMatches. simpl. apply andb_false_r.
Qed.

Lemma validateMove_run now rand game player gameId from to playerId savedBoard db :
  Loaded game savedBoard ->
  validateMove now rand game player gameId from to playerId db
  = match submitted savedBoard from to with
    | None => (db, Throw (MoveError NOT_VALID_MOVE))
    | Some moveToMake =>
        if stale now db gameId playerId
        then (timeoutState now game playerId db, Return (timeoutNotice gameId))
        else if repeated db gameId playerId from to
        then (db, Throw (MoveError NOT_VALID_MOVE))
        else playMove now rand game player gameId from to playerId savedBoard
               (convertPosition from) (setupBoard (flat savedBoard))
               moveToMake db
    end.
Proof.
  intros [sd [H1 H2]]. unfold validateMove, submitted. rewrite H1, H2.
  destruct (findMove _ _ _); [|reflexivity].
  unfold bind, Move_findOne, stale, repeated.
  destruct (latestMove db gameId (Some playerId)) as [last|]; simpl.
  - destruct (timedOut now last); [apply timeoutBranch_run|].
    destruct (_ && _); reflexivity.
  - reflexivity.
Qed.

Lemma executeMove_run now rand gameId from to playerId player game db :
  Cleared db gameId playerId player game ->
  executeMove now rand gameId from to playerId db
  = validateMove now rand game (debit player) gameId from to playerId
      (storePlayer db (debit player)).
Proof.
  intros (H1 & H2 & H3 & H4).
  unfold executeMove, bind, Player_findByPk, Game_findByPk, Player_save.
  rewrite H1, H2, H3, H4. reflexivity.
Qed.

End Stages.

(** ** The order of the checks *)

Section Checks.

Context {R : Runtime}.

Lemma gameId_of_cleared db gameId playerId player game :
  Cleared db gameId playerId player game -> Game.game_id game = gameId.
Proof. intros (_ & H & _). now apply lookupGame_key in H. Qed.

Lemma playerId_of_cleared db gameId playerId player game :
  Cleared db gameId playerId player game -> Player.player_id player = playerId.
Proof. intros (H & _). now apply lookupPlayer_key in H. Qed.

(** After the debit of line 125-126 the caller's row is the debited one and
    the game is untouched. *)
Lemma lookupPlayer_debited db gameId playerId player game :
  Cleared db gameId playerId player game ->
  lookupPlayer (storePlayer db (debit player)) playerId = Some (debit player).
Proof.
  intros H. apply lookupPlayer_saved with (p := player).
  - apply H.
  - exact (playerId_of_cleared _ _ _ _ _ H).
Qed.

(** C10: a caller that matches no player gets the plain error
    ["Player not found."], whatever the game is (missing, over, someone
    else's): the lookup of the player comes first and nothing is written.
    Hence [GAME_NOT_FOUND] is only reported to a caller that is a player. *)
Theorem player_lookup_comes_first now rand gameId from to playerId (db : DB) :
  (lookupPlayer db playerId = None ->
   executeMove now rand gameId from to playerId db
   = (db, Throw (JsError "Player not found.")))
  /\ (snd (executeMove now rand gameId from to playerId db)
      = Throw (MoveError GAME_NOT_FOUND) ->
      (exists player, lookupPlayer db playerId = Some player)
      /\ lookupGame db gameId = None).
Proof.
  unfold executeMove, bind, Player_findByPk, Game_findByPk, throw. split.
  - intros H. rewrite H. reflexivity.
  - destruct (lookupPlayer db playerId) as [player|]; [|discriminate].
    destruct (lookupGame db gameId) as [game|].
    + intros H. exfalso. revert H.
      destruct (negb (isOngoing (Game.status game))); [discriminate|].
      destruct (negb (isParticipant game playerId)); [discriminate|].
      change (snd (validateMove now rand game (debit player) gameId from to
                     playerId (storePlayer db (debit player)))
              = Throw (MoveError GAME_NOT_FOUND) -> False).
      unfold validateMove.
      destruct (loadSavedData (Game.board game)) as [sd|]; [|discriminate].
      destruct (saved_board sd) as [sb|]; [|discriminate].
      destruct (findMove _ _ _) as [m|]; [|discriminate].
      unfold bind, Move_findOne.
      destruct (latestMove _ _ _) as [last|].
      * destruct (timedOut now last).
        -- rewrite timeoutBranch_run. discriminate.
        -- destruct (sameAsLast _ _ _); [discriminate|].
           rewrite playMove_run. cbv zeta.
           destruct (isOver _); [discriminate|].
           destruct (Game.type game); [discriminate|].
           destruct (aiReply _ _ _ _ _); [|discriminate].
           rewrite aiHalfMove_run. cbv zeta.
           destruct (isOver _); discriminate.
      * simpl. rewrite playMove_run. cbv zeta.
        destruct (isOver _); [discriminate|].
        destruct (Game.type game); [discriminate|].
        destruct (aiReply _ _ _ _ _); [|discriminate].
        rewrite aiHalfMove_run. cbv zeta.
        destruct (isOver _); discriminate.
    + intros _. split; [eexists; reflexivity|reflexivity].
Qed.

(** C1, as the code has it: the legality of the submitted pair is looked up
    first (lines 160-168) and the timeout is checked after it (lines
    179-212).  When the caller's last record is older than the threshold, a
    legal submission ends the session: status [TIMED_OUT], the other
    participant (the AI sentinel when there is no opponent) as winner, the
    end stamped, half a point taken from the caller, and the move is not
    played: board, move count and records are as before.  An illegal
    submission is rejected with [NOT_VALID_MOVE] and the session stays as it
    was. *)
Theorem timeout_follows_validation now rand gameId from to playerId player game
    savedBoard last (db : DB) :
  Cleared db gameId playerId player game ->
  Loaded game savedBoard ->
  latestMove db gameId (Some playerId) = Some last ->
  timedOut now last = true ->
  let run := executeMove now rand gameId from to playerId db in
  match submitted savedBoard from to with
  | Some _ =>
      snd run = Return (timeoutNotice gameId)
      /\ (exists game',
             lookupGame (fst run) gameId = Some game'
             /\ Game.status game' = TIMED_OUT
             /\ Game.winner_id game' = timeoutWinner game playerId
             /\ Game.ended_at game' = Some now
             /\ Game.board game' = Game.board game
             /\ Game.total_moves game' = Game.total_moves game)
      /\ (exists player',
             lookupPlayer (fst run) playerId = Some player'
             /\ Player.score player' = num_sub (Player.score player) half_point
             /\ Player.tokens player' = num_sub (Player.tokens player) MOVE_COST)
      /\ moves_table (fst run) = moves_table db
  | None =>
      snd run = Throw (MoveError NOT_VALID_MOVE)
      /\ lookupGame (fst run) gameId = Some game
      /\ moves_table (fst run) = moves_table db
  end.
Proof.
  intros Hadm Hload Hlast Hold run. subst run.
  rewrite (executeMove_run _ _ _ _ _ _ _ _ _ Hadm).
  rewrite (validateMove_run _ _ _ _ _ _ _ _ _ _ Hload).
  destruct (submitted savedBoard from to) as [m|].
  - unfold stale. rewrite latestMove_storePlayer, Hlast, Hold.
    unfold timeoutState. cbn [fst snd].
    rewrite lookupPlayer_storeGame, (lookupPlayer_debited _ _ _ _ _ Hadm).
    split; [reflexivity|]. split; [|split].
    + eexists. split.
      * rewrite lookupGame_storePlayer.
        apply lookupGame_saved with (g := game).
        -- rewrite lookupGame_storePlayer. apply Hadm.
        -- exact (gameId_of_cleared _ _ _ _ _ Hadm).
      * repeat split.
    + eexists. split.
      * apply lookupPlayer_saved with (p := debit player).
        -- rewrite lookupPlayer_storeGame.
           exact (lookupPlayer_debited _ _ _ _ _ Hadm).
        -- exact (playerId_of_cleared _ _ _ _ _ Hadm).
      * split; reflexivity.
    + reflexivity.
  - cbn [fst snd]. split; [reflexivity|]. split; [|reflexivity].
    rewrite lookupGame_storePlayer. apply Hadm.
Qed.

(** C5: a submission that repeats the pair of the caller's last record is
    rejected with [NOT_VALID_MOVE], whether or not the pair is a legal move:
    an illegal pair is refused by the lookup of lines 160-168, a legal one
    by the guard of line 214, which is reached whenever the timeout of
    lines 179-212 has not ended the session first.  Only the debit of the
    move cost is kept; the session and its records are unchanged. *)
Theorem repeated_move_rejected now rand gameId from to playerId player game
    savedBoard (db : DB) :
  Cleared db gameId playerId player game ->
  Loaded game savedBoard ->
  repeated db gameId playerId from to = true ->
  submitted savedBoard from to = None \/ stale now db gameId playerId = false ->
  executeMove now rand gameId from to playerId db
  = (storePlayer db (debit player), Throw (MoveError NOT_VALID_MOVE))
  /\ lookupGame (storePlayer db (debit player)) gameId = Some game
  /\ moves_table (storePlayer db (debit player)) = moves_table db.
Proof.
  intros Hadm Hload Hrep Hor. split; [|split].
  - rewrite (executeMove_run _ _ _ _ _ _ _ _ _ Hadm).
    rewrite (validateMove_run _ _ _ _ _ _ _ _ _ _ Hload).
    destruct (submitted savedBoard from to) as [m|]; [|reflexivity].
    destruct Hor as [Hor|Hor]; [discriminate|].
    unfold stale, repeated in *.
    rewrite latestMove_storePlayer, Hor, Hrep. reflexivity.
  - rewrite lookupGame_storePlayer. apply Hadm.
  - reflexivity.
Qed.

End Checks.

(** ** Positions and the AI selector *)

Section Selector.

Context {R : Runtime}.

(** C4, as the code has it: at the difficulties [EASY] and [HARD] the
    selector hands back the move of the engine's computer, so it stays within
    the legal moves as the computers do, and it yields nothing only when no
    move is legal; at the difficulty [ABSENT] it yields nothing at all. *)
Theorem chooseAIMove_within_legal rand draughts difficulty :
  (forall r d m, randomComputer r d = Some m -> In m (draughts_moves d)) ->
  (forall k d m, alphaBetaComputer k d = Some m -> In m (draughts_moves d)) ->
  (forall r d, draughts_moves d <> [] -> randomComputer r d <> None) ->
  (forall k d, draughts_moves d <> [] -> alphaBetaComputer k d <> None) ->
  (forall m, chooseAIMove rand draughts difficulty = Some m ->
             In m (draughts_moves draughts))
  /\ (chooseAIMove rand draughts difficulty = None <->
      draughts_moves draughts = [] \/ difficulty = ABSENT).
Proof.
  intros Hr Ha Tr Ta. unfold chooseAIMove.
  destruct (draughts_moves draughts) as [|m0 rest] eqn:E.
  - split; [discriminate|]. split; auto.
  - assert (N : draughts_moves draughts <> []) by (rewrite E; discriminate).
    destruct difficulty.
    + split; [discriminate|]. split; auto.
    + split.
      * intros m H. rewrite <- E. eapply Hr, H.
      * split.
        -- intros H. exfalso. exact (Tr rand draughts N H).
        -- intros [H|H]; discriminate.
    + split.
      * intros m H. rewrite <- E. eapply Ha, H.
      * split.
        -- intros H. exfalso. exact (Ta 5 draughts N H).
        -- intros [H|H]; discriminate.
Qed.

End Selector.

Example convertPosition_A7 : convertPosition "A7" = Some 8.
Proof. reflexivity. Qed.

Example convertPositionBack_63 : convertPositionBack 63 = "H1".
Proof. reflexivity. Qed.

Example convertPosition_empty : convertPosition "" = None.
Proof. reflexivity. Qed.

Lemma ascii_in_range (c : ascii) (lo hi : Z) :
  lo <= Z.of_N (N_of_ascii c) <= hi -> 0 <= lo ->
  exists k : nat, (k <= Z.to_nat (hi - lo))%nat
                  /\ c = ascii_of_N (Z.to_N lo + N.of_nat k).
Proof.
  intros H L. exists (Z.to_nat (Z.of_N (N_of_ascii c) - lo)). split.
  - lia.
  - rewrite <- (ascii_N_embedding c) at 1. f_equal. lia.
Qed.

(** C9: on the 64 squares the two conversions are inverse of each other: an
    algebraic position (file A-H, rank 1-8) goes to an index between 0 and 63
    and comes back, and an index between 0 and 63 goes to an algebraic
    position and comes back. *)
Theorem convertPosition_inverse (position : string) (index : Z) :
  isAlgebraic position = true ->
  0 <= index <= 63 ->
  (exists i, convertPosition position = Some i
             /\ 0 <= i <= 63
             /\ convertPositionBack i = position)
  /\ isAlgebraic (convertPositionBack index) = true
  /\ convertPosition (convertPositionBack index) = Some index.
Proof.
  intros Hp Hi. split.
  - destruct position as [|f [|r [|? ?]]]; try discriminate Hp.
    unfold isAlgebraic in Hp.
    apply andb_prop in Hp. destruct Hp as [Hp Hr2].
    apply andb_prop in Hp. destruct Hp as [Hp Hr1].
    apply andb_prop in Hp. destruct Hp as [Hf1 Hf2].
    apply Z.leb_le in Hf1, Hf2, Hr1, Hr2.
    destruct (ascii_in_range f 65 72 (conj Hf1 Hf2)) as (kf & Bf & Ef); [lia|].
    destruct (ascii_in_range r 49 56 (conj Hr1 Hr2)) as (kr & Br & Er); [lia|].
    subst f r. change (Z.to_nat (72 - 65)) with 7%nat in Bf.
    change (Z.to_nat (56 - 49)) with 7%nat in Br.
    assert (Hf : In kf (seq 0 8)) by (apply in_seq; lia).
    assert (Hr : In kr (seq 0 8)) by (apply in_seq; lia).
    clear - Hf Hr. simpl in Hf, Hr.
    repeat (destruct Hf as [Hf|Hf]; [subst kf|]); try contradiction;
      repeat (destruct Hr as [Hr|Hr]; [subst kr|]); try contradiction;
      (eexists; split; [reflexivity|split; [split; discriminate|reflexivity]]).
  - assert (E : index = Z.of_nat (Z.to_nat index)) by lia.
    assert (B : (Z.to_nat index < 64)%nat) by lia.
    rewrite E. generalize dependent (Z.to_nat index). clear.
    intros n _ B.
    do 64 (destruct n as [|n]; [split; reflexivity|]). lia.
Qed.

(** ** The economy: balances and scores *)

Section Economy.

Context {R : Runtime}.

Lemma tokensOf_storeGame (db : DB) g q :
  tokensOf (storeGame db g) q = tokensOf db q.
Proof. reflexivity. Qed.

Lemma tokensOf_insertMove (db : DB) m q :
  tokensOf (insertMove db m) q = tokensOf db q.
Proof. reflexivity. Qed.

(** Saving a changed score leaves every balance as it is. *)
Lemma tokensOf_set_score (db : DB) p s q :
  lookupPlayer db (Player.player_id p) = Some p ->
  tokensOf (storePlayer db (Player.set_score p s)) q = tokensOf db q.
Proof.
  intros H. unfold tokensOf. rewrite lookupPlayer_storePlayer.
  cbn [Player.set_score Player.player_id].
  destruct (Z.eqb_spec (Player.player_id p) q) as [E|E]; [|reflexivity].
  subst q. rewrite H. reflexivity.
Qed.

Lemma found_is_keyed (db : DB) id p :
  lookupPlayer db id = Some p -> lookupPlayer db (Player.player_id p) = Some p.
Proof. intros H. now rewrite (lookupPlayer_key _ _ _ H). Qed.

Lemma tokensOf_timeoutState now game playerId (db : DB) q :
  tokensOf (timeoutState now game playerId db) q = tokensOf db q.
Proof.
  unfold timeoutState. cbv zeta.
  destruct (lookupPlayer _ playerId) as [p|] eqn:E; [|reflexivity].
  rewrite tokensOf_set_score; [reflexivity|].
  exact (found_is_keyed _ _ _ E).
Qed.

Lemma tokensOf_finalState now draughts game (db : DB) q :
  tokensOf (finalState now draughts game db) q = tokensOf db q.
Proof.
  unfold finalState. cbv zeta.
  destruct (fst (resolveWinner _ _)) as [id|]; [|reflexivity].
  destruct (lookupPlayer _ id) as [p|] eqn:E; [|reflexivity].
  rewrite tokensOf_set_score; [reflexivity|].
  exact (found_is_keyed _ _ _ E).
Qed.

Lemma tokensOf_saved (db : DB) id p q :
  lookupPlayer db id = Some p -> Player.player_id q = id ->
  tokensOf (storePlayer db q) id = Some (Player.tokens q).
Proof.
  intros H E. unfold tokensOf.
  now rewrite (lookupPlayer_saved _ _ _ _ H E).
Qed.

Lemma tokensOf_playerState now game gameId from to playerId savedBoard origin'
    draughts (db : DB) q :
  tokensOf (playerState now game gameId from to playerId savedBoard origin'
              draughts db) q
  = tokensOf db q.
Proof. reflexivity. Qed.

Lemma tokensOf_aiState now game player gameId savedBoard draughts aiMove
    (db : DB) p :
  lookupPlayer db (Player.player_id player) = Some p ->
  tokensOf (aiState now game player gameId savedBoard draughts aiMove db)
           (Player.player_id player)
  = Some (num_sub (Player.tokens player) MOVE_COST).
Proof.
  intros H. unfold aiState. rewrite tokensOf_insertMove.
  apply tokensOf_saved with (p := p); [|reflexivity].
  rewrite lookupPlayer_storeGame. exact H.
Qed.

(** The stored board of a game loads in one way. *)
Lemma Loaded_unique game savedBoard savedBoard' :
  Loaded game savedBoard -> Loaded game savedBoard' -> savedBoard = savedBoard'.
Proof. intros (sd & H1 & H2) (sd' & H1' & H2'). congruence. Qed.

(** C2, as the code has it: once the caller and the game have passed the
    checks of lines 104-123, the move cost is taken from the caller's
    balance and saved, whatever the balance is and before the board is read
    or the move looked up.  It is taken a second time exactly when the AI
    answers, that is when the move is accepted in a PvE game, the game is
    not over after it and the AI ends up with a move; in every other case
    the balance ends exactly one move cost lower.  The balance is never
    compared with the cost: after the checks a call fails only for the
    board or for the move, and the one debit is kept even then. *)
Theorem debit_is_unconditional now rand gameId from to playerId player game
    (db : DB) :
  Cleared db gameId playerId player game ->
  let run := executeMove now rand gameId from to playerId db in
  let once := num_sub (Player.tokens player) MOVE_COST in
  let answered :=
    exists savedBoard moveToMake aiMove,
      Accepted now db gameId from to playerId player game savedBoard moveToMake
      /\ isOver (draughts_status (afterMove savedBoard moveToMake)) = false
      /\ Game.type game = PVE
      /\ aiReply rand db gameId game (afterMove savedBoard moveToMake)
         = Some aiMove in
  (answered -> tokensOf (fst run) playerId = Some (num_sub once MOVE_COST))
  /\ (~ answered -> tokensOf (fst run) playerId = Some once)
  /\ (forall e, snd run = Throw e ->
        (e = MoveError FAILED_PARSING \/ e = MoveError NOT_VALID_ARRAY
         \/ e = MoveError NOT_VALID_MOVE)
        /\ tokensOf (fst run) playerId = Some once).
Proof.
  intros Hadm. cbv zeta.
  rewrite (executeMove_run _ _ _ _ _ _ _ _ _ Hadm).
  pose proof (playerId_of_cleared _ _ _ _ _ Hadm) as K.
  pose proof (lookupPlayer_debited _ _ _ _ _ Hadm) as L.
  assert (T0 : tokensOf (storePlayer db (debit player)) playerId
               = Some (num_sub (Player.tokens player) MOVE_COST)).
  { unfold tokensOf. rewrite L. reflexivity. }
  destruct (loadSavedData (Game.board game)) as [sd|] eqn:E1.
  2:{ unfold validateMove. rewrite E1. cbn [fst snd throw].
      split; [|split].
      - intros (sb & m & a & (_ & (sd' & H1 & _) & _) & _). congruence.
      - intros _. exact T0.
      - intros e [= <-]. split; [now left|exact T0]. }
  destruct (saved_board sd) as [sb|] eqn:E2.
  2:{ unfold validateMove. rewrite E1, E2. cbn [fst snd throw].
      split; [|split].
      - intros (sb & m & a & (_ & (sd' & H1 & H2) & _) & _). congruence.
      - intros _. exact T0.
      - intros e [= <-]. split; [right; now left|exact T0]. }
  assert (Hload : Loaded game sb) by (exists sd; split; assumption).
  rewrite (validateMove_run _ _ _ _ _ _ _ _ sb _ Hload).
  assert (Hans :
            (exists savedBoard moveToMake aiMove,
                Accepted now db gameId from to playerId player game savedBoard
                  moveToMake
                /\ isOver (draughts_status (afterMove savedBoard moveToMake))
                   = false
                /\ Game.type game = PVE
                /\ aiReply rand db gameId game (afterMove savedBoard moveToMake)
                   = Some aiMove) ->
            exists m a,
              submitted sb from to = Some m
              /\ stale now db gameId playerId = false
              /\ repeated db gameId playerId from to = false
              /\ isOver (draughts_status (afterMove sb m)) = false
              /\ Game.type game = PVE
              /\ aiReply rand db gameId game (afterMove sb m) = Some a).
  { intros (sb' & m & a & (_ & Hl & Hs & Hst & Hr) & Ho & Ht & Ha).
    rewrite <- (Loaded_unique _ _ _ Hload Hl) in *.
    exists m, a. repeat split; assumption. }
  change (stale now (storePlayer db (debit player)) gameId playerId)
    with (stale now db gameId playerId).
  change (repeated (storePlayer db (debit player)) gameId playerId from to)
    with (repeated db gameId playerId from to).
  destruct (submitted sb from to) as [m|] eqn:Hsub.
  2:{ cbn [fst snd]. split; [|split].
      - intros H. destruct (Hans H) as (m & a & Hs & _). discriminate Hs.
      - intros _. exact T0.
      - intros e [= <-]. split; [right; now right|exact T0]. }
  destruct (stale now db gameId playerId) eqn:Hst.
  { cbn [fst snd]. rewrite tokensOf_timeoutState. split; [|split].
    - intros H. destruct (Hans H) as (m' & a & _ & Hs & _). discriminate Hs.
    - intros _. exact T0.
    - discriminate. }
  destruct (repeated db gameId playerId from to) eqn:Hrep.
  { cbn [fst snd]. split; [|split].
    - intros H. destruct (Hans H) as (m' & a & _ & _ & Hr & _). discriminate Hr.
    - intros _. exact T0.
    - intros e [= <-]. split; [right; now right|exact T0]. }
  rewrite playMove_run. cbv zeta.
  change (draughts_move (setupBoard (flat sb)) m) with (afterMove sb m).
  destruct (isOver (draughts_status (afterMove sb m))) eqn:Ho.
  { cbn [fst snd]. rewrite tokensOf_finalState, tokensOf_playerState.
    split; [|split].
    - intros H. destruct (Hans H) as (m' & a & Hs & _ & _ & Ho' & _).
      injection Hs as <-. congruence.
    - intros _. exact T0.
    - discriminate. }
  destruct (Game.type game) eqn:Ht.
  { cbn [fst snd]. rewrite tokensOf_playerState. split; [|split].
    - intros H. destruct (Hans H) as (m' & a & _ & _ & _ & _ & Ht' & _).
      discriminate Ht'.
    - intros _. exact T0.
    - discriminate. }
  change (aiReply rand (storePlayer db (debit player)) gameId game
            (afterMove sb m))
    with (aiReply rand db gameId game (afterMove sb m)).
  destruct (aiReply rand db gameId game (afterMove sb m)) as [a|] eqn:Ha.
  2:{ cbn [fst snd]. rewrite tokensOf_playerState. split; [|split].
      - intros H. destruct (Hans H) as (m' & a & Hs & _ & _ & _ & _ & Ha').
        injection Hs as <-. congruence.
      - intros _. exact T0.
      - discriminate. }
  rewrite aiHalfMove_run. cbv zeta.
  split; [|split].
  - intros _.
    assert (G : forall g d (db1 : DB),
               lookupPlayer db1 playerId = Some (debit player) ->
               tokensOf (aiState now g (debit player) gameId sb d a db1)
                        playerId
               = Some (num_sub (num_sub (Player.tokens player) MOVE_COST)
                         MOVE_COST)).
    { intros g d db1 H1.
      pose proof (tokensOf_aiState now g (debit player) gameId sb d a db1
                    (debit player)) as V.
      cbn [debit Player.set_tokens Player.player_id Player.tokens] in V.
      rewrite K in V. apply V. exact H1. }
    destruct (isOver (draughts_status (draughts_move (afterMove sb m) a)));
      cbn [fst snd]; rewrite ?tokensOf_finalState; apply G; exact L.
  - intros N. exfalso. apply N. exists sb, m, a.
    split; [|split; [exact Ho|split; [reflexivity|exact Ha]]].
    split; [exact Hadm|]. split; [exact Hload|]. split; [exact Hsub|].
    split; [exact Hst|exact Hrep].
  - intros e.
    destruct (isOver (draughts_status (draughts_move (afterMove sb m) a)));
      discriminate.
Qed.

(** C8: in a PvE round in which the AI answers, the caller's balance goes
    down by the move cost twice, once for the caller's half-move and once
    for the AI's, whether or not the AI's move ends the game. *)
Theorem pve_round_debits_twice now rand gameId from to playerId player game
    savedBoard moveToMake aiMove (db : DB) :
  Accepted now db gameId from to playerId player game savedBoard moveToMake ->
  Game.type game = PVE ->
  isOver (draughts_status (afterMove savedBoard moveToMake)) = false ->
  aiReply rand db gameId game (afterMove savedBoard moveToMake) = Some aiMove ->
  tokensOf (fst (executeMove now rand gameId from to playerId db)) playerId
  = Some (num_sub (num_sub (Player.tokens player) MOVE_COST) MOVE_COST).
Proof.
  intros (Hadm & Hload & Hsub & Hstale & Hrep) Hpve Hover Hai.
  rewrite (executeMove_run _ _ _ _ _ _ _ _ _ Hadm).
  rewrite (validateMove_run _ _ _ _ _ _ _ _ _ _ Hload), Hsub.
  unfold stale, repeated in *. rewrite latestMove_storePlayer, Hstale, Hrep.
  rewrite playMove_run. cbv zeta. unfold afterMove in *.
  rewrite Hover, Hpve.
  unfold aiReply in *. rewrite latestMove_storePlayer, Hai.
  rewrite aiHalfMove_run. cbv zeta.
  pose proof (playerId_of_cleared _ _ _ _ _ Hadm) as K.
  pose proof (lookupPlayer_debited _ _ _ _ _ Hadm) as L.
  assert (G : forall g d a (db1 : DB),
             lookupPlayer db1 playerId = Some (debit player) ->
             tokensOf (aiState now g (debit player) gameId savedBoard d a db1)
                      playerId
             = Some (num_sub (num_sub (Player.tokens player) MOVE_COST) MOVE_COST)).
  { intros g d a db1 H1.
    pose proof (tokensOf_aiState now g (debit player) gameId savedBoard d a db1
                  (debit player)) as V.
    cbn [debit Player.set_tokens Player.player_id Player.tokens] in V.
    rewrite K in V. apply V. exact H1. }
  clear Hover.
  destruct (isOver _); cbn [fst snd]; rewrite ?tokensOf_finalState;
    apply G; exact L.
Qed.

End Economy.

(** ** The end of a game and the AI's answer *)

Section Rounds.

Context {R : Runtime}.


Lemma scoreOf_insertMove (db : DB) m q :
  scoreOf (insertMove db m) q = scoreOf db q.
Proof. reflexivity. Qed.

(** A debit leaves every score as it is. *)
Lemma scoreOf_debit (db : DB) p q :
  lookupPlayer db (Player.player_id p) = Some p ->
  scoreOf (storePlayer db (debit p)) q = scoreOf db q.
Proof.
  intros H. unfold scoreOf. rewrite lookupPlayer_storePlayer.
  cbn [debit Player.set_tokens Player.player_id].
  destruct (Z.eqb_spec (Player.player_id p) q) as [E|E]; [|reflexivity].
  subst q. rewrite H. reflexivity.
Qed.

(** [handleGameOver] gives one point to the winner's row and to no other. *)
Lemma scoreOf_finalState now draughts game (db : DB) q :
  scoreOf (finalState now draughts game db) q
  = if option_Z_eqb (fst (resolveWinner (draughts_status draughts) game)) (Some q)
    then option_map (fun s => num_add s one_point) (scoreOf db q)
    else scoreOf db q.
Proof.
  unfold finalState. cbv zeta.
  destruct (fst (resolveWinner _ _)) as [id|]; [|reflexivity].
  cbn [option_Z_eqb]. unfold scoreOf.
  destruct (lookupPlayer (storeGame db _) id) as [w|] eqn:E.
  - rewrite lookupPlayer_storePlayer. cbn [Player.set_score Player.player_id].
    rewrite lookupPlayer_storeGame in *.
    rewrite (lookupPlayer_key _ _ _ E).
    destruct (Z.eqb_spec id q) as [<-|N]; [|reflexivity].
    rewrite E. reflexivity.
  - rewrite lookupPlayer_storeGame in *.
    destruct (Z.eqb_spec id q) as [<-|N]; [|reflexivity].
    rewrite E. reflexivity.
Qed.

Lemma lookupGame_finalState now draughts game (db : DB) id :
  lookupGame (finalState now draughts game db) id
  = lookupGame
      (storeGame db
         (Game.set_outcome game COMPLETED now
            (fst (resolveWinner (draughts_status draughts) game)))) id.
Proof.
  unfold finalState. cbv zeta.
  destruct (fst (resolveWinner _ _)) as [w|]; [|reflexivity].
  destruct (lookupPlayer _ w); reflexivity.
Qed.

Lemma moves_table_finalState now draughts game (db : DB) :
  moves_table (finalState now draughts game db) = moves_table db.
Proof.
  unfold finalState. cbv zeta.
  destruct (fst (resolveWinner _ _)) as [w|]; [|reflexivity].
  destruct (lookupPlayer _ w); reflexivity.
Qed.

(** A status other than [PLAYING] ends the game (lines 242 and 306). *)
Lemma isOver_not_playing s : s <> PLAYING -> isOver s = true.
Proof. destruct s; [contradiction|reflexivity..]. Qed.


(** The same finalisation when it is the AI's answer that ends the game: the
    winner is again read off the status and the row of the game. *)
Lemma ai_move_finalises now rand gameId from to playerId player game
    savedBoard moveToMake aiMove (db : DB) :
  Accepted now db gameId from to playerId player game savedBoard moveToMake ->
  Game.type game = PVE ->
  isOver (draughts_status (afterMove savedBoard moveToMake)) = false ->
  aiReply rand db gameId game (afterMove savedBoard moveToMake) = Some aiMove ->
  draughts_status (draughts_move (afterMove savedBoard moveToMake) aiMove)
  <> PLAYING ->
  let run := executeMove now rand gameId from to playerId db in
  exists game',
    lookupGame (fst run) gameId = Some game'
    /\ Game.status game' = COMPLETED
    /\ Game.ended_at game' = Some now
    /\ Game.winner_id game'
       = match draughts_status
                 (draughts_move (afterMove savedBoard moveToMake) aiMove) with
         | LIGHT_WON => Some (Game.player_id game)
         | DARK_WON => Some AI_SENTINEL
         | _ => None
         end
    /\ Game.total_moves game' = Game.total_moves game + 2.
Proof.
  intros (Hadm & Hload & Hsub & Hstale & Hrep) Hpve Hover Hai Hover2. cbv zeta.
  rewrite (executeMove_run _ _ _ _ _ _ _ _ _ Hadm).
  rewrite (validateMove_run _ _ _ _ _ _ _ _ _ _ Hload), Hsub.
  unfold stale, repeated in *. rewrite latestMove_storePlayer, Hstale, Hrep.
  rewrite playMove_run. cbv zeta. unfold afterMove in *. rewrite Hover, Hpve.
  unfold aiReply in *. rewrite latestMove_storePlayer, Hai.
  rewrite aiHalfMove_run. cbv zeta. rewrite (isOver_not_playing _ Hover2).
  cbn [fst].
  pose proof (gameId_of_cleared _ _ _ _ _ Hadm) as K.
  eexists. split.
  - rewrite lookupGame_finalState.
    eapply lookupGame_saved; [|exact K].
    unfold aiState. rewrite lookupGame_insertMove, lookupGame_storePlayer.
    eapply lookupGame_saved; [|exact K].
    unfold playerState. rewrite lookupGame_insertMove.
    eapply lookupGame_saved; [|exact K].
    rewrite lookupGame_storePlayer. apply Hadm.
  - split; [reflexivity|]. split; [reflexivity|]. split.
    + unfold resolveWinner.
      cbn [Game.set_outcome Game.winner_id gameAfter Game.set_board_moves
             Game.player_id Game.type].
      rewrite Hpve.
      destruct (draughts_status
                  (draughts_move
                     (draughts_move (setupBoard (flat savedBoard)) moveToMake)
                     aiMove)); reflexivity.
    + cbn. lia.
Qed.

Lemma convertPosition_truthy s i : convertPosition s = Some i -> truthy s = true.
Proof. destruct s; [discriminate|reflexivity]. Qed.

(** C7: in a PvE round that goes on after the caller's move, when the move
    the selector has chosen is the move of the AI's last record and other
    legal moves exist, the AI plays the first of them: it is a legal move,
    it differs from the chosen one, it does not depend on the random source
    once the choice is given, and it is played and recorded as the AI's
    half-move. *)
Theorem repeated_ai_move_substituted now rand gameId from to playerId player
    game savedBoard moveToMake last chosen first rest (db : DB) :
  Accepted now db gameId from to playerId player game savedBoard moveToMake ->
  Game.type game = PVE ->
  isOver (draughts_status (afterMove savedBoard moveToMake)) = false ->
  chooseAIMove rand (afterMove savedBoard moveToMake) (Game.ai_difficulty game)
  = Some chosen ->
  latestMove db gameId None = Some last ->
  convertPosition (Move.from_position last) = Some (origin chosen) ->
  convertPosition (Move.to_position last) = Some (destination chosen) ->
  otherMoves (afterMove savedBoard moveToMake) chosen = first :: rest ->
  let run := executeMove now rand gameId from to playerId db in
  let played := draughts_move (afterMove savedBoard moveToMake) first in
  aiReply rand db gameId game (afterMove savedBoard moveToMake) = Some first
  /\ In first (draughts_moves (afterMove savedBoard moveToMake))
  /\ (origin first <> origin chosen \/ destination first <> destination chosen)
  /\ (exists mine reply,
         moves_table (fst run) = (moves_table db ++ [mine; reply])%list
         /\ Move.user_id mine = Some playerId
         /\ Move.user_id reply = None
         /\ Move.from_position reply = convertPositionBack (origin first)
         /\ Move.to_position reply = convertPositionBack (destination first)
         /\ Move.board reply = {| saved_board := Some (draughts_board played) |}
         /\ Move.move_number reply = Game.total_moves game + 2)
  /\ (exists game',
         lookupGame (fst run) gameId = Some game'
         /\ Game.total_moves game' = Game.total_moves game + 2
         /\ Game.board game'
            = BoardValue {| saved_board := Some (draughts_board played) |}).
Proof.
  intros (Hadm & Hload & Hsub & Hstale & Hrep) Hpve Hover Hch Hlast Hfrom Hto
    Hother run played.
  assert (Hai : aiReply rand db gameId game (afterMove savedBoard moveToMake)
                = Some first).
  { unfold aiReply, avoidRepetition. rewrite Hch, Hlast, Hfrom, Hto.
    rewrite (convertPosition_truthy _ _ Hfrom), (convertPosition_truthy _ _ Hto).
    cbn [strictEq andb]. rewrite !Z.eqb_refl. cbn [andb].
    rewrite Hother. reflexivity. }
  assert (Hin : In first (otherMoves (afterMove savedBoard moveToMake) chosen))
    by (rewrite Hother; now left).
  unfold otherMoves in Hin. apply filter_In in Hin. destruct Hin as [Hin Hdiff].
  split; [exact Hai|]. split; [exact Hin|]. split.
  { apply orb_prop in Hdiff.
    destruct Hdiff as [H|H]; apply negb_true_iff, Z.eqb_neq in H; auto. }
  subst run played.
  rewrite (executeMove_run _ _ _ _ _ _ _ _ _ Hadm).
  rewrite (validateMove_run _ _ _ _ _ _ _ _ _ _ Hload), Hsub.
  unfold stale, repeated in *. rewrite latestMove_storePlayer, Hstale, Hrep.
  rewrite playMove_run. cbv zeta. unfold afterMove in *. rewrite Hover, Hpve.
  unfold aiReply in *. rewrite latestMove_storePlayer, Hai.
  rewrite aiHalfMove_run. cbv zeta.
  pose proof (gameId_of_cleared _ _ _ _ _ Hadm) as K.
  clear Hover Hch Hai Hother Hin Hdiff.
  assert (G : lookupGame
                (aiState now
                   (gameAfter game
                      (draughts_move (setupBoard (flat savedBoard)) moveToMake))
                   (debit player) gameId savedBoard
                   (draughts_move
                      (draughts_move (setupBoard (flat savedBoard)) moveToMake) first)
                   first
                   (playerState now game gameId from to playerId savedBoard
                      (convertPosition from)
                      (draughts_move (setupBoard (flat savedBoard)) moveToMake)
                      (storePlayer db (debit player)))) gameId
              = Some (gameAfter
                        (gameAfter game
                           (draughts_move (setupBoard (flat savedBoard)) moveToMake))
                        (draughts_move
                           (draughts_move (setupBoard (flat savedBoard)) moveToMake)
                           first))).
  { unfold aiState. rewrite lookupGame_insertMove, lookupGame_storePlayer.
    apply lookupGame_saved with (g := gameAfter game
             (draughts_move (setupBoard (flat savedBoard)) moveToMake));
      [|exact K].
    unfold playerState. rewrite lookupGame_insertMove.
    apply lookupGame_saved with (g := game); [|exact K].
    rewrite lookupGame_storePlayer. apply Hadm. }
  destruct (isOver _); cbn [fst snd].
  - split.
    + do 2 eexists. split.
      * rewrite moves_table_finalState. unfold aiState, playerState.
        rewrite !moves_table_insertMove, moves_table_storePlayer,
          moves_table_storeGame, moves_table_insertMove.
        rewrite <- app_assoc. reflexivity.
      * repeat split. cbn. lia.
    + eexists. split.
      * rewrite lookupGame_finalState.
        eapply lookupGame_saved; [exact G|exact K].
      * split; [cbn; lia|reflexivity].
  - split.
    + do 2 eexists. split.
      * unfold aiState, playerState.
        rewrite !moves_table_insertMove, moves_table_storePlayer,
          moves_table_storeGame, moves_table_insertMove.
        rewrite <- app_assoc. reflexivity.
      * repeat split. cbn. lia.
    + eexists. split; [exact G|]. split; [cbn; lia|reflexivity].
Qed.

End Rounds.

(** ** The move counter and the records *)

Section Records.

Context {R : Runtime}.

Lemma lookupGame_timeoutState now game playerId (db : DB) id :
  lookupGame (timeoutState now game playerId db) id
  = lookupGame
      (storeGame db (Game.set_outcome game TIMED_OUT now
                       (timeoutWinner game playerId))) id.
Proof.
  unfold timeoutState. cbv zeta. destruct (lookupPlayer _ playerId); reflexivity.
Qed.

Lemma moves_table_timeoutState now game playerId (db : DB) :
  moves_table (timeoutState now game playerId db) = moves_table db.
Proof.
  unfold timeoutState. cbv zeta. destruct (lookupPlayer _ playerId); reflexivity.
Qed.

Lemma upto_snoc n : 0 <= n -> upto (n + 1) = (upto n ++ [n + 1])%list.
Proof.
  intros H. unfold upto.
  replace (Z.to_nat (n + 1)) with (Z.to_nat n + 1)%nat by lia.
  rewrite seq_app, map_app. simpl. f_equal. f_equal. lia.
Qed.

Lemma upto_extend n k :
  0 <= n ->
  upto (n + Z.of_nat k)
  = (upto n ++ map (fun i => n + Z.of_nat i) (seq 1 k))%list.
Proof.
  intros H. unfold upto.
  replace (Z.to_nat (n + Z.of_nat k)) with (Z.to_nat n + k)%nat by lia.
  rewrite seq_app, map_app. f_equal.
  replace (1 + Z.to_nat n)%nat with (Z.to_nat n + 1)%nat by lia.
  generalize 1%nat as s. induction k as [|k IH]; intros s; [reflexivity|].
  simpl. f_equal; [lia|].
  replace (S (Z.to_nat n + s)) with (Z.to_nat n + S s)%nat by lia. apply IH.
Qed.

Lemma upto_increasing_from (s k : nat) :
  StronglySorted Z.lt (map Z.of_nat (seq s k)).
Proof.
  revert s. induction k as [|k IH]; intros s; simpl; constructor.
  - apply IH.
  - apply Forall_forall. intros x Hx. apply in_map_iff in Hx.
    destruct Hx as (i & <- & Hi). apply in_seq in Hi. lia.
Qed.

Lemma filter_all {A} (f : A -> bool) (l : list A) :
  Forall (fun x => f x = true) l -> filter f l = l.
Proof.
  induction 1 as [|x l H _ IH]; simpl; [reflexivity|]. now rewrite H, IH.
Qed.

Lemma filter_none {A} (f : A -> bool) (l : list A) :
  Forall (fun x => f x = false) l -> filter f l = [].
Proof.
  induction 1 as [|x l H _ IH]; simpl; [reflexivity|]. now rewrite H.
Qed.

(** The numbering of the records is kept by whatever a call commits. *)
Lemma Sequenced_commits gameId (db db' : DB) new :
  Commits gameId db db' new -> Sequenced db -> Sequenced db'.
Proof.
  intros (Hm & Hall & Hother & Hnone & Hsome) Hseq id g' Hg'.
  unfold numbers. rewrite Hm, filter_app, map_app. fold (numbers db id).
  destruct (Z.eq_dec id gameId) as [->|N].
  - destruct (lookupGame db gameId) as [g|] eqn:E.
    + destruct (Hsome g eq_refl) as (g2 & H2 & Ht & Hn).
      rewrite Hg' in H2. injection H2 as <-.
      destruct (Hseq gameId g E) as [Hpos Hnum].
      split; [lia|].
      rewrite Hnum, Ht, filter_all, Hn; [symmetry; now apply upto_extend|].
      eapply Forall_impl; [|exact Hall]. intros m Hmid. now apply Z.eqb_eq.
    + destruct (Hnone eq_refl) as [H2 _]. congruence.
  - rewrite (Hother id N) in Hg'. destruct (Hseq id g' Hg') as [Hpos Hnum].
    split; [exact Hpos|].
    rewrite filter_none; [now rewrite app_nil_r|].
    eapply Forall_impl; [|exact Hall]. intros m Hmid. apply Z.eqb_neq. congruence.
Qed.

(** A step that appends nothing and keeps the counters. *)
Lemma Commits_silent gameId (db db' : DB) :
  moves_table db' = moves_table db ->
  (forall id, id <> gameId -> lookupGame db' id = lookupGame db id) ->
  (lookupGame db gameId = None -> lookupGame db' gameId = None) ->
  (forall game, lookupGame db gameId = Some game ->
     exists game', lookupGame db' gameId = Some game'
                   /\ Game.total_moves game' = Game.total_moves game) ->
  Commits gameId db db' [].
Proof.
  intros Hm Ho Hn Hs. unfold Commits. rewrite app_nil_r.
  split; [exact Hm|]. split; [constructor|]. split; [exact Ho|]. split.
  - intros H. split; [now apply Hn|reflexivity].
  - intros g Hg. destruct (Hs g Hg) as (g' & H1 & H2).
    exists g'. split; [exact H1|]. split; [simpl; lia|reflexivity].
Qed.

Lemma Commits_same gameId (db db' : DB) :
  moves_table db' = moves_table db ->
  (forall id, lookupGame db' id = lookupGame db id) ->
  Commits gameId db db' [].
Proof.
  intros Hm Hg. apply Commits_silent; [exact Hm|auto| |].
  - intros H. now rewrite Hg.
  - intros g H. exists g. now rewrite Hg.
Qed.

Ltac games :=
  unfold aiState, playerState;
  rewrite ?lookupGame_finalState, ?lookupGame_timeoutState;
  repeat (rewrite ?lookupGame_insertMove, ?lookupGame_storePlayer,
            ?lookupGame_storeGame);
  cbn [Game.game_id Game.set_outcome Game.set_board_moves gameAfter
       Game.total_moves].

Ltac records :=
  unfold aiState, playerState;
  rewrite ?moves_table_finalState, ?moves_table_timeoutState;
  repeat (rewrite ?moves_table_insertMove, ?moves_table_storePlayer,
            ?moves_table_storeGame).

(** The player's half-move alone, then possibly the end of the game. *)
Lemma Commits_one now gameId from to playerId savedBoard origin' d1 player game
    (db dbf : DB) outcome :
  lookupGame db gameId = Some game ->
  Game.game_id game = gameId ->
  let db1 := playerState now game gameId from to playerId savedBoard origin' d1
               (storePlayer db player) in
  dbf = db1 \/ dbf = finalState now d1 (gameAfter game d1) db1 ->
  outcome = dbf ->
  exists new, Commits gameId db outcome new /\ List.length new = 1%nat.
Proof.
  intros Hg K db1 Hf ->. subst db1.
  exists [recordOf now (Game.total_moves game + 1) gameId (Some playerId)
            from to (pieceKind savedBoard origin') d1].
  split; [|reflexivity].
  unfold Commits. split; [|split; [|split; [|split]]].
  - destruct Hf as [->| ->]; records; reflexivity.
  - repeat constructor.
  - intros id N. destruct Hf as [->| ->]; games; rewrite K;
      destruct (Z.eqb_spec gameId id); congruence.
  - intros H. congruence.
  - intros g Hg'. rewrite Hg in Hg'. injection Hg' as <-.
    destruct Hf as [->| ->]; games; rewrite K, Z.eqb_refl, ?Hg;
      eexists; (split; [reflexivity|]);
      (split; [cbn; lia|cbn; repeat (apply f_equal2; [lia|]); reflexivity]).
Qed.

(** Both half-moves, then possibly the end of the game. *)
Lemma Commits_two now gameId from to playerId savedBoard origin' d1 d2 aiMove
    player player' game (db dbf : DB) outcome :
  lookupGame db gameId = Some game ->
  Game.game_id game = gameId ->
  let db1 := playerState now game gameId from to playerId savedBoard origin' d1
               (storePlayer db player) in
  let db2 := aiState now (gameAfter game d1) player' gameId savedBoard d2 aiMove
               db1 in
  dbf = db2 \/ dbf = finalState now d2 (gameAfter (gameAfter game d1) d2) db2 ->
  outcome = dbf ->
  exists new, Commits gameId db outcome new /\ List.length new = 2%nat.
Proof.
  intros Hg K db1 db2 Hf ->. subst db1 db2.
  exists [recordOf now (Game.total_moves game + 1) gameId (Some playerId)
            from to (pieceKind savedBoard origin') d1;
          recordOf now (Game.total_moves (gameAfter game d1) + 1) gameId None
            (convertPositionBack (origin aiMove))
            (convertPositionBack (destination aiMove))
            (pieceKind savedBoard (Some (origin aiMove))) d2].
  split; [|reflexivity].
  unfold Commits. split; [|split; [|split; [|split]]].
  - destruct Hf as [->| ->]; records; rewrite <- app_assoc; reflexivity.
  - repeat constructor.
  - intros id N. destruct Hf as [->| ->]; games; rewrite K;
      destruct (Z.eqb_spec gameId id); congruence.
  - intros H. congruence.
  - intros g Hg'. rewrite Hg in Hg'. injection Hg' as <-.
    destruct Hf as [->| ->]; games; rewrite K, Z.eqb_refl, ?Hg;
      eexists; (split; [reflexivity|]);
      (split; [cbn; lia|cbn; repeat (apply f_equal2; [lia|]); reflexivity]).
Qed.

(** Every call commits no record, one or two, and none when it throws. *)
Lemma executeMove_commits now rand gameId from to playerId (db : DB) :
  let run := executeMove now rand gameId from to playerId db in
  exists new,
    Commits gameId db (fst run) new
    /\ (List.length new <= 2)%nat
    /\ (forall e, snd run = Throw e -> new = []).
Proof.
  intros run. subst run.
  pose (Good := fun r : DB * Outcome MoveResult =>
          exists new, Commits gameId db (fst r) new
                      /\ (List.length new <= 2)%nat
                      /\ (forall e, snd r = Throw e -> new = [])).
  change (Good (executeMove now rand gameId from to playerId db)).
  assert (Z0 : forall o, Good (db, o)).
  { intros o. exists []. split; [now apply Commits_same|]. split; [simpl; lia|auto]. }
  destruct (lookupPlayer db playerId) as [player|] eqn:Hp.
  2:{ unfold executeMove, bind, Player_findByPk. rewrite Hp. apply Z0. }
  destruct (lookupGame db gameId) as [game|] eqn:Hg.
  2:{ unfold executeMove, bind, Player_findByPk, Game_findByPk.
      rewrite Hp, Hg. apply Z0. }
  destruct (isOngoing (Game.status game)) eqn:Hs.
  2:{ unfold executeMove, bind, Player_findByPk, Game_findByPk.
      rewrite Hp, Hg, Hs. apply Z0. }
  destruct (isParticipant game playerId) eqn:Ha.
  2:{ unfold executeMove, bind, Player_findByPk, Game_findByPk.
      rewrite Hp, Hg, Hs, Ha. apply Z0. }
  assert (Hadm : Cleared db gameId playerId player game).
  { repeat split; try assumption. now destruct (Game.status game). }
  pose proof (gameId_of_cleared _ _ _ _ _ Hadm) as K.
  rewrite (executeMove_run _ _ _ _ _ _ _ _ _ Hadm).
  assert (Z1 : forall o, Good (storePlayer db (debit player), o)).
  { intros o. exists []. split; [now apply Commits_same|]. split; [simpl; lia|auto]. }
  destruct (loadSavedData (Game.board game)) as [sd|] eqn:E1.
  2:{ unfold validateMove. rewrite E1. apply Z1. }
  destruct (saved_board sd) as [sb|] eqn:E2.
  2:{ unfold validateMove. rewrite E1, E2. apply Z1. }
  rewrite (validateMove_run _ _ _ _ _ _ _ _ sb);
    [|exists sd; split; assumption].
  destruct (submitted sb from to) as [m|]; [|apply Z1].
  destruct (stale _ _ _ _).
  { exists []. cbn [fst snd]. split; [|split; [simpl; lia|auto]].
    apply Commits_silent.
    - records. reflexivity.
    - intros id N. games. rewrite K. destruct (Z.eqb_spec gameId id); congruence.
    - congruence.
    - intros g Hg'. rewrite Hg in Hg'. injection Hg' as <-.
      games. rewrite K, Z.eqb_refl, Hg. eexists. split; reflexivity. }
  destruct (repeated _ _ _ _ _); [apply Z1|].
  rewrite playMove_run. cbv zeta.
  assert (One : forall dbf x,
            dbf = playerState now game gameId from to playerId sb
                    (convertPosition from)
                    (draughts_move (setupBoard (flat sb)) m)
                    (storePlayer db (debit player))
            \/ dbf = finalState now (draughts_move (setupBoard (flat sb)) m)
                       (gameAfter game (draughts_move (setupBoard (flat sb)) m))
                       (playerState now game gameId from to playerId sb
                          (convertPosition from)
                          (draughts_move (setupBoard (flat sb)) m)
                          (storePlayer db (debit player))) ->
            Good (dbf, Return x)).
  { intros dbf x Hf.
    edestruct Commits_one as (new & H1 & H2);
      [exact Hg|exact K|exact Hf|reflexivity|].
    exists new. cbn [fst snd]. split; [exact H1|]. split; [lia|discriminate]. }
  destruct (isOver _); [apply One; now right|].
  destruct (Game.type game); [apply One; now left|].
  destruct (aiReply _ _ _ _ _) as [a|]; [|apply One; now left].
  rewrite aiHalfMove_run. cbv zeta.
  destruct (isOver _).
  - edestruct Commits_two as (new & H1 & H2);
      [exact Hg|exact K|right; reflexivity|reflexivity|].
    exists new. cbn [fst snd]. split; [exact H1|]. split; [lia|discriminate].
  - edestruct Commits_two as (new & H1 & H2);
      [exact Hg|exact K|left; reflexivity|reflexivity|].
    exists new. cbn [fst snd]. split; [exact H1|]. split; [lia|discriminate].
Qed.

Lemma appended_app (db db' : DB) new :
  moves_table db' = (moves_table db ++ new)%list -> appended db db' = new.
Proof.
  intros H. unfold appended. rewrite H.
  rewrite skipn_app, skipn_all, Nat.sub_diag. reflexivity.
Qed.

Lemma upto_length n : 0 <= n -> Z.of_nat (List.length (upto n)) = n.
Proof. intros H. unfold upto. rewrite length_map, length_seq. lia. Qed.

(** C6, as the code has it: records are only appended and the counter of
    the game grows by one for each record of the call; a call that throws
    appends nothing.  When every game counts its records before the call,
    every game still does after it: the numbers of a game are 1, 2, ... up
    to its counter, so they are as many as the counter says, strictly
    increasing and never used twice.  An accepted move makes two records
    when the game goes on, is a PvE game and the AI ends up with a move;
    otherwise (the game is over after the player's move, the game is PvP,
    or the AI has no move left after the selector and the guard against
    repetition) it makes one. *)
Theorem counter_follows_records now rand gameId from to playerId (db : DB) :
  let run := executeMove now rand gameId from to playerId db in
  let new := appended db (fst run) in
  moves_table (fst run) = (moves_table db ++ new)%list
  /\ (forall game,
        lookupGame db gameId = Some game ->
        exists game',
          lookupGame (fst run) gameId = Some game'
          /\ Game.total_moves game'
             = Game.total_moves game + Z.of_nat (List.length new))
  /\ (forall e, snd run = Throw e -> new = [])
  /\ (Sequenced db ->
      Sequenced (fst run)
      /\ forall id game',
           lookupGame (fst run) id = Some game' ->
           Z.of_nat (List.length (numbers (fst run) id)) = Game.total_moves game'
           /\ StronglySorted Z.lt (numbers (fst run) id))
  /\ (forall player game savedBoard moveToMake,
        Accepted now db gameId from to playerId player game savedBoard
          moveToMake ->
        List.length new
        = if isOver (draughts_status (afterMove savedBoard moveToMake)) then 1%nat
          else match Game.type game,
                     aiReply rand db gameId game (afterMove savedBoard moveToMake)
               with
               | PVE, Some _ => 2%nat
               | _, _ => 1%nat
               end).
Proof.
  intros run new.
  destruct (executeMove_commits now rand gameId from to playerId db)
    as (new' & HC & Hlen & Hthrow).
  fold run in HC, Hthrow.
  assert (E : new = new') by (apply appended_app, HC).
  split; [rewrite E; apply HC|]. split; [|split; [|split]].
  - intros game Hg. destruct HC as (_ & _ & _ & _ & Hsome).
    destruct (Hsome game Hg) as (g' & H1 & H2 & _).
    exists g'. rewrite E. auto.
  - intros e He. rewrite E. eauto.
  - intros Hseq. pose proof (Sequenced_commits _ _ _ _ HC Hseq) as Hseq'.
    split; [exact Hseq'|]. intros id g' Hg'.
    destruct (Hseq' id g' Hg') as [Hpos Hnum]. rewrite Hnum. split.
    + now apply upto_length.
    + apply upto_increasing_from.
  - intros player game sb m (Hadm & Hload & Hsub & Hstale & Hrep).
    subst new run. clear HC Hthrow E Hlen new'.
    rewrite (executeMove_run _ _ _ _ _ _ _ _ _ Hadm).
    rewrite (validateMove_run _ _ _ _ _ _ _ _ _ _ Hload), Hsub.
    unfold stale, repeated in *. rewrite latestMove_storePlayer, Hstale, Hrep.
    rewrite playMove_run. cbv zeta. unfold afterMove, aiReply.
    rewrite latestMove_storePlayer.
    assert (One : forall dbf : DB,
              moves_table dbf
              = (moves_table db
                   ++ [recordOf now (Game.total_moves game + 1) gameId
                         (Some playerId) from to
                         (pieceKind sb (convertPosition from))
                         (draughts_move (setupBoard (flat sb)) m)])%list ->
              List.length (appended db dbf) = 1%nat).
    { intros dbf H. now rewrite (appended_app _ _ _ H). }
    destruct (isOver _).
    { cbn [fst]. apply One. records. reflexivity. }
    destruct (Game.type game).
    { cbn [fst]. apply One. records. reflexivity. }
    destruct (avoidRepetition _ _ _) as [a|].
    2:{ cbn [fst]. apply One. records. reflexivity. }
    rewrite aiHalfMove_run. cbv zeta.
    destruct (isOver _); cbn [fst];
      (erewrite appended_app;
       [|records; rewrite <- app_assoc; reflexivity]); reflexivity.
Qed.

End Records.

(** ** The scripted computers stay within the legal moves *)

Lemma scripted_random_legal (r : nat) (e : Scripted.Engine) m :
  Scripted.random r e = Some m -> In m (Scripted.moves e).
Proof. unfold Scripted.random. apply nth_error_In. Qed.

Lemma scripted_alphaBeta_legal (k : Z) (e : Scripted.Engine) m :
  Scripted.alphaBeta k e = Some m -> In m (Scripted.moves e).
Proof.
  unfold Scripted.alphaBeta. destruct (Scripted.moves e); [discriminate|].
  intros [= <-]. now left.
Qed.

Lemma scripted_random_total (r : nat) (e : Scripted.Engine) :
  Scripted.moves e <> [] -> Scripted.random r e <> None.
Proof.
  unfold Scripted.random. intros H N. apply nth_error_None in N.
  assert (List.length (Scripted.moves e) <> 0)%nat
    by (destruct (Scripted.moves e); [congruence|discriminate]).
  pose proof (Nat.mod_upper_bound r (List.length (Scripted.moves e))). lia.
Qed.

Lemma scripted_alphaBeta_total (k : Z) (e : Scripted.Engine) :
  Scripted.moves e <> [] -> Scripted.alphaBeta k e <> None.
Proof.
  unfold Scripted.alphaBeta. destruct (Scripted.moves e); [congruence|discriminate].
Qed.

(** ** The claims on the sample sessions *)

Lemma fresh_is_sequenced : @Sequenced Sample.rt (Sample.fresh Sample.opening).
Proof.
  intros id g H. pose proof (lookupGame_key _ _ _ H) as K.
  apply find_some in H. destruct H as [H _]. cbn in H.
  destruct H as [<-|[<-|[]]]; cbn in K; subst id;
    (split; [cbn; lia|reflexivity]).
Qed.

(** C10 on a sample: caller 7 is no player. *)
Lemma player_lookup_comes_first_witness :
  @executeMove Sample.rt 2000 0%nat 1 "A3" "B4" 7 (Sample.fresh Sample.opening)
  = (Sample.fresh Sample.opening, Throw (JsError "Player not found.")).
Proof.
  apply (proj1 (@player_lookup_comes_first Sample.rt 2000 0%nat 1 "A3" "B4" 7
                  (Sample.fresh Sample.opening))).
  reflexivity.
Defined.

(** C9 on a sample: the square A7 and the index 10. *)
Lemma convertPosition_inverse_witness :
  (exists i, convertPosition "A7" = Some i /\ 0 <= i <= 63
             /\ convertPositionBack i = "A7")
  /\ isAlgebraic (convertPositionBack 10) = true
  /\ convertPosition (convertPositionBack 10) = Some 10.
Proof.
  apply (convertPosition_inverse "A7" 10); [reflexivity|lia].
Defined.

(** C4 on a sample: the hard selector at the opening yields A3-B4, a legal
    move. *)
Lemma chooseAIMove_within_legal_witness :
  @chooseAIMove Sample.rt 0%nat (@Draughts_setup Sample.rt) HARD
  = Some (Sample.step 40 33)
  /\ In (Sample.step 40 33)
        (@draughts_moves Sample.rt (@Draughts_setup Sample.rt)).
Proof.
  split; [reflexivity|].
  apply (proj1 (@chooseAIMove_within_legal Sample.rt 0%nat
                  (@Draughts_setup Sample.rt) HARD
                  scripted_random_legal scripted_alphaBeta_legal
                  scripted_random_total scripted_alphaBeta_total)).
  reflexivity.
Defined.

(** C4 as stated fails at the difficulty [ABSENT]: moves are legal at the
    opening and the selector yields none. *)
Lemma chooseAIMove_absent_yields_nothing :
  @chooseAIMove Sample.rt 0%nat (@Draughts_setup Sample.rt) ABSENT = None
  /\ @draughts_moves Sample.rt (@Draughts_setup Sample.rt) <> [].
Proof. split; [reflexivity|discriminate]. Qed.

(** The samples below are calls on the sessions of [Sample]: [played] at
    time [200000] is 199 seconds after the last records, at time [2000] one
    second after them. *)

Lemma alice_cleared_pvp :
  @Cleared Sample.rt (Sample.played Sample.opening) 1 1 Sample.alice
    (Sample.game 1 1 (Some 2) ONGOING PVP ABSENT 2).
Proof. repeat split. Qed.

Lemma alice_cleared_pve :
  @Cleared Sample.rt (Sample.played Sample.opening) 2 1 Sample.alice
    (Sample.game 2 1 None ONGOING PVE HARD 2).
Proof. repeat split. Qed.

Lemma sample_board_loaded id creator opponent ty difficulty moved :
  @Loaded Sample.rt (Sample.game id creator opponent ONGOING ty difficulty moved)
    Sample.initialBoard.
Proof. eexists. split; reflexivity. Qed.

(** C1 on a sample: player 1 submits the legal C3-D4 in game 1 long after
    the last record; the session times out and player 2 wins. *)
Lemma timeout_follows_validation_witness :
  let run := @executeMove Sample.rt 200000 0%nat 1 "C3" "D4" 1
               (Sample.played Sample.opening) in
  snd run = Return (timeoutNotice 1)
  /\ option_map Game.status (lookupGame (fst run) 1) = Some TIMED_OUT
  /\ option_map Game.winner_id (lookupGame (fst run) 1) = Some (Some 2).
Proof.
  pose proof (@timeout_follows_validation Sample.rt 200000 0%nat 1 "C3" "D4" 1
                Sample.alice (Sample.game 1 1 (Some 2) ONGOING PVP ABSENT 2)
                Sample.initialBoard
                (Sample.record 1 1 (Some 1) "A3" "B4" 1000)
                (Sample.played Sample.opening)
                alice_cleared_pvp (sample_board_loaded _ _ _ _ _ _)
                eq_refl eq_refl) as H.
  cbv zeta in H.
  change (@submitted Sample.rt Sample.initialBoard "C3" "D4")
    with (Some (Sample.step 42 35)) in H.
  destruct H as (H1 & (g & Hg & Hs & Hw & _) & _).
  cbv zeta. split; [exact H1|]. rewrite Hg. cbn [option_map].
  split; [now rewrite Hs|now rewrite Hw].
Defined.

(** C1 as stated fails: long after the last record player 1 submits A1-B2,
    which is not legal; the pair is looked up all the same, the call throws
    [NOT_VALID_MOVE] and the session is still in progress. *)
Lemma timeout_does_not_precede_validation :
  let db := Sample.played Sample.opening in
  let run := @executeMove Sample.rt 200000 0%nat 1 "A1" "B2" 1 db in
  @stale Sample.rt 200000 db 1 1 = true
  /\ snd run = Throw (MoveError NOT_VALID_MOVE)
  /\ option_map Game.status (lookupGame (fst run) 1) = Some ONGOING
  /\ option_map Game.winner_id (lookupGame (fst run) 1) = Some None
  /\ scoreOf (fst run) 1 = scoreOf db 1.
Proof. vm_compute. repeat split. Qed.

(** C5 on a sample: one second after playing A3-B4 player 1 submits it
    again and is refused. *)
Lemma repeated_move_rejected_witness :
  snd (@executeMove Sample.rt 2000 0%nat 1 "A3" "B4" 1
         (Sample.played Sample.opening))
  = Throw (MoveError NOT_VALID_MOVE).
Proof.
  pose proof (@repeated_move_rejected Sample.rt 2000 0%nat 1 "A3" "B4" 1
                Sample.alice (Sample.game 1 1 (Some 2) ONGOING PVP ABSENT 2)
                Sample.initialBoard (Sample.played Sample.opening)
                alice_cleared_pvp (sample_board_loaded _ _ _ _ _ _)
                eq_refl (or_intror eq_refl)) as H.
  destruct H as (H & _). rewrite H. reflexivity.
Defined.

Lemma bob_cleared_fresh :
  @Cleared Sample.rt (Sample.fresh Sample.opening) 1 2 Sample.bob
    (Sample.game 1 1 (Some 2) ONGOING PVP ABSENT 0).
Proof. repeat split. Qed.

Lemma bob_cleared_standard :
  @Cleared (Scripted.runtime Sample.standard) (Sample.fresh Sample.standard)
    1 2 (Sample.player (Scripted.runtime Sample.standard) 2 0%Q 0%Q)
    (Sample.game 1 1 (Some 2) ONGOING PVP ABSENT 0).
Proof. repeat split. Qed.

Lemma alice_cleared_standard :
  @Cleared (Scripted.runtime Sample.standard) (Sample.fresh Sample.standard)
    2 1 (Sample.player (Scripted.runtime Sample.standard) 1 (10 # 1)%Q 0%Q)
    (Sample.game 2 1 None ONGOING PVE HARD 0).
Proof. repeat split. Qed.

(** C2 on a sample, from the opening position: player 2, who has no
    tokens, plays A7-E7 in the PvP game 1 and pays once; player 1 plays
    A7-E7 in the PvE game 2, the AI answers, and player 1 pays twice. *)
Lemma debit_is_unconditional_witness :
  let db := Sample.fresh Sample.standard in
  tokensOf (fst (@executeMove (Scripted.runtime Sample.standard) 2000 0%nat 1
                   "A7" "E7" 2 db)) 2
  = Some (0 - (1 # 50))%Q
  /\ tokensOf (fst (@executeMove (Scripted.runtime Sample.standard) 2000 0%nat
                      2 "A7" "E7" 1 db)) 1
     = Some ((10 # 1) - (1 # 50) - (1 # 50))%Q.
Proof.
  cbv zeta. split.
  - apply (proj1 (proj2 (@debit_is_unconditional
                           (Scripted.runtime Sample.standard) 2000 0%nat 1
                           "A7" "E7" 2 _ _ (Sample.fresh Sample.standard)
                           bob_cleared_standard))).
    intros (sb & m & a & _ & _ & Ht & _). discriminate Ht.
  - apply (proj1 (@debit_is_unconditional
                    (Scripted.runtime Sample.standard) 2000 0%nat 2
                    "A7" "E7" 1 _ _ (Sample.fresh Sample.standard)
                    alice_cleared_standard)).
    exists Sample.initialBoard, (Sample.step 8 12), (Sample.step 20 16).
    split; [|split; [reflexivity|split; reflexivity]].
    split; [exact alice_cleared_standard|].
    split; [eexists; split; reflexivity|]. repeat split.
Defined.

(** C2 as stated fails: player 2 has no tokens, less than the move cost; the
    move A7-E7 is played all the same, the session has changed and the
    balance is below zero. *)
Lemma move_accepted_without_tokens :
  let db := Sample.fresh Sample.standard in
  let run := @executeMove (Scripted.runtime Sample.standard) 2000 0%nat 1
               "A7" "E7" 2 db in
  tokensOf db 2 = Some 0%Q
  /\ (0 < @MOVE_COST (Scripted.runtime Sample.standard))%Q
  /\ snd run = Return (MoveExecuted "Move successfully executed" 1
                         "You moved a single from A7 to E7.")
  /\ option_map Game.total_moves (lookupGame db 1) = Some 0
  /\ option_map Game.total_moves (lookupGame (fst run) 1) = Some 1
  /\ tokensOf (fst run) 2 = Some (-1 # 50)%Q.
Proof. vm_compute. repeat split. Qed.

Lemma alice_accepted_pve (from to : string) (m : DraughtsMove1D) :
  @submitted Sample.rt Sample.initialBoard from to = Some m ->
  @repeated Sample.rt (Sample.played Sample.opening) 2 1 from to = false ->
  @Accepted Sample.rt 2000 (Sample.played Sample.opening) 2 from to 1
    Sample.alice (Sample.game 2 1 None ONGOING PVE HARD 2)
    Sample.initialBoard m.
Proof.
  intros H1 H2. split; [exact alice_cleared_pve|].
  split; [apply sample_board_loaded|]. split; [exact H1|].
  split; [reflexivity|exact H2].
Qed.

(** C8 on a sample: player 1 plays C3-D4 in the PvE game 2 and the AI
    answers. *)
Lemma pve_round_debits_twice_witness :
  tokensOf (fst (@executeMove Sample.rt 2000 0%nat 2 "C3" "D4" 1
                   (Sample.played Sample.opening))) 1
  = Some ((10 # 1) - (1 # 50) - (1 # 50))%Q.
Proof.
  exact (@pve_round_debits_twice Sample.rt 2000 0%nat 2 "C3" "D4" 1
           Sample.alice (Sample.game 2 1 None ONGOING PVE HARD 2)
           Sample.initialBoard (Sample.step 42 35) (Sample.step 17 26)
           (Sample.played Sample.opening)
           (alice_accepted_pve "C3" "D4" _ eq_refl eq_refl)
           eq_refl eq_refl eq_refl).
Defined.

(** C7 on a sample: in game 2 the AI's last record is B6-A5; after C3-D4
    the hard computer chooses B6-A5 again and B6-C5 is played instead. *)
Lemma repeated_ai_move_substituted_witness :
  let run := @executeMove Sample.rt 2000 0%nat 2 "C3" "D4" 1
               (Sample.played Sample.opening) in
  exists mine reply,
    moves_table (fst run)
    = (moves_table (Sample.played Sample.opening) ++ [mine; reply])%list
    /\ Move.user_id reply = None
    /\ Move.from_position reply = "B6"
    /\ Move.to_position reply = "C5".
Proof.
  pose proof (@repeated_ai_move_substituted Sample.rt 2000 0%nat 2 "C3" "D4" 1
                Sample.alice (Sample.game 2 1 None ONGOING PVE HARD 2)
                Sample.initialBoard (Sample.step 42 35)
                (Sample.record 2 2 None "B6" "A5" 1000)
                (Sample.step 17 24) (Sample.step 17 26) []
                (Sample.played Sample.opening)
                (alice_accepted_pve "C3" "D4" _ eq_refl eq_refl)
                eq_refl eq_refl eq_refl eq_refl eq_refl eq_refl eq_refl) as H.
  cbv zeta in H.
  destruct H as (_ & _ & _ & (mine & reply & H1 & _ & H2 & H3 & H4 & _) & _).
  exists mine, reply. cbv zeta. split; [exact H1|]. split; [exact H2|].
  split; [exact H3|exact H4].
Defined.




(** C6 on a sample: a first round in the fresh PvE game 2 makes two records
    and every game still counts its records. *)
Lemma counter_follows_records_witness :
  let run := @executeMove Sample.rt 2000 0%nat 2 "A3" "B4" 1
               (Sample.fresh Sample.opening) in
  Sequenced (fst run)
  /\ List.length (appended (Sample.fresh Sample.opening) (fst run)) = 2%nat.
Proof.
  pose proof (@counter_follows_records Sample.rt 2000 0%nat 2 "A3" "B4" 1
                (Sample.fresh Sample.opening)) as H.
  cbv zeta in H. destruct H as (_ & _ & _ & Hs & Hn).
  cbv zeta. split.
  - exact (proj1 (Hs fresh_is_sequenced)).
  - apply (Hn Sample.alice (Sample.game 2 1 None ONGOING PVE HARD 0)
              Sample.initialBoard (Sample.step 40 33)).
    split; [repeat split|]. split; [eexists; split; reflexivity|].
    repeat split.
Defined.

(** C6 as stated fails: game 3 is a PvE game whose difficulty is Absent;
    player 1 plays A7-E7 from the opening position, the game is not over and
    light has moves, but the selector yields none at this difficulty: the
    round makes one record and the game goes on. *)
Lemma pve_round_with_one_record :
  let db := Sample.unrated Sample.standard in
  let run := @executeMove (Scripted.runtime Sample.standard) 2000 0%nat 3
               "A7" "E7" 1 db in
  let position := @afterMove (Scripted.runtime Sample.standard)
                    Sample.initialBoard (Sample.step 8 12) in
  option_map Game.type (lookupGame db 3) = Some PVE
  /\ option_map Game.ai_difficulty (lookupGame db 3) = Some ABSENT
  /\ @draughts_status (Scripted.runtime Sample.standard) position = PLAYING
  /\ List.length (@draughts_moves (Scripted.runtime Sample.standard) position)
     = 7%nat
  /\ snd run = Return (MoveExecuted "Move successfully executed" 3
                         "You moved a single from A7 to E7.")
  /\ List.length (appended db (fst run)) = 1%nat
  /\ option_map Game.total_moves (lookupGame (fst run) 3) = Some 1
  /\ option_map Game.status (lookupGame (fst run) 3) = Some ONGOING.
Proof. vm_compute. repeat split. Qed.

(** ** Every call takes one of the ways *)

Section Ways.

Context {R : Runtime}.

Lemma isOngoing_true s : isOngoing s = true -> s = ONGOING.
Proof. now destruct s. Qed.

Lemma executeMove_branch now rand gameId from to playerId (db : DB) :
  Branch now rand gameId from to playerId db
    (executeMove now rand gameId from to playerId db).
Proof.
  destruct (lookupPlayer db playerId) as [player|] eqn:Hp.
  2:{ unfold executeMove, bind, Player_findByPk. rewrite Hp.
      now apply NoPlayer. }
  destruct (lookupGame db gameId) as [game|] eqn:Hg.
  2:{ unfold executeMove, bind, Player_findByPk, Game_findByPk.
      rewrite Hp, Hg. now apply NoGame with (player := player). }
  destruct (isOngoing (Game.status game)) eqn:Hs.
  2:{ unfold executeMove, bind, Player_findByPk, Game_findByPk.
      rewrite Hp, Hg, Hs. now apply NotInProgress with player game. }
  destruct (isParticipant game playerId) eqn:Ha.
  2:{ unfold executeMove, bind, Player_findByPk, Game_findByPk.
      rewrite Hp, Hg, Hs, Ha. now apply NotParticipant with player game. }
  assert (Hadm : Cleared db gameId playerId player game).
  { repeat split; try assumption. now apply isOngoing_true. }
  rewrite (executeMove_run _ _ _ _ _ _ _ _ _ Hadm).
  destruct (loadSavedData (Game.board game)) as [sd|] eqn:E1.
  2:{ unfold validateMove. rewrite E1. now apply ParseFailed with game. }
  destruct (saved_board sd) as [sb|] eqn:E2.
  2:{ unfold validateMove. rewrite E1, E2. now apply NotAnArray with game sd. }
  assert (Hload : Loaded game sb) by (exists sd; split; assumption).
  rewrite (validateMove_run _ _ _ _ _ _ _ _ _ _ Hload).
  destruct (submitted sb from to) as [m|] eqn:Hsub.
  2:{ now apply NotLegal with game sb. }
  change (stale now (storePlayer db (debit player)) gameId playerId)
    with (stale now db gameId playerId).
  change (repeated (storePlayer db (debit player)) gameId playerId from to)
    with (repeated db gameId playerId from to).
  destruct (stale now db gameId playerId) eqn:Hst.
  { now apply TimedOut with sb m. }
  destruct (repeated db gameId playerId from to) eqn:Hrep.
  { now apply Repeated with game sb m. }
  assert (Hacc : Accepted now db gameId from to playerId player game sb m)
    by (repeat split; try assumption; apply Hadm).
  rewrite playMove_run. cbv zeta.
  change (draughts_move (setupBoard (flat sb)) m) with (afterMove sb m).
  change (aiReply rand (storePlayer db (debit player)) gameId game (afterMove sb m))
    with (aiReply rand db gameId game (afterMove sb m)).
  destruct (isOver (draughts_status (afterMove sb m))) eqn:Hover.
  { now apply (PlayerEnds now rand gameId from to playerId db player game sb m). }
  destruct (Game.type game) eqn:Hty.
  { apply (PlayerOnly now rand gameId from to playerId db player game sb m);
      auto. }
  destruct (aiReply rand db gameId game (afterMove sb m)) as [a|] eqn:Hai.
  2:{ apply (PlayerOnly now rand gameId from to playerId db player game sb m);
        auto. }
  rewrite aiHalfMove_run. cbv zeta.
  destruct (isOver (draughts_status (draughts_move (afterMove sb m) a))) eqn:Ho2.
  - now apply (AiEnds now rand gameId from to playerId db player game sb m a).
  - now apply (AiAnswers now rand gameId from to playerId db player game sb m a).
Qed.

End Ways.

(** The case analysis of a call along its ways. *)
Ltac ways B :=
  match goal with
  | |- context [executeMove ?n ?r ?g ?f ?t ?p ?d] =>
      pose proof (executeMove_branch n r g f t p d) as B;
      destruct (executeMove n r g f t p d);
      inversion B; subst; clear B;
      repeat match goal with x := _ |- _ => subst x end;
      cbn [fst snd]
  end.

(** ** What a call does to the database, way by way *)

Section Effects.

Context {R : Runtime}.

Lemma lookupPlayer_store_other (db : DB) p q :
  Player.player_id p <> q ->
  lookupPlayer (storePlayer db p) q = lookupPlayer db q.
Proof.
  intros N. rewrite lookupPlayer_storePlayer.
  now destruct (Z.eqb_spec (Player.player_id p) q).
Qed.

Lemma tokensOf_store_other (db : DB) p q :
  Player.player_id p <> q ->
  tokensOf (storePlayer db p) q = tokensOf db q.
Proof. intros N. unfold tokensOf. now rewrite lookupPlayer_store_other. Qed.

Lemma scoreOf_timeoutState now game playerId (db : DB) q :
  scoreOf (timeoutState now game playerId db) q
  = if playerId =? q
    then option_map (fun s => num_sub s half_point) (scoreOf db q)
    else scoreOf db q.
Proof.
  unfold timeoutState. cbv zeta. rewrite lookupPlayer_storeGame.
  destruct (lookupPlayer db playerId) as [p|] eqn:E.
  - unfold scoreOf. rewrite lookupPlayer_storePlayer.
    cbn [Player.set_score Player.player_id]. rewrite lookupPlayer_storeGame.
    rewrite (lookupPlayer_key _ _ _ E).
    destruct (Z.eqb_spec playerId q) as [<-|N]; [|reflexivity].
    rewrite E. reflexivity.
  - unfold scoreOf. rewrite lookupPlayer_storeGame.
    destruct (Z.eqb_spec playerId q) as [<-|N]; [|reflexivity].
    rewrite E. reflexivity.
Qed.

Lemma scoreOf_playerState now game gameId from to playerId savedBoard origin'
    draughts (db : DB) q :
  scoreOf (playerState now game gameId from to playerId savedBoard origin'
             draughts db) q
  = scoreOf db q.
Proof. reflexivity. Qed.

Lemma scoreOf_aiState now game player gameId savedBoard draughts aiMove
    (db : DB) q :
  lookupPlayer db (Player.player_id player) = Some player ->
  scoreOf (aiState now game player gameId savedBoard draughts aiMove db) q
  = scoreOf db q.
Proof.
  intros H. unfold aiState. rewrite scoreOf_insertMove.
  rewrite scoreOf_debit; [reflexivity|].
  rewrite lookupPlayer_storeGame. exact H.
Qed.

(** The row of the debited caller after the first debit. *)
Lemma debited_row (db : DB) gameId playerId player game :
  Cleared db gameId playerId player game ->
  lookupPlayer (storePlayer db (debit player))
    (Player.player_id (debit player)) = Some (debit player).
Proof.
  intros H. cbn [debit Player.set_tokens Player.player_id].
  rewrite (playerId_of_cleared _ _ _ _ _ H).
  exact (lookupPlayer_debited _ _ _ _ _ H).
Qed.

Lemma keyed_row (db : DB) gameId playerId player game :
  Cleared db gameId playerId player game ->
  lookupPlayer db (Player.player_id player) = Some player.
Proof.
  intros H. rewrite (playerId_of_cleared _ _ _ _ _ H). apply H.
Qed.

(** X1: a failed call changes nothing when it fails on the player, the game,
    its status or the caller's part in it; any other failure keeps exactly
    the debit of the move cost on the caller's row and nothing else. *)
Theorem failed_call_effect now rand gameId from to playerId (db : DB) e :
  snd (executeMove now rand gameId from to playerId db) = Throw e ->
  ((e = JsError "Player not found." \/ e = MoveError GAME_NOT_FOUND
    \/ e = GameError GAME_NOT_IN_PROGRESS \/ e = AuthError UNAUTHORIZED)
   /\ fst (executeMove now rand gameId from to playerId db) = db)
  \/ ((e = MoveError FAILED_PARSING \/ e = MoveError NOT_VALID_ARRAY
       \/ e = MoveError NOT_VALID_MOVE)
      /\ exists player,
           lookupPlayer db playerId = Some player
           /\ fst (executeMove now rand gameId from to playerId db)
              = storePlayer db (debit player)).
Proof.
  ways B; intros E; try discriminate E; injection E as <-;
    try (left; split; [tauto|reflexivity]);
    right; (split; [tauto|]);
    match goal with
    | H : Cleared _ _ _ ?p _ |- _ => exists p; split; [apply H|reflexivity]
    end.
Qed.

(** X2: the reply tells the state of the session.  After a timeout notice
    the game is [TIMED_OUT] and stamped, with its board and its counter as
    before; after the end of a game it is [COMPLETED] and stamped; after an
    acknowledged move it is still [ONGOING], without a winner set by the
    call, and its counter has grown; after a thrown error the game is as it
    was. *)
Theorem reply_tells_session now rand gameId from to playerId (db : DB) :
  let run := executeMove now rand gameId from to playerId db in
  match snd run with
  | Throw _ => lookupGame (fst run) gameId = lookupGame db gameId
  | Return (TimeoutResult _ _ s) =>
      s = TIMED_OUT
      /\ exists game game',
           lookupGame db gameId = Some game
           /\ lookupGame (fst run) gameId = Some game'
           /\ Game.status game' = TIMED_OUT
           /\ Game.ended_at game' = Some now
           /\ Game.board game' = Game.board game
           /\ Game.total_moves game' = Game.total_moves game
  | Return (GameOverResult _ _ _ _) =>
      exists game game',
        lookupGame db gameId = Some game
        /\ lookupGame (fst run) gameId = Some game'
        /\ Game.status game' = COMPLETED
        /\ Game.ended_at game' = Some now
        /\ Game.total_moves game < Game.total_moves game'
  | Return (MoveExecuted _ _ _) =>
      exists game game',
        lookupGame db gameId = Some game
        /\ lookupGame (fst run) gameId = Some game'
        /\ Game.status game' = ONGOING
        /\ Game.winner_id game' = Game.winner_id game
        /\ Game.ended_at game' = Game.ended_at game
        /\ Game.total_moves game < Game.total_moves game'
  end.
Proof.
  cbv zeta. ways B; try reflexivity;
    try match goal with
        | H : Accepted _ _ _ _ _ _ _ _ _ _ |- _ =>
            destruct H as (Hadm & _)
        end;
    try match goal with
        | H : Cleared _ _ _ _ _ |- _ => rename H into Hadm
        end;
    try pose proof (gameId_of_cleared _ _ _ _ _ Hadm) as K;
    try (rewrite lookupGame_storePlayer; reflexivity).
  - (* timeout *)
    split; [reflexivity|]. do 2 eexists. split; [apply Hadm|]. split.
    + rewrite lookupGame_timeoutState.
      eapply lookupGame_saved; [|exact K].
      rewrite lookupGame_storePlayer. apply Hadm.
    + repeat split.
  - (* the player's move ends the game *)
    do 2 eexists. split; [apply Hadm|]. split.
    + rewrite lookupGame_finalState.
      eapply lookupGame_saved; [|exact K].
      unfold playerState. rewrite lookupGame_insertMove.
      eapply lookupGame_saved; [|exact K].
      rewrite lookupGame_storePlayer. apply Hadm.
    + repeat split. cbn. lia.
  - (* the player's move alone *)
    do 2 eexists. split; [apply Hadm|]. split.
    + unfold playerState. rewrite lookupGame_insertMove.
      eapply lookupGame_saved; [|exact K].
      rewrite lookupGame_storePlayer. apply Hadm.
    + repeat split; try (cbn; apply Hadm). cbn. lia.
  - (* the AI's move ends the game *)
    do 2 eexists. split; [apply Hadm|]. split.
    + rewrite lookupGame_finalState.
      eapply lookupGame_saved; [|exact K].
      unfold aiState. rewrite lookupGame_insertMove, lookupGame_storePlayer.
      eapply lookupGame_saved; [|exact K].
      unfold playerState. rewrite lookupGame_insertMove.
      eapply lookupGame_saved; [|exact K].
      rewrite lookupGame_storePlayer. apply Hadm.
    + repeat split. cbn. lia.
  - (* the AI answers *)
    do 2 eexists. split; [apply Hadm|]. split.
    + unfold aiState. rewrite lookupGame_insertMove, lookupGame_storePlayer.
      eapply lookupGame_saved; [|exact K].
      unfold playerState. rewrite lookupGame_insertMove.
      eapply lookupGame_saved; [|exact K].
      rewrite lookupGame_storePlayer. apply Hadm.
    + repeat split; try (cbn; apply Hadm). cbn. lia.
Qed.

(** X3: a call never touches the balance of anybody but the caller. *)
Theorem only_the_caller_pays now rand gameId from to playerId (db : DB) q :
  q <> playerId ->
  tokensOf (fst (executeMove now rand gameId from to playerId db)) q
  = tokensOf db q.
Proof.
  intros N. ways B; try reflexivity;
    try match goal with
        | H : Accepted _ _ _ _ _ _ _ _ _ _ |- _ => destruct H as (Hadm & _)
        end;
    try match goal with
        | H : Cleared _ _ _ _ _ |- _ => rename H into Hadm
        end;
    pose proof (playerId_of_cleared _ _ _ _ _ Hadm) as K;
    unfold aiState, playerState;
    rewrite ?tokensOf_finalState, ?tokensOf_timeoutState, ?tokensOf_insertMove;
    rewrite ?tokensOf_store_other
      by (cbn [debit Player.set_tokens Player.player_id]; congruence);
    rewrite ?tokensOf_storeGame, ?tokensOf_insertMove, ?tokensOf_storeGame;
    rewrite ?tokensOf_store_other
      by (cbn [debit Player.set_tokens Player.player_id]; congruence);
    reflexivity.
Qed.

(** X4: scores move only when a session ends.  A thrown error or an
    acknowledged move leaves every score as it was; a timeout takes half a
    point from the caller and from nobody else; the end of a game gives one
    point to the winner recorded in the game, if that is a player, and to
    nobody else. *)
Theorem scores_move_at_the_end now rand gameId from to playerId (db : DB) :
  let run := executeMove now rand gameId from to playerId db in
  match snd run with
  | Throw _ | Return (MoveExecuted _ _ _) =>
      forall q, scoreOf (fst run) q = scoreOf db q
  | Return (TimeoutResult _ _ _) =>
      forall q,
        scoreOf (fst run) q
        = if playerId =? q
          then option_map (fun s => num_sub s half_point) (scoreOf db q)
          else scoreOf db q
  | Return (GameOverResult _ _ _ _) =>
      exists game',
        lookupGame (fst run) gameId = Some game'
        /\ forall q,
             scoreOf (fst run) q
             = if option_Z_eqb (Game.winner_id game') (Some q)
               then option_map (fun s => num_add s one_point) (scoreOf db q)
               else scoreOf db q
  end.
Proof.
  cbv zeta. ways B; try (intros q; reflexivity);
    try match goal with
        | H : Accepted _ _ _ _ _ _ _ _ _ _ |- _ => destruct H as (Hadm & _)
        end;
    try match goal with
        | H : Cleared _ _ _ _ _ |- _ => rename H into Hadm
        end;
    pose proof (gameId_of_cleared _ _ _ _ _ Hadm) as K;
    pose proof (keyed_row _ _ _ _ _ Hadm) as Hrow;
    pose proof (debited_row _ _ _ _ _ Hadm) as Hrow';
    try (intros q; now rewrite scoreOf_debit).
  - intros q. rewrite scoreOf_timeoutState. now rewrite scoreOf_debit.
  - eexists. split.
    + rewrite lookupGame_finalState.
      eapply lookupGame_saved; [|exact K].
      unfold playerState. rewrite lookupGame_insertMove.
      eapply lookupGame_saved; [|exact K].
      rewrite lookupGame_storePlayer. apply Hadm.
    + intros q. rewrite scoreOf_finalState, scoreOf_playerState.
      now rewrite scoreOf_debit.
  - intros q. rewrite scoreOf_playerState. now rewrite scoreOf_debit.
  - eexists. split.
    + rewrite lookupGame_finalState.
      eapply lookupGame_saved; [|exact K].
      unfold aiState. rewrite lookupGame_insertMove, lookupGame_storePlayer.
      eapply lookupGame_saved; [|exact K].
      unfold playerState. rewrite lookupGame_insertMove.
      eapply lookupGame_saved; [|exact K].
      rewrite lookupGame_storePlayer. apply Hadm.
    + intros q. rewrite scoreOf_finalState.
      rewrite scoreOf_aiState by exact Hrow'.
      rewrite scoreOf_playerState. now rewrite scoreOf_debit.
  - intros q. rewrite scoreOf_aiState by exact Hrow'.
    rewrite scoreOf_playerState. now rewrite scoreOf_debit.
Qed.

(** X5: a session is timed out only on a legal submission of a caller whose
    own last record in the game is more than a minute old.  A caller without
    a record in the game is never timed out, however old the game is. *)
Theorem timeout_only_when_stale now rand gameId from to playerId (db : DB)
    message id s :
  snd (executeMove now rand gameId from to playerId db)
  = Return (TimeoutResult message id s) ->
  exists last,
    latestMove db gameId (Some playerId) = Some last
    /\ TIMEOUT_MINUTES * 60000 < now - Move.createdAt last
    /\ exists player game savedBoard moveToMake,
         Cleared db gameId playerId player game
         /\ Loaded game savedBoard
         /\ submitted savedBoard from to = Some moveToMake.
Proof.
  ways B; intros E; try discriminate E.
  match goal with H : stale _ _ _ _ = true |- _ => unfold stale in H;
    destruct (latestMove db gameId (Some playerId)) as [last|];
      [|discriminate H]; exists last; split; [reflexivity|]; split;
      [unfold timedOut in H; apply Z.ltb_lt in H; lia|] end.
  do 4 eexists. split; [eassumption|]. split; eassumption.
Qed.

Lemma timeoutWinner_other game playerId :
  isParticipant game playerId = true ->
  Game.opponent_id game <> Some (Game.player_id game) ->
  playerId <> AI_SENTINEL ->
  timeoutWinner game playerId <> Some playerId
  /\ timeoutWinner game playerId <> None.
Proof.
  unfold isParticipant, timeoutWinner. intros Hp Hd Hs.
  destruct (Game.opponent_id game) as [opp|].
  - destruct (Z.eqb_spec (Game.player_id game) playerId) as [E|E].
    + split; [|discriminate]. intros H. inversion H. congruence.
    + split; [|discriminate]. intros H. inversion H. congruence.
  - cbn in Hp. rewrite orb_false_r in Hp. apply Z.eqb_eq in Hp.
    split; [|discriminate]. intros H. inversion H. congruence.
Qed.

(** X6: the caller whose submission times out the session is never recorded
    as its winner: the winner is the other participant, or the AI sentinel
    when the game has no opponent.  The two participants of the game are
    distinct and the caller's id is not the sentinel. *)
Theorem timed_out_caller_loses now rand gameId from to playerId (db : DB)
    message id s game :
  snd (executeMove now rand gameId from to playerId db)
  = Return (TimeoutResult message id s) ->
  lookupGame db gameId = Some game ->
  Game.opponent_id game <> Some (Game.player_id game) ->
  playerId <> AI_SENTINEL ->
  exists game',
    lookupGame (fst (executeMove now rand gameId from to playerId db)) gameId
    = Some game'
    /\ Game.winner_id game' = timeoutWinner game playerId
    /\ Game.winner_id game' <> Some playerId
    /\ Game.winner_id game' <> None.
Proof.
  ways B; intros E Hg Hd Hs; try discriminate E.
  match goal with H : Cleared _ _ _ _ _ |- _ => rename H into Hadm end.
  pose proof (gameId_of_cleared _ _ _ _ _ Hadm) as K.
  assert (game0 = game) by (destruct Hadm as (_ & H & _); congruence).
  subst game0.
  eexists. split.
  - rewrite lookupGame_timeoutState.
    eapply lookupGame_saved; [|exact K].
    rewrite lookupGame_storePlayer. apply Hadm.
  - split; [reflexivity|]. cbn [Game.winner_id Game.set_outcome].
    apply timeoutWinner_other; auto. apply Hadm.
Qed.

End Effects.

(** ** The AI's answer and the spelling of positions *)

Section Answers.

Context {R : Runtime}.

Lemma chosen_is_legal rand draughts difficulty m :
  (forall r d x, randomComputer r d = Some x -> In x (draughts_moves d)) ->
  (forall k d x, alphaBetaComputer k d = Some x -> In x (draughts_moves d)) ->
  chooseAIMove rand draughts difficulty = Some m ->
  In m (draughts_moves draughts).
Proof.
  intros Hr Ha. unfold chooseAIMove.
  destruct (draughts_moves draughts) eqn:E; [discriminate|].
  rewrite <- E. destruct difficulty; [discriminate|apply Hr|apply Ha].
Qed.

(** X7: the move the AI plays, after the guard against repetition, is a
    legal move of the position as soon as the computers of the engine choose
    legal moves, and it never has both the origin and the destination of the
    AI's last record in the game. *)
Theorem ai_reply_is_legal_and_new rand (db : DB) gameId game draughts a :
  (forall r d x, randomComputer r d = Some x -> In x (draughts_moves d)) ->
  (forall k d x, alphaBetaComputer k d = Some x -> In x (draughts_moves d)) ->
  aiReply rand db gameId game draughts = Some a ->
  In a (draughts_moves draughts)
  /\ forall last,
       latestMove db gameId None = Some last ->
       ~ (convertPosition (Move.from_position last) = Some (origin a)
          /\ convertPosition (Move.to_position last) = Some (destination a)).
Proof.
  intros Hr Ha. unfold aiReply, avoidRepetition.
  destruct (chooseAIMove rand draughts (Game.ai_difficulty game)) as [c|] eqn:Hc.
  2:{ destruct (latestMove db gameId None); discriminate. }
  pose proof (chosen_is_legal _ _ _ _ Hr Ha Hc) as Hin.
  destruct (latestMove db gameId None) as [last|].
  2:{ intros [= <-]. split; [exact Hin|discriminate]. }
  destruct (truthy (Move.from_position last) && truthy (Move.to_position last)
            && strictEq (origin c) (convertPosition (Move.from_position last))
            && strictEq (destination c) (convertPosition (Move.to_position last)))
    eqn:G.
  - repeat (apply andb_prop in G; destruct G as [G ?]).
    destruct (otherMoves draughts c) as [|first rest] eqn:O; [discriminate|].
    intros [= <-].
    assert (F : In first (otherMoves draughts c)) by (rewrite O; now left).
    unfold otherMoves in F. apply filter_In in F. destruct F as [F D].
    split; [exact F|]. intros last' [= <-] [E1 E2].
    rewrite E1 in *. rewrite E2 in *. cbn [strictEq] in *.
    repeat match goal with
           | H : (_ =? _) = true |- _ => apply Z.eqb_eq in H
           end.
    apply orb_prop in D.
    destruct D as [D|D]; apply negb_true_iff, Z.eqb_neq in D; congruence.
  - intros [= <-]. split; [exact Hin|]. intros last' [= <-] [E1 E2].
    rewrite (convertPosition_truthy _ _ E1), (convertPosition_truthy _ _ E2) in G.
    rewrite E1, E2 in G. cbn [strictEq andb] in G.
    rewrite !Z.eqb_refl in G. discriminate G.
Qed.

Lemma accepted_returns now rand gameId from to playerId player game savedBoard
    moveToMake (db : DB) :
  Accepted now db gameId from to playerId player game savedBoard moveToMake ->
  exists result,
    snd (executeMove now rand gameId from to playerId db) = Return result.
Proof.
  intros (Hadm & Hload & Hsub & Hstale & Hrep).
  rewrite (executeMove_run _ _ _ _ _ _ _ _ _ Hadm).
  rewrite (validateMove_run _ _ _ _ _ _ _ _ _ _ Hload), Hsub.
  unfold stale, repeated in *. rewrite latestMove_storePlayer, Hstale, Hrep.
  rewrite playMove_run. cbv zeta.
  destruct (isOver _); [eexists; reflexivity|].
  destruct (Game.type game); [eexists; reflexivity|].
  destruct (aiReply _ _ _ _ _); [|eexists; reflexivity].
  rewrite aiHalfMove_run. cbv zeta.
  destruct (isOver _); eexists; reflexivity.
Qed.

(** X8: a position is read from its first two characters and the guard
    against repetition compares the whole strings.  So the pair of the
    caller's last record, resubmitted with anything appended to its origin,
    designates the same move and is not taken for a repetition: when the
    last record is not stale and that move is legal, the call plays it. *)
Theorem respelled_move_is_played now rand gameId f r suffix to playerId player
    game savedBoard moveToMake last (db : DB) :
  Cleared db gameId playerId player game ->
  Loaded game savedBoard ->
  latestMove db gameId (Some playerId) = Some last ->
  Move.from_position last = String f (String r EmptyString) ->
  timedOut now last = false ->
  suffix <> EmptyString ->
  submitted savedBoard (String f (String r EmptyString)) to = Some moveToMake ->
  submitted savedBoard (String f (String r suffix)) to = Some moveToMake
  /\ repeated db gameId playerId (String f (String r suffix)) to = false
  /\ exists result,
       snd (executeMove now rand gameId (String f (String r suffix)) to
              playerId db)
       = Return result.
Proof.
  intros Hadm Hload Hlast Hfrom Hfresh Hsuffix Hsub.
  assert (S1 : submitted savedBoard (String f (String r suffix)) to
               = Some moveToMake) by exact Hsub.
  assert (S2 : repeated db gameId playerId (String f (String r suffix)) to
               = false).
  { unfold repeated, sameAsLast. rewrite Hlast, Hfrom. cbn [String.eqb].
    rewrite !Ascii.eqb_refl.
    destruct suffix; [congruence|reflexivity]. }
  split; [exact S1|]. split; [exact S2|].
  apply accepted_returns with player game savedBoard moveToMake.
  repeat split; try apply Hadm; try assumption.
  unfold stale. now rewrite Hlast.
Qed.

Lemma convertPosition_of_back index :
  0 <= index <= 63 -> convertPosition (convertPositionBack index) = Some index.
Proof.
  intros Hi.
  assert (E : index = Z.of_nat (Z.to_nat index)) by lia.
  assert (B : (Z.to_nat index < 64)%nat) by lia.
  rewrite E. generalize dependent (Z.to_nat index). clear.
  intros n _ B.
  do 64 (destruct n as [|n]; [reflexivity|]). lia.
Qed.

Lemma latestMove_in (db : DB) gameId userId m :
  latestMove db gameId userId = Some m -> In m (moves_table db).
Proof.
  unfold latestMove.
  assert (G : forall l best,
             fold_left
               (fun best x =>
                  if moveMatches gameId userId x then
                    match best with
                    | Some b => if Move.createdAt b <=? Move.createdAt x
                                then Some x else Some b
                    | None => Some x
                    end
                  else best) l best = Some m ->
             In m l \/ best = Some m).
  { induction l as [|x l IH]; intros best H; [now right|].
    simpl in H. apply IH in H. destruct H as [H|H]; [left; now right|].
    destruct (moveMatches gameId userId x); [|now right].
    destruct best as [b|].
    - destruct (Move.createdAt b <=? Move.createdAt x).
      + injection H as <-. left. now left.
      + now right.
    - injection H as <-. left. now left. }
  intros H. destruct (G _ _ H) as [H1|H1]; [exact H1|discriminate].
Qed.

(** A matching record that is not older than any record of the table is the
    latest once inserted. *)
Lemma latestMove_insert_latest (db : DB) gameId userId m :
  moveMatches gameId userId m = true ->
  (forall x, In x (moves_table db) -> Move.createdAt x <= Move.createdAt m) ->
  latestMove (insertMove db m) gameId userId = Some m.
Proof.
  intros Hm Hall. unfold latestMove, insertMove. cbn [moves_table].
  rewrite fold_left_app. cbn [fold_left]. rewrite Hm.
  fold (latestMove db gameId userId).
  destruct (latestMove db gameId userId) as [b|] eqn:E; [|reflexivity].
  apply latestMove_in in E. apply Hall in E.
  apply Z.leb_le in E. now rewrite E.
Qed.

Lemma latestMove_same_table (db db' : DB) gameId userId :
  moves_table db' = moves_table db ->
  latestMove db' gameId userId = latestMove db gameId userId.
Proof. intros H. unfold latestMove. now rewrite H. Qed.

(** X9: when the AI answers with a move between squares of the board, the
    record it leaves reads back: its two positions convert to the origin
    and the destination of the move, so the guard of the next round
    compares against the squares just played.  When every stored record is
    stamped before the clock of the call, this record is the one AI record
    of the game with the latest stamp, every other being strictly older:
    the query of line 256, which orders by [createdAt], finds it however
    equal stamps are ordered. *)
Theorem ai_record_reads_back now rand gameId from to playerId player game
    savedBoard moveToMake aiMove (db : DB) :
  Accepted now db gameId from to playerId player game savedBoard moveToMake ->
  Game.type game = PVE ->
  isOver (draughts_status (afterMove savedBoard moveToMake)) = false ->
  aiReply rand db gameId game (afterMove savedBoard moveToMake) = Some aiMove ->
  0 <= origin aiMove <= 63 ->
  0 <= destination aiMove <= 63 ->
  (forall x, In x (moves_table db) -> Move.createdAt x < now) ->
  let db' := fst (executeMove now rand gameId from to playerId db) in
  exists record,
    latestMove db' gameId None = Some record
    /\ In record (moves_table db')
    /\ Move.game_id record = gameId
    /\ Move.user_id record = None
    /\ Move.createdAt record = now
    /\ (forall x,
          In x (moves_table db') ->
          Move.game_id x = gameId -> Move.user_id x = None -> x <> record ->
          Move.createdAt x < now)
    /\ convertPosition (Move.from_position record) = Some (origin aiMove)
    /\ convertPosition (Move.to_position record) = Some (destination aiMove).
Proof.
  intros (Hadm & Hload & Hsub & Hstale & Hrep) Hpve Hover Hai Ho Hd Hclock.
  cbv zeta.
  rewrite (executeMove_run _ _ _ _ _ _ _ _ _ Hadm).
  rewrite (validateMove_run _ _ _ _ _ _ _ _ _ _ Hload), Hsub.
  unfold stale, repeated in *. rewrite latestMove_storePlayer, Hstale, Hrep.
  rewrite playMove_run. cbv zeta. unfold afterMove in *. rewrite Hover, Hpve.
  unfold aiReply in *. rewrite latestMove_storePlayer, Hai.
  rewrite aiHalfMove_run. cbv zeta. clear Hover.
  match goal with
  | |- context [fst (if ?b then (finalState ?n ?d ?g ?X, ?r1) else (?X, ?r2))] =>
      assert (E0 : moves_table
                     (fst (if b then (finalState n d g X, r1) else (X, r2)))
                   = moves_table X)
        by (destruct b; [apply moves_table_finalState|reflexivity]);
      set (final := fst (if b then (finalState n d g X, r1) else (X, r2))) in *
  end.
  pose proof E0 as E. unfold aiState, playerState in E.
  rewrite !moves_table_insertMove, moves_table_storePlayer,
    moves_table_storeGame, moves_table_insertMove, moves_table_storeGame,
    moves_table_storePlayer in E.
  eexists. split; [|split; [|split; [|split; [|split; [|split]]]]].
  - rewrite (latestMove_same_table _ _ _ _ E0).
    unfold aiState. apply latestMove_insert_latest.
    + unfold moveMatches.
      cbn [Move.game_id Move.user_id recordOf option_Z_eqb].
      now rewrite Z.eqb_refl.
    + intros x Hx. cbn [Move.createdAt recordOf].
      unfold playerState in Hx.
      rewrite moves_table_storePlayer, moves_table_storeGame,
        moves_table_insertMove, moves_table_storeGame,
        moves_table_storePlayer in Hx.
      apply in_app_or in Hx. destruct Hx as [Hx|[<-|[]]];
        [apply Hclock in Hx; lia|cbn; lia].
  - rewrite E. apply in_or_app. right. now left.
  - reflexivity.
  - reflexivity.
  - reflexivity.
  - intros x Hx Hg Hu Hne. rewrite E in Hx.
    apply in_app_or in Hx. destruct Hx as [Hx|[<-|[]]].
    + apply in_app_or in Hx. destruct Hx as [Hx|[<-|[]]].
      * now apply Hclock.
      * discriminate Hu.
    + now contradiction Hne.
  - cbn [Move.from_position Move.to_position recordOf].
    split; now apply convertPosition_of_back.
Qed.

End Answers.

(** ** The caller and the side to move *)

Section Turns.

Context {R : Runtime}.

Lemma returned_call_was_legal now rand gameId from to playerId (db : DB) result :
  snd (executeMove now rand gameId from to playerId db) = Return result ->
  exists player game savedBoard moveToMake,
    Cleared db gameId playerId player game
    /\ Loaded game savedBoard
    /\ submitted savedBoard from to = Some moveToMake.
Proof.
  ways B; intros E; try discriminate E;
    repeat match goal with
           | H : Accepted _ _ _ _ _ _ _ _ _ _ |- _ =>
               destruct H as (? & ? & ? & _)
           end;
    do 4 eexists; (split; [eassumption|]); split; eassumption.
Qed.

(** X20: the service never asks whose turn it is.  The legal moves are those
    of the position the engine rebuilds from the stored board, and the
    caller is only required to be a participant: a pair with which one
    caller's submission returns is also played when the other participant,
    who has no record in the game yet, submits it. *)
Theorem turn_is_not_checked now rand gameId from to p q other game result
    (db : DB) :
  snd (executeMove now rand gameId from to p db) = Return result ->
  Cleared db gameId q other game ->
  latestMove db gameId (Some q) = None ->
  exists moveToMake savedBoard result',
    Accepted now db gameId from to q other game savedBoard moveToMake
    /\ snd (executeMove now rand gameId from to q db) = Return result'
    /\ forall message id s, result' <> TimeoutResult message id s.
Proof.
  intros Hp Hq Hlast.
  destruct (returned_call_was_legal _ _ _ _ _ _ _ _ Hp)
    as (player & game0 & savedBoard & moveToMake & Hc & Hl & Hs).
  assert (game0 = game) as ->.
  { destruct Hc as (_ & G0 & _). destruct Hq as (_ & G1 & _). congruence. }
  assert (Hacc : Accepted now db gameId from to q other game savedBoard
                   moveToMake).
  { split; [exact Hq|]. split; [exact Hl|]. split; [exact Hs|].
    unfold stale, repeated. rewrite Hlast. split; reflexivity. }
  destruct (accepted_returns now rand _ _ _ _ _ _ _ _ _ Hacc) as [result' Hr].
  exists moveToMake, savedBoard, result'. split; [exact Hacc|].
  split; [exact Hr|]. intros message id s ->.
  revert Hr. ways B; intros E; try discriminate E.
  match goal with
  | H : stale _ _ _ _ = true |- _ => unfold stale in H; rewrite Hlast in H;
                                     discriminate H
  end.
Qed.

End Turns.

(** ** Sequences of calls *)

Section Sequences.

Context {R : Runtime}.

Lemma sameSession_refl g : sameSession g g.
Proof. repeat split. Qed.

Lemma sameSession_trans g1 g2 g3 :
  sameSession g1 g2 -> sameSession g2 g3 -> sameSession g1 g3.
Proof.
  unfold sameSession. intros (A1 & A2 & A3 & A4 & A5) (B1 & B2 & B3 & B4 & B5).
  repeat split; congruence.
Qed.

(** A call on a game keeps its identity and never lowers its counter; on a
    game that is not in progress it changes nothing at all. *)
Lemma call_keeps_session now rand gameId from to playerId (db : DB) game :
  lookupGame db gameId = Some game ->
  exists game',
    lookupGame (fst (executeMove now rand gameId from to playerId db)) gameId
    = Some game'
    /\ sameSession game game'
    /\ Game.total_moves game <= Game.total_moves game'
    /\ (Game.status game <> ONGOING ->
        fst (executeMove now rand gameId from to playerId db) = db).
Proof.
  ways B; intros Hg;
    try match goal with
        | H : Accepted _ _ _ _ _ _ _ _ _ _ |- _ => destruct H as (Hadm & _)
        end;
    try match goal with
        | H : Cleared _ _ _ _ _ |- _ => rename H into Hadm
        end;
    try (exists game; split; [exact Hg|]; split; [apply sameSession_refl|];
         split; [lia|reflexivity]);
    try congruence;
    pose proof (gameId_of_cleared _ _ _ _ _ Hadm) as K;
    assert (game0 = game) by (destruct Hadm as (_ & H & _); congruence);
    subst game0;
    assert (Hon : (Game.status game <> ONGOING -> False))
      by (intros N; apply N; apply Hadm);
    try (exists game; split; [rewrite lookupGame_storePlayer; exact Hg|];
         split; [apply sameSession_refl|]; split; [lia|];
         intros N; destruct (Hon N)).
  - eexists. split.
    + rewrite lookupGame_timeoutState.
      eapply lookupGame_saved; [|exact K].
      rewrite lookupGame_storePlayer. exact Hg.
    + split; [repeat split|]. split; [cbn; lia|]. intros N. destruct (Hon N).
  - eexists. split.
    + rewrite lookupGame_finalState.
      eapply lookupGame_saved; [|exact K].
      unfold playerState. rewrite lookupGame_insertMove.
      eapply lookupGame_saved; [|exact K].
      rewrite lookupGame_storePlayer. exact Hg.
    + split; [repeat split|]. split; [cbn; lia|]. intros N. destruct (Hon N).
  - eexists. split.
    + unfold playerState. rewrite lookupGame_insertMove.
      eapply lookupGame_saved; [|exact K].
      rewrite lookupGame_storePlayer. exact Hg.
    + split; [repeat split|]. split; [cbn; lia|]. intros N. destruct (Hon N).
  - eexists. split.
    + rewrite lookupGame_finalState.
      eapply lookupGame_saved; [|exact K].
      unfold aiState. rewrite lookupGame_insertMove, lookupGame_storePlayer.
      eapply lookupGame_saved; [|exact K].
      unfold playerState. rewrite lookupGame_insertMove.
      eapply lookupGame_saved; [|exact K].
      rewrite lookupGame_storePlayer. exact Hg.
    + split; [repeat split|]. split; [cbn; lia|]. intros N. destruct (Hon N).
  - eexists. split.
    + unfold aiState. rewrite lookupGame_insertMove, lookupGame_storePlayer.
      eapply lookupGame_saved; [|exact K].
      unfold playerState. rewrite lookupGame_insertMove.
      eapply lookupGame_saved; [|exact K].
      rewrite lookupGame_storePlayer. exact Hg.
    + split; [repeat split|]. split; [cbn; lia|]. intros N. destruct (Hon N).
Qed.

Lemma recordsOf_other (db db' : DB) gameId id new :
  moves_table db' = (moves_table db ++ new)%list ->
  Forall (fun m => Move.game_id m = gameId) new ->
  id <> gameId ->
  recordsOf db' id = recordsOf db id.
Proof.
  intros Hm Hall N. unfold recordsOf. rewrite Hm, filter_app.
  rewrite (filter_none _ new); [apply app_nil_r|].
  eapply Forall_impl; [|exact Hall]. intros m E. apply Z.eqb_neq. congruence.
Qed.

(** One call, seen from any game. *)
Lemma runCall_game (c : Call) (db : DB) id game :
  lookupGame db id = Some game ->
  exists game',
    lookupGame (runCall c db) id = Some game'
    /\ sameSession game game'
    /\ Game.total_moves game <= Game.total_moves game'
    /\ (Game.status game <> ONGOING ->
        game' = game /\ recordsOf (runCall c db) id = recordsOf db id).
Proof.
  intros Hg. unfold runCall.
  destruct (Z.eq_dec id (call_gameId c)) as [->|N].
  - destruct (call_keeps_session (call_now c) (call_rand c) (call_gameId c)
                (call_from c) (call_to c) (call_playerId c) db game Hg)
      as (g' & H1 & H2 & H3 & H4).
    exists g'. repeat split; try assumption; try apply H2.
    + specialize (H4 H). rewrite H4 in H1. congruence.
    + specialize (H4 H). now rewrite H4.
  - destruct (executeMove_commits (call_now c) (call_rand c) (call_gameId c)
                (call_from c) (call_to c) (call_playerId c) db)
      as (new & (Hm & Hall & Hother & _) & _).
    cbv zeta in *. exists game. split; [now rewrite (Hother id N)|].
    split; [apply sameSession_refl|]. split; [lia|]. intros _.
    split; [reflexivity|]. eapply recordsOf_other; eassumption.
Qed.

Lemma runCall_no_game (c : Call) (db : DB) id :
  lookupGame db id = None -> lookupGame (runCall c db) id = None.
Proof.
  intros Hg. unfold runCall.
  destruct (executeMove_commits (call_now c) (call_rand c) (call_gameId c)
              (call_from c) (call_to c) (call_playerId c) db)
    as (new & (_ & _ & Hother & Hnone & _) & _).
  cbv zeta in *.
  destruct (Z.eq_dec id (call_gameId c)) as [->|N].
  - now apply Hnone.
  - now rewrite (Hother id N).
Qed.

(** X10: a session that is over stays as it is.  Whatever calls follow, on
    this game or on others, by anybody, a game whose status is not
    [ONGOING] keeps its row (status, winner, end, board, counter) and its
    records. *)
Theorem finished_session_is_immutable (calls : list Call) (db : DB) id game :
  lookupGame db id = Some game ->
  Game.status game <> ONGOING ->
  lookupGame (runCalls calls db) id = Some game
  /\ recordsOf (runCalls calls db) id = recordsOf db id.
Proof.
  revert db. induction calls as [|c calls IH]; intros db Hg Hs.
  - split; [exact Hg|reflexivity].
  - cbn [runCalls fold_left].
    destruct (runCall_game c db id game Hg) as (g' & H1 & _ & _ & H4).
    destruct (H4 Hs) as [-> Hr].
    destruct (IH (runCall c db) H1 Hs) as [I1 I2].
    split; [exact I1|]. unfold runCalls in I2. now rewrite I2.
Qed.

(** X11: along any sequence of calls the table of records only grows at its
    end, no game appears or disappears, every game keeps its key, its
    participants, its type and its difficulty, no counter goes down, and the
    numbering of the records by the counters is kept. *)
Theorem sessions_only_advance (calls : list Call) (db : DB) :
  (exists added,
      moves_table (runCalls calls db) = (moves_table db ++ added)%list)
  /\ (forall id, lookupGame db id = None ->
                 lookupGame (runCalls calls db) id = None)
  /\ (forall id game,
        lookupGame db id = Some game ->
        exists game',
          lookupGame (runCalls calls db) id = Some game'
          /\ sameSession game game'
          /\ Game.total_moves game <= Game.total_moves game')
  /\ (Sequenced db -> Sequenced (runCalls calls db)).
Proof.
  revert db. induction calls as [|c calls IH]; intros db.
  - split; [exists []; now rewrite app_nil_r|]. split; [auto|].
    split; [|auto]. intros id g Hg. exists g.
    split; [exact Hg|]. split; [apply sameSession_refl|lia].
  - cbn [runCalls fold_left]. fold (runCalls calls (runCall c db)).
    destruct (IH (runCall c db)) as ((added & Ha) & Hn & Hg & Hs).
    destruct (executeMove_commits (call_now c) (call_rand c) (call_gameId c)
                (call_from c) (call_to c) (call_playerId c) db)
      as (new & HC & _).
    cbv zeta in HC. fold (runCall c db) in HC.
    split; [|split; [|split]].
    + exists (new ++ added)%list. rewrite Ha.
      destruct HC as (Hm & _). rewrite Hm. now rewrite app_assoc.
    + intros id H. apply Hn. now apply runCall_no_game.
    + intros id g H.
      destruct (runCall_game c db id g H) as (g1 & H1 & S1 & T1 & _).
      destruct (Hg id g1 H1) as (g2 & H2 & S2 & T2).
      exists g2. split; [exact H2|].
      split; [now apply sameSession_trans with g1|lia].
    + intros Hseq. apply Hs. eapply Sequenced_commits; eassumption.
Qed.

End Sequences.

(** ** The history of a game *)

Section Histories.

Context {R : Runtime} {L : Libraries}.

Lemma insertByDate_perm m l : Permutation (insertByDate m l) (m :: l).
Proof.
  induction l as [|x l IH]; simpl; [reflexivity|].
  destruct (Move.createdAt m <=? Move.createdAt x); [reflexivity|].
  rewrite IH. apply perm_swap.
Qed.

Lemma byDate_perm l : Permutation (byDate l) l.
Proof.
  induction l as [|x l IH]; simpl; [reflexivity|].
  rewrite insertByDate_perm. now constructor.
Qed.

Lemma insertByDate_sorted m l :
  StronglySorted notAfter l -> StronglySorted notAfter (insertByDate m l).
Proof.
  induction 1 as [|x l Hs IH Hx]; simpl.
  - repeat constructor.
  - destruct (Z.leb_spec (Move.createdAt m) (Move.createdAt x)) as [E|E].
    + constructor; [now constructor|]. constructor; [exact E|].
      eapply Forall_impl; [|exact Hx]. unfold notAfter. intros; lia.
    + constructor; [exact IH|].
      eapply Permutation_Forall;
        [symmetry; apply insertByDate_perm|].
      constructor; [unfold notAfter; lia|exact Hx].
Qed.

Lemma byDate_sorted l : StronglySorted notAfter (byDate l).
Proof.
  induction l as [|x l IH]; simpl; [constructor|].
  now apply insertByDate_sorted.
Qed.

(** Records stamped in the order of their insertion come out in that
    order. *)
Lemma byDate_nil l : byDate l = [] <-> l = [].
Proof.
  split; [|now intros ->]. intros H.
  pose proof (byDate_perm l) as P. rewrite H in P.
  now apply Permutation_nil in P.
Qed.

(** X12: the history of a game without records is refused with [NO_MOVES],
    whatever the format asked for; with records, only a format other than
    json and pdf is refused, with the plain error on the format.  These are
    the only two failures. *)
Theorem history_failures (db : DB) names gameId format :
  (recordsOf db gameId = [] ->
   exportMoveHistory db names gameId format = Throw (MoveError NO_MOVES))
  /\ (recordsOf db gameId <> [] ->
      format <> "json" -> format <> "pdf" ->
      exportMoveHistory db names gameId format
      = Throw (JsError unsupportedFormat))
  /\ (forall e,
        exportMoveHistory db names gameId format = Throw e ->
        (e = MoveError NO_MOVES /\ recordsOf db gameId = [])
        \/ (e = JsError unsupportedFormat /\ recordsOf db gameId <> []
            /\ format <> "json" /\ format <> "pdf")).
Proof.
  unfold exportMoveHistory, Move_findAll.
  destruct (byDate (recordsOf db gameId)) as [|m l] eqn:E.
  - apply (proj1 (byDate_nil _)) in E. split; [reflexivity|].
    split; [intros H; now destruct (H E)|].
    intros e [= <-]. left. now split.
  - assert (N : recordsOf db gameId <> []).
    { intros H. rewrite H in E. discriminate E. }
    split; [intros H; now destruct (N H)|]. split.
    + intros _ Hj Hp. apply String.eqb_neq in Hj, Hp. now rewrite Hj, Hp.
    + intros e. destruct (String.eqb_spec format "json"); [discriminate|].
      destruct (String.eqb_spec format "pdf"); [discriminate|].
      intros [= <-]. right. auto.
Qed.

(** X13: the two formats tell the same history.  For a game with records
    the JSON export has one entry for each record of the game, by ascending
    stamp, each entry with the number, the positions and the piece of its
    record and the printed stamp; the PDF export is the document rendered
    from these same entries. *)
Theorem history_is_chronological (db : DB) names gameId :
  recordsOf db gameId <> [] ->
  exists entries sorted,
    exportMoveHistory db names gameId "json" = Return (JsonHistory entries)
    /\ exportMoveHistory db names gameId "pdf"
       = Return (PdfHistory (pdfDocument gameId entries))
    /\ Permutation sorted (recordsOf db gameId)
    /\ StronglySorted notAfter sorted
    /\ map Entry.moveNumber entries = map Move.move_number sorted
    /\ map Entry.fromPosition entries = map Move.from_position sorted
    /\ map Entry.toPosition entries = map Move.to_position sorted
    /\ map Entry.pieceType entries = map Move.piece_type sorted
    /\ map Entry.timestamp entries
       = map (fun m => dateFormat (Move.createdAt m)) sorted.
Proof.
  intros N.
  exists (movesWithUsernames db names gameId), (byDate (recordsOf db gameId)).
  assert (E : exists m l, byDate (recordsOf db gameId) = m :: l).
  { destruct (byDate (recordsOf db gameId)) as [|m l] eqn:E.
    - apply (proj1 (byDate_nil _)) in E. contradiction.
    - eauto. }
  destruct E as (m & l & E).
  unfold exportMoveHistory, Move_findAll. rewrite E. cbn [String.eqb].
  split; [reflexivity|]. split; [reflexivity|]. rewrite <- E.
  split; [apply byDate_perm|]. split; [apply byDate_sorted|].
  unfold movesWithUsernames, Move_findAll. cbv zeta.
  rewrite !map_map. repeat split.
Qed.

(** Records stamped in strictly increasing order have one chronological
    listing only: themselves. *)
Lemma chronological_listing_unique l sorted :
  StronglySorted before l ->
  Permutation sorted l ->
  StronglySorted notAfter sorted ->
  sorted = l.
Proof.
  intros Hl. revert sorted.
  induction Hl as [|a l Hl IH Ha]; intros sorted Hp Hs.
  - now apply Permutation_sym, Permutation_nil in Hp.
  - destruct sorted as [|x rest].
    + apply Permutation_nil in Hp. discriminate Hp.
    + inversion Hs as [|? ? Hrest Hx]; subst.
      assert (x = a) as ->.
      { assert (Hin : In x (a :: l))
          by (apply (Permutation_in _ Hp); now left).
        destruct Hin as [<-|Hin]; [reflexivity|].
        exfalso.
        assert (Lax : before a x)
          by (rewrite Forall_forall in Ha; now apply Ha).
        assert (Hin' : In a (x :: rest))
          by (apply (Permutation_in _ (Permutation_sym Hp)); now left).
        destruct Hin' as [->|Hin'].
        - unfold before in Lax. lia.
        - rewrite Forall_forall in Hx. apply Hx in Hin'.
          unfold before in Lax. unfold notAfter in Hin'. lia. }
      f_equal. apply IH; [|exact Hrest].
      now apply Permutation_cons_inv in Hp.
Qed.

(** X14: when the records of a game are numbered by its counter and their
    stamps increase strictly in the order of their insertion, as the calls
    of [executeMove] on a PvP game under a clock that advances leave them,
    every chronological listing of the records is numbered 1, 2, ... up to
    the counter of the game, in this order, and so are the exported
    entries. *)
Theorem history_follows_the_counter (db : DB) names gameId game :
  Sequenced db ->
  lookupGame db gameId = Some game ->
  0 < Game.total_moves game ->
  StronglySorted before (recordsOf db gameId) ->
  (forall sorted,
      Permutation sorted (recordsOf db gameId) ->
      StronglySorted notAfter sorted ->
      map Move.move_number sorted = upto (Game.total_moves game))
  /\ exists entries,
       exportMoveHistory db names gameId "json" = Return (JsonHistory entries)
       /\ map Entry.moveNumber entries = upto (Game.total_moves game).
Proof.
  intros Hseq Hg Hpos Hsorted.
  destruct (Hseq gameId game Hg) as [_ Hnum]. unfold numbers in Hnum.
  fold (recordsOf db gameId) in Hnum.
  assert (U : forall sorted,
             Permutation sorted (recordsOf db gameId) ->
             StronglySorted notAfter sorted ->
             map Move.move_number sorted = upto (Game.total_moves game)).
  { intros sorted Hp Hs.
    now rewrite (chronological_listing_unique _ _ Hsorted Hp Hs). }
  split; [exact U|].
  exists (movesWithUsernames db names gameId).
  unfold exportMoveHistory, movesWithUsernames, Move_findAll. cbv zeta.
  destruct (byDate (recordsOf db gameId)) as [|m l] eqn:E.
  - apply (proj1 (byDate_nil _)) in E. rewrite E in Hnum.
    simpl in Hnum. unfold upto in Hnum.
    destruct (Z.to_nat (Game.total_moves game)) eqn:T; [lia|discriminate].
  - cbn [String.eqb]. split; [reflexivity|].
    rewrite map_map, <- E. apply U; [apply byDate_perm|apply byDate_sorted].
Qed.

Lemma distinct_in ids id : In id (distinct ids) <-> In id ids.
Proof.
  induction ids as [|x ids IH]; simpl; [tauto|].
  rewrite filter_In, IH. split.
  - intros [H|[H _]]; auto.
  - intros [H|H]; [now left|].
    destruct (Z.eq_dec x id) as [E|E]; [now left|]. right.
    split; [exact H|]. apply negb_true_iff, Z.eqb_neq. congruence.
Qed.

Lemma userIdsOf_in moves m id :
  In m moves -> Move.user_id m = Some id -> In id (userIdsOf moves).
Proof.
  intros Hm Hu. unfold userIdsOf. apply distinct_in, in_flat_map.
  exists m. split; [exact Hm|]. rewrite Hu. now left.
Qed.

Lemma find_unique (rows : list PlayerName.t) p :
  NoDup (map PlayerName.player_id rows) ->
  In p rows ->
  find (fun r => PlayerName.player_id r =? PlayerName.player_id p) rows = Some p.
Proof.
  induction rows as [|x rows IH]; intros Hn Hin; [destruct Hin|].
  simpl in *. inversion Hn as [|? ? Hx Hrest]; subst.
  destruct Hin as [->|Hin]; [now rewrite Z.eqb_refl|].
  destruct (Z.eqb_spec (PlayerName.player_id x) (PlayerName.player_id p)) as [E|E].
  - exfalso. apply Hx. rewrite E. now apply in_map.
  - now apply IH.
Qed.

(** X15: the name on an entry.  The AI's records are labelled
    ["Artificial Intelligence"]; a record of a user is labelled with the
    username of the user's row when the row exists and the name is not empty
    (player ids being unique), and ["Unknown Player"] when no row has the
    user's id or the name is empty. *)
Theorem history_names (db : DB) names gameId m :
  In m (Move_findAll db gameId) ->
  let players := Player_findAll names (userIdsOf (Move_findAll db gameId)) in
  In (entryOf players m) (movesWithUsernames db names gameId)
  /\ match Move.user_id m with
     | None => Entry.username (entryOf players m) = "Artificial Intelligence"
     | Some id =>
         ((forall p, In p names -> PlayerName.player_id p <> id) ->
          Entry.username (entryOf players m) = "Unknown Player")
         /\ (forall p,
               NoDup (map PlayerName.player_id names) ->
               In p names -> PlayerName.player_id p = id ->
               Entry.username (entryOf players m)
               = if truthy (PlayerName.username p) then PlayerName.username p
                 else "Unknown Player")
     end.
Proof.
  intros Hm players. split.
  { unfold movesWithUsernames. cbv zeta. now apply in_map. }
  cbn [entryOf Entry.username]. unfold usernameFor.
  destruct (Move.user_id m) as [id|] eqn:Hu; [|reflexivity]. split.
  - intros Hnone. unfold userMapGet.
    destruct (find _ (rev players)) as [p|] eqn:F; [|reflexivity].
    apply find_some in F. destruct F as [F1 F2].
    apply in_rev in F1. unfold players, Player_findAll in F1.
    apply filter_In in F1. destruct F1 as [F1 _].
    apply Z.eqb_eq in F2. destruct (Hnone p F1 F2).
  - intros p Hnd Hin Hid. unfold userMapGet.
    assert (Hp : In p players).
    { unfold players, Player_findAll. apply filter_In. split; [exact Hin|].
      apply existsb_exists. exists id. split.
      - eapply userIdsOf_in; eassumption.
      - now apply Z.eqb_eq. }
    assert (Hnd' : NoDup (map PlayerName.player_id (rev players))).
    { rewrite map_rev. apply NoDup_rev.
      unfold players, Player_findAll.
      clear - Hnd. induction names as [|x l IH]; simpl; [constructor|].
      inversion Hnd as [|? ? Hx Hl]; subst.
      destruct (existsb _ _); [|now apply IH].
      simpl. constructor; [|now apply IH].
      intros H. apply Hx. apply in_map_iff in H.
      destruct H as (y & Hy & Hy'). apply filter_In in Hy'.
      apply in_map_iff. exists y. tauto. }
    rewrite <- Hid.
    rewrite (find_unique (rev players) p Hnd'); [reflexivity|].
    now apply in_rev in Hp.
Qed.

End Histories.

(** ** The controllers of the moves *)

Section Controllers.

Context {R : Runtime} {L : Libraries}.

(** X16: the history of a game that does not exist is refused with the
    [GAME_NOT_FOUND] of the game factory, even when records carry its id; of
    a game without records, with [NO_MOVES].  For a game with records the
    entries are sent as JSON with status 200 when no format, an empty one or
    json is asked for, and the rendered document with its two headers when
    pdf is asked for. *)
Theorem history_request (db : DB) names gameId query :
  (lookupGame db gameId = None ->
   getMoveHistory db names gameId query = ReplyNext HistoryGameNotFound)
  /\ (lookupGame db gameId <> None ->
      recordsOf db gameId = [] ->
      getMoveHistory db names gameId query
      = ReplyNext (HistoryService (MoveError NO_MOVES)))
  /\ (lookupGame db gameId <> None ->
      recordsOf db gameId <> [] ->
      (query = None \/ query = Some EmptyString \/ query = Some "json" ->
       getMoveHistory db names gameId query
       = ReplyJson 200 (JsonHistory (movesWithUsernames db names gameId)))
      /\ (query = Some "pdf" ->
          getMoveHistory db names gameId query
          = ReplyPdf "application/pdf"
              ("attachment; filename=game_" ++ decimal gameId ++ "_moves.pdf")
              (pdfDocument gameId (movesWithUsernames db names gameId)))).
Proof.
  unfold getMoveHistory. cbv zeta.
  destruct (lookupGame db gameId) as [g|]; split; try reflexivity;
    try (intros H; discriminate H); try (split; intros H; now destruct H).
  split.
  - intros _ E. unfold exportMoveHistory, Move_findAll. rewrite E. reflexivity.
  - intros _ N.
    assert (E : exists m l, Move_findAll db gameId = m :: l).
    { unfold Move_findAll.
      destruct (byDate (recordsOf db gameId)) as [|m l] eqn:E; [|eauto].
      apply (proj1 (byDate_nil _)) in E. contradiction. }
    destruct E as (m & l & E). unfold exportMoveHistory. rewrite E. split.
    + intros [->|[->| ->]]; reflexivity.
    + intros ->. reflexivity.
Qed.

(** X17: a request without an authenticated player (no player id, or the
    id 0) is handed to [next] with [NEED_AUTHORIZATION], before its fields
    are looked at; an authenticated request without a game id (or with the
    id 0), or without an origin or a destination (or with an empty one), is
    refused with [MISSING_PARAMS].  In both cases the service is not called:
    nothing is debited and the database is as it was. *)
Theorem incomplete_request_is_free now rand req (db : DB) :
  (truthyNumber (user_player_id req) = None ->
   executeMoveRequest now rand req db = (db, MoveNext NeedAuthorization))
  /\ (truthyNumber (user_player_id req) <> None ->
      truthyNumber (body_gameId req) = None
      \/ truthyString (body_from req) = None
      \/ truthyString (body_to req) = None ->
      executeMoveRequest now rand req db
      = (db, MoveNext (Refused (MoveError MISSING_PARAMS)))).
Proof.
  unfold executeMoveRequest. cbv zeta. split.
  - intros ->. reflexivity.
  - intros N H. destruct (truthyNumber (user_player_id req)); [|congruence].
    assert (U : forall f, truthyString f = None -> truthyString (upperCased f) = None).
    { intros [s|]; [|reflexivity]. cbn. destruct (truthy s) eqn:T.
      - discriminate.
      - intros _. cbn. now rewrite T. }
    destruct H as [H|[H|H]].
    + rewrite H. reflexivity.
    + rewrite (U _ H). destruct (truthyNumber (body_gameId req)); reflexivity.
    + rewrite (U _ H). destruct (truthyNumber (body_gameId req));
        [destruct (truthyString (upperCased (body_from req)))|]; reflexivity.
Qed.

Lemma upperAscii_below c :
  (N_of_ascii c <? 128)%N = true -> (N_of_ascii (upperAscii c) <? 128)%N = true.
Proof.
  unfold upperAscii. intros H.
  destruct ((97 <=? N_of_ascii c) && (N_of_ascii c <=? 122))%N eqn:E; [|exact H].
  apply andb_prop in E. destruct E as [E1 E2].
  apply N.leb_le in E1, E2. apply N.ltb_lt in H. apply N.ltb_lt.
  rewrite N_ascii_embedding; lia.
Qed.

Lemma upperAscii_idem c : upperAscii (upperAscii c) = upperAscii c.
Proof.
  unfold upperAscii. cbv zeta.
  destruct ((97 <=? N_of_ascii c) && (N_of_ascii c <=? 122))%N eqn:E.
  - apply andb_prop in E. destruct E as [E1 E2].
    apply N.leb_le in E1, E2.
    rewrite N_ascii_embedding by lia.
    replace ((97 <=? N_of_ascii c - 32) && (N_of_ascii c - 32 <=? 122))%N
      with false; [reflexivity|].
    symmetry. apply andb_false_iff. left. apply N.leb_gt. lia.
  - now rewrite E.
Qed.

Lemma upperString_idem s : upperString (upperString s) = upperString s.
Proof. induction s as [|c s IH]; simpl; [reflexivity|]. now rewrite upperAscii_idem, IH. Qed.

Lemma upperString_below s : below128 s = true -> below128 (upperString s) = true.
Proof.
  induction s as [|c s IH]; simpl; [reflexivity|]. intros H.
  apply andb_prop in H. destruct H as [H1 H2].
  now rewrite (upperAscii_below _ H1), IH.
Qed.

Lemma upperString_truthy s : truthy (upperString s) = truthy s.
Proof. now destruct s. Qed.

(** X18: the positions of a request are read without regard to case.  For
    an origin and a destination made of characters below 128, on which
    [toUpperCase] turns a-z into A-Z and keeps the rest, the request and the
    request with both positions in upper case get the same reply and leave
    the same database. *)
Theorem positions_ignore_case now rand gameId from to user (db : DB) :
  (forall s, below128 s = true -> toUpperCase s = upperString s) ->
  below128 from = true ->
  below128 to = true ->
  executeMoveRequest now rand
    {| body_gameId := gameId; body_from := Some from; body_to := Some to;
       user_player_id := user |} db
  = executeMoveRequest now rand
      {| body_gameId := gameId; body_from := Some (upperString from);
         body_to := Some (upperString to); user_player_id := user |} db.
Proof.
  intros Hup Hf Ht.
  assert (U : forall s, below128 s = true ->
                upperCased (Some (upperString s)) = upperCased (Some s)).
  { intros s Hs. unfold upperCased. rewrite upperString_truthy.
    destruct (truthy s) eqn:T.
    - rewrite (Hup _ (upperString_below _ Hs)), (Hup _ Hs).
      now rewrite upperString_idem.
    - destruct s; [reflexivity|discriminate]. }
  unfold executeMoveRequest.
  cbn [body_gameId body_from body_to user_player_id].
  rewrite (U _ Hf), (U _ Ht). reflexivity.
Qed.

End Controllers.

(** ** The creation of a game *)

Section Creations.

Context {R : Runtime} {G : GameModule}.

Lemma truthyString_some x s : truthyString x = Some s -> x = Some s /\ truthy s = true.
Proof.
  destruct x as [t|]; [|discriminate]. cbn.
  destruct (truthy t) eqn:T; [|discriminate]. intros [= <-]. now split.
Qed.

(** X19: what reaches the game service.  When the controller calls
    [gameService.createGame], the caller is an authenticated player with a
    non-zero id, the board is the board of a new game and the counter is 0,
    and either the game is PvP, with the address of an existing player other
    than the caller's and no difficulty, or it is PvE, without an opponent
    and with the difficulty Easy or Hard (never Absent); and the active game
    reported for the caller, if in progress, does not involve the caller. *)
Theorem created_game_is_well_formed (db : DB) emails req call :
  createGameRequest db emails req = CreateService call ->
  exists user,
    create_user req = Some user
    /\ user_id user <> 0
    /\ arg_playerId call = user_id user
    /\ arg_opponent_email call = opponent_email req
    /\ arg_ai_difficulty call = ai_difficulty req
    /\ arg_initialBoard call = newGameBoard
    /\ arg_total_moves call = 0
    /\ match arg_type call with
       | PVP =>
           exists email row,
             opponent_email req = Some email
             /\ email <> EmptyString
             /\ findByEmail emails email = Some row
             /\ email <> user_email user
             /\ truthyString (ai_difficulty req) = None
             /\ forall game,
                  findActiveGameForPlayer db (user_id user)
                    (Some (PlayerEmail.player_id row)) = Some game ->
                  Game.status game = ONGOING ->
                  involves game (user_id user) = false
                  /\ involves game (PlayerEmail.player_id row) = false
       | PVE =>
           truthyString (opponent_email req) = None
           /\ (ai_difficulty req = Some (difficultyValue EASY)
               \/ ai_difficulty req = Some (difficultyValue HARD))
           /\ ai_difficulty req <> Some (difficultyValue ABSENT)
           /\ forall game,
                findActiveGameForPlayer db (user_id user) None = Some game ->
                Game.status game = ONGOING ->
                involves game (user_id user) = false
       end.
Proof.
  unfold createGameRequest.
  destruct (create_user req) as [user|]; [|discriminate].
  destruct (Z.eqb_spec (user_id user) 0) as [Z0|Z0]; [discriminate|].
  cbv zeta.
  destruct (truthyString (opponent_email req)) as [email|] eqn:Te.
  - destruct (findByEmail emails email) as [row|] eqn:Fe; [|discriminate].
    destruct (activeGameError _ _ _) eqn:A; [discriminate|].
    unfold gameParameters. rewrite Te.
    apply truthyString_some in Te. destruct Te as [Te Tt]. rewrite Te.
    destruct (String.eqb_spec (user_email user) email) as [E|E]; [discriminate|].
    destruct (truthyString (ai_difficulty req)) eqn:Td; [discriminate|].
    intros [= <-]. exists user. cbn. repeat split; try assumption.
    exists email, row. repeat split; auto.
    + intros ->. discriminate Tt.
    + unfold activeGameError in A. rewrite H in A.
      rewrite H0 in A. cbn in A.
      destruct (involves game (user_id user)); [discriminate|reflexivity].
    + unfold activeGameError in A. rewrite H in A.
      rewrite H0 in A. cbn in A.
      destruct (involves game (user_id user)); [discriminate|].
      destruct (involves game (PlayerEmail.player_id row));
        [discriminate|reflexivity].
  - destruct (activeGameError _ _ _) eqn:A; [discriminate|].
    unfold gameParameters. rewrite Te.
    assert (S : match opponent_email req with
                | Some email => String.eqb (user_email user) email
                | None => false
                end = false \/ True) by (now right).
    destruct (match opponent_email req with
              | Some email => String.eqb (user_email user) email
              | None => false
              end); [discriminate|].
    destruct (truthyString (ai_difficulty req)) as [difficulty|] eqn:Td;
      [|discriminate].
    apply truthyString_some in Td. destruct Td as [Td _].
    destruct (String.eqb_spec difficulty (difficultyValue ABSENT)) as [E|E];
      [discriminate|].
    destruct (isDifficulty difficulty) eqn:D; [|discriminate].
    intros [= <-]. exists user. cbn. repeat split; try assumption.
    + unfold isDifficulty in D. cbn in D.
      destruct (String.eqb_spec difficulty (difficultyValue ABSENT));
        [contradiction|].
      cbn in D.
      destruct (String.eqb_spec difficulty (difficultyValue EASY)) as [->|];
        [now left|].
      destruct (String.eqb_spec difficulty (difficultyValue HARD)) as [->|];
        [now right|discriminate D].
    + rewrite Td. intros [= H]. contradiction.
    + intros game Hg Hs. unfold activeGameError in A. rewrite Hg, Hs in A.
      cbn in A.
      destruct (involves game (user_id user)); [discriminate|reflexivity].
Qed.

End Creations.

(** ** The further properties on the sample sessions *)

#[local] Existing Instance Sample.rt.
#[local] Existing Instance Desk.libraries.
#[local] Existing Instance Lobby.gameModule.

(** X1 on a sample: long after the first round player 1 submits A1-B2 in
    game 1, which is not legal; the call throws and keeps the debit. *)
Lemma failed_call_effect_witness :
  let db := Sample.played Sample.opening in
  let run := @executeMove Sample.rt 200000 0%nat 1 "A1" "B2" 1 db in
  snd run = Throw (MoveError NOT_VALID_MOVE)
  /\ fst run = storePlayer db (debit Sample.alice).
Proof.
  cbv zeta. split; [reflexivity|].
  destruct (@failed_call_effect Sample.rt 200000 0%nat 1 "A1" "B2" 1
              (Sample.played Sample.opening) (MoveError NOT_VALID_MOVE)
              eq_refl)
    as [([H|[H|[H|H]]] & _)|(_ & player & Hp & Hs)]; try discriminate H.
  change (Some Sample.alice = Some player) in Hp.
  injection Hp as <-. exact Hs.
Defined.

(** X3 on a sample: player 1 plays a PvE round in game 2; the balance of
    player 2 is as before. *)
Lemma only_the_caller_pays_witness :
  let db := Sample.played Sample.opening in
  tokensOf (fst (@executeMove Sample.rt 2000 0%nat 2 "C3" "D4" 1 db)) 2
  = tokensOf db 2.
Proof.
  cbv zeta. apply (@only_the_caller_pays Sample.rt). discriminate.
Defined.

(** X5 on a sample: the timeout of game 1 on the legal C3-D4 of player 1,
    whose last record is 199 seconds old. *)
Lemma timeout_only_when_stale_witness :
  let db := Sample.played Sample.opening in
  exists last,
    latestMove db 1 (Some 1) = Some last
    /\ TIMEOUT_MINUTES * 60000 < 200000 - Move.createdAt last
    /\ exists player game savedBoard moveToMake,
         Cleared db 1 1 player game
         /\ Loaded game savedBoard
         /\ submitted savedBoard "C3" "D4" = Some moveToMake.
Proof.
  exact (@timeout_only_when_stale Sample.rt 200000 0%nat 1 "C3" "D4" 1
           (Sample.played Sample.opening) _ _ _ eq_refl).
Defined.

(** X6 on a sample: the same timeout; player 2 is recorded as the winner. *)
Lemma timed_out_caller_loses_witness :
  let db := Sample.played Sample.opening in
  let game := Sample.game 1 1 (Some 2) ONGOING PVP ABSENT 2 in
  exists game',
    lookupGame (fst (@executeMove Sample.rt 200000 0%nat 1 "C3" "D4" 1 db)) 1
    = Some game'
    /\ Game.winner_id game' = timeoutWinner game 1
    /\ Game.winner_id game' <> Some 1
    /\ Game.winner_id game' <> None.
Proof.
  refine (@timed_out_caller_loses Sample.rt 200000 0%nat 1 "C3" "D4" 1
            (Sample.played Sample.opening) _ _ _
            (Sample.game 1 1 (Some 2) ONGOING PVP ABSENT 2)
            eq_refl eq_refl _ _); discriminate.
Defined.

(** X7 on a sample: after C3-D4 in game 2 the AI, whose last record is
    B6-A5, plays B6-C5. *)
Lemma ai_reply_is_legal_and_new_witness :
  let db := Sample.played Sample.opening in
  let draughts := @afterMove Sample.rt Sample.initialBoard (Sample.step 42 35) in
  In (Sample.step 17 26) (@draughts_moves Sample.rt draughts)
  /\ forall last,
       latestMove db 2 None = Some last ->
       ~ (convertPosition (Move.from_position last) = Some 17
          /\ convertPosition (Move.to_position last) = Some 26).
Proof.
  exact (@ai_reply_is_legal_and_new Sample.rt 0%nat
           (Sample.played Sample.opening) 2
           (Sample.game 2 1 None ONGOING PVE HARD 2)
           (@afterMove Sample.rt Sample.initialBoard (Sample.step 42 35))
           (Sample.step 17 26)
           scripted_random_legal scripted_alphaBeta_legal eq_refl).
Defined.

(** X8 on a sample: the last record of player 1 in game 1 is A3-B4; the
    submission of A3x-B4 a second later is played. *)
Lemma respelled_move_is_played_witness :
  let db := Sample.played Sample.opening in
  submitted Sample.initialBoard "A3x" "B4" = Some (Sample.step 40 33)
  /\ repeated db 1 1 "A3x" "B4" = false
  /\ exists result,
       snd (@executeMove Sample.rt 2000 0%nat 1 "A3x" "B4" 1 db) = Return result.
Proof.
  refine (@respelled_move_is_played Sample.rt 2000 0%nat 1 "A" "3" "x" "B4" 1
            Sample.alice (Sample.game 1 1 (Some 2) ONGOING PVP ABSENT 2)
            Sample.initialBoard (Sample.step 40 33)
            (Sample.record 1 1 (Some 1) "A3" "B4" 1000)
            (Sample.played Sample.opening)
            alice_cleared_pvp (sample_board_loaded _ _ _ _ _ _)
            eq_refl eq_refl eq_refl _ eq_refl).
  discriminate.
Defined.

(** X9 on a sample: the PvE round C3-D4 in game 2, a second after the
    first round; the AI's record B6-C5 is its only record stamped 2000 and
    reads back as the squares 17 and 26. *)
Lemma ai_record_reads_back_witness :
  let db' := fst (@executeMove Sample.rt 2000 0%nat 2 "C3" "D4" 1
                    (Sample.played Sample.opening)) in
  exists record,
    latestMove db' 2 None = Some record
    /\ In record (moves_table db')
    /\ Move.game_id record = 2
    /\ Move.user_id record = None
    /\ Move.createdAt record = 2000
    /\ (forall x,
          In x (moves_table db') ->
          Move.game_id x = 2 -> Move.user_id x = None -> x <> record ->
          Move.createdAt x < 2000)
    /\ convertPosition (Move.from_position record) = Some 17
    /\ convertPosition (Move.to_position record) = Some 26.
Proof.
  refine (@ai_record_reads_back Sample.rt 2000 0%nat 2 "C3" "D4" 1
            Sample.alice (Sample.game 2 1 None ONGOING PVE HARD 2)
            Sample.initialBoard (Sample.step 42 35) (Sample.step 17 26)
            (Sample.played Sample.opening)
            (alice_accepted_pve "C3" "D4" _ eq_refl eq_refl)
            eq_refl eq_refl eq_refl _ _ _).
  - cbn. lia.
  - cbn. lia.
  - intros x Hx. cbn in Hx.
    destruct Hx as [<-|[<-|[<-|[<-|[]]]]]; cbn; lia.
Defined.

(** X10 on a sample: game 1 has timed out; a call on it and a round played
    in game 2 leave its row and its records as they are. *)
Lemma finished_session_is_immutable_witness :
  let db := fst (@executeMove Sample.rt 200000 0%nat 1 "C3" "D4" 1
                   (Sample.played Sample.opening)) in
  let calls := [ @Build_Call Sample.rt 200010 0%nat 1 "C3" "D4" 2;
                 @Build_Call Sample.rt 200020 0%nat 2 "C3" "D4" 1 ] in
  option_map Game.status (lookupGame (runCalls calls db) 1) = Some TIMED_OUT
  /\ recordsOf (runCalls calls db) 1 = recordsOf db 1.
Proof.
  cbv zeta.
  destruct (@finished_session_is_immutable Sample.rt
              [ @Build_Call Sample.rt 200010 0%nat 1 "C3" "D4" 2;
                @Build_Call Sample.rt 200020 0%nat 2 "C3" "D4" 1 ]
              (fst (@executeMove Sample.rt 200000 0%nat 1 "C3" "D4" 1
                      (Sample.played Sample.opening)))
              1
              {| Game.game_id := 1;
                 Game.player_id := 1;
                 Game.opponent_id := Some 2;
                 Game.winner_id := Some 2;
                 Game.status := TIMED_OUT;
                 Game.ended_at := Some 200000;
                 Game.type := PVP;
                 Game.ai_difficulty := ABSENT;
                 Game.board := BoardValue {| saved_board := Some Sample.initialBoard |};
                 Game.total_moves := 2 |}
              eq_refl) as [H1 H2]; [discriminate|].
  split; [now rewrite H1|exact H2].
Defined.

(** X12 on a sample: game 1 of the fresh sessions has no record. *)
Lemma history_failures_witness :
  exportMoveHistory (Sample.fresh Sample.opening) Desk.names 1 "pdf"
  = Throw (MoveError NO_MOVES).
Proof.
  exact (proj1 (@history_failures Sample.rt Desk.libraries
                  (Sample.fresh Sample.opening) Desk.names 1 "pdf") eq_refl).
Defined.

(** X13 on a sample: the history of game 1 after the first round. *)
Lemma history_is_chronological_witness :
  let db := Sample.played Sample.opening in
  exists entries sorted,
    exportMoveHistory db Desk.names 1 "json" = Return (JsonHistory entries)
    /\ exportMoveHistory db Desk.names 1 "pdf"
       = Return (PdfHistory (pdfDocument 1 entries))
    /\ Permutation sorted (recordsOf db 1)
    /\ StronglySorted notAfter sorted
    /\ map Entry.moveNumber entries = map Move.move_number sorted
    /\ map Entry.fromPosition entries = map Move.from_position sorted
    /\ map Entry.toPosition entries = map Move.to_position sorted
    /\ map Entry.pieceType entries = map Move.piece_type sorted
    /\ map Entry.timestamp entries
       = map (fun m => dateFormat (Move.createdAt m)) sorted.
Proof.
  refine (@history_is_chronological Sample.rt Desk.libraries
            (Sample.played Sample.opening) Desk.names 1 _).
  discriminate.
Defined.

Lemma spaced_is_sequenced : @Sequenced Sample.rt Desk.spaced.
Proof.
  intros id g H. pose proof (lookupGame_key _ _ _ H) as K.
  apply find_some in H. destruct H as [H _]. cbn in H.
  destruct H as [<-|[]]; cbn in K; subst id;
    (split; [cbn; lia|reflexivity]).
Qed.

(** X14 on a sample: the two records of game 1 are stamped 1000 and 1500;
    the entries are numbered 1 and 2. *)
Lemma history_follows_the_counter_witness :
  (forall sorted,
      Permutation sorted (recordsOf Desk.spaced 1) ->
      StronglySorted notAfter sorted ->
      map Move.move_number sorted = [1; 2])
  /\ exists entries,
       exportMoveHistory Desk.spaced Desk.names 1 "json"
       = Return (JsonHistory entries)
       /\ map Entry.moveNumber entries = [1; 2].
Proof.
  refine (@history_follows_the_counter Sample.rt Desk.libraries
            Desk.spaced Desk.names 1
            (Sample.game 1 1 (Some 2) ONGOING PVP ABSENT 2)
            spaced_is_sequenced eq_refl eq_refl _).
  repeat constructor; unfold before; cbn; lia.
Defined.

(** X15 on a sample: the first record of game 1 is by player 1, whose
    username is alice. *)
Lemma history_names_witness :
  let db := Sample.played Sample.opening in
  let m := Sample.record 1 1 (Some 1) "A3" "B4" 1000 in
  let players := Player_findAll Desk.names (userIdsOf (Move_findAll db 1)) in
  In (entryOf players m) (movesWithUsernames db Desk.names 1)
  /\ Entry.username (entryOf players m) = "alice".
Proof.
  cbv zeta.
  destruct (@history_names Sample.rt Desk.libraries
              (Sample.played Sample.opening) Desk.names 1
              (Sample.record 1 1 (Some 1) "A3" "B4" 1000))
    as [H1 [_ H2]].
  - left. reflexivity.
  - split; [exact H1|].
    apply (H2 (PlayerName.mk 1 "alice")).
    + repeat constructor; cbn; intuition discriminate.
    + left. reflexivity.
    + reflexivity.
Defined.

(** X16 on a sample: the history of game 1 asked for as pdf. *)
Lemma history_request_witness :
  let db := Sample.played Sample.opening in
  getMoveHistory db Desk.names 1 (Some "pdf")
  = ReplyPdf "application/pdf" "attachment; filename=game_1_moves.pdf"
      (pdfDocument 1 (movesWithUsernames db Desk.names 1)).
Proof.
  cbv zeta.
  destruct (@history_request Sample.rt Desk.libraries
              (Sample.played Sample.opening) Desk.names 1 (Some "pdf"))
    as (_ & _ & H).
  destruct H as [_ H]; [discriminate|discriminate|].
  exact (H eq_refl).
Defined.

(** X17 on a sample: a request without an authenticated player. *)
Lemma incomplete_request_is_free_witness :
  let db := Sample.played Sample.opening in
  executeMoveRequest 2000 0%nat
    {| body_gameId := Some 1; body_from := Some "A3"; body_to := Some "B4";
       user_player_id := None |} db
  = (db, MoveNext NeedAuthorization).
Proof.
  exact (proj1 (@incomplete_request_is_free Sample.rt Desk.libraries 2000 0%nat
                  {| body_gameId := Some 1; body_from := Some "A3";
                     body_to := Some "B4"; user_player_id := None |}
                  (Sample.played Sample.opening)) eq_refl).
Defined.

(** X18 on a sample: player 2 asks for a3-b4 in game 1. *)
Lemma positions_ignore_case_witness :
  let db := Sample.fresh Sample.opening in
  executeMoveRequest 2000 0%nat
    {| body_gameId := Some 1; body_from := Some "a3"; body_to := Some "b4";
       user_player_id := Some 2 |} db
  = executeMoveRequest 2000 0%nat
      {| body_gameId := Some 1; body_from := Some "A3"; body_to := Some "B4";
         user_player_id := Some 2 |} db.
Proof.
  exact (@positions_ignore_case Sample.rt Desk.libraries 2000 0%nat (Some 1)
           "a3" "b4" (Some 2) (Sample.fresh Sample.opening)
           (fun s _ => eq_refl) eq_refl eq_refl).
Defined.

(** X19 on a sample: player 3, who is in no game, asks for a game against
    the hard AI. *)
Lemma created_game_is_well_formed_witness :
  let req := {| opponent_email := None; ai_difficulty := Some "Hard";
                create_user := Some {| user_id := 3;
                                       user_email := "carol@example.org" |} |} in
  exists call,
    createGameRequest (Sample.played Sample.opening) Lobby.emails req
    = CreateService call
    /\ arg_playerId call = 3
    /\ arg_type call = PVE
    /\ arg_initialBoard call = newGameBoard
    /\ arg_total_moves call = 0.
Proof.
  cbv zeta. eexists. split; [reflexivity|].
  destruct (@created_game_is_well_formed Sample.rt Lobby.gameModule
              (Sample.played Sample.opening) Lobby.emails
              {| opponent_email := None; ai_difficulty := Some "Hard";
                 create_user := Some {| user_id := 3;
                                        user_email := "carol@example.org" |} |}
              _ eq_refl)
    as (user & Hu & _ & Hp & _ & _ & Hb & Ht & _).
  injection Hu as <-.
  split; [exact Hp|]. split; [reflexivity|]. split; [exact Hb|exact Ht].
Defined.

(** X20 on a sample: in the fresh game 1, A3-B4 is played for player 1, and
    for player 2 as well. *)
Lemma turn_is_not_checked_witness :
  let db := Sample.fresh Sample.opening in
  (exists result,
      snd (@executeMove Sample.rt 2000 0%nat 1 "A3" "B4" 1 db) = Return result)
  /\ exists result',
       snd (@executeMove Sample.rt 2000 0%nat 1 "A3" "B4" 2 db) = Return result'
       /\ forall message id s, result' <> TimeoutResult message id s.
Proof.
  cbv zeta. split; [eexists; reflexivity|].
  destruct (@turn_is_not_checked Sample.rt 2000 0%nat 1 "A3" "B4" 1 2
              Sample.bob (Sample.game 1 1 (Some 2) ONGOING PVP ABSENT 0) _
              (Sample.fresh Sample.opening) eq_refl bob_cleared_fresh eq_refl)
    as (m & board & result' & _ & H1 & H2).
  exists result'. split; [exact H1|exact H2].
Defined.
